(** * Email tracking server: the two server variants and their HTTP contracts

    Shallow embedding of [src/index.js] (better-sqlite3, schema with
    foreign keys, parameterised statements, extended [/api/stats]) and of
    the second server file (sql.js, in-memory database, schema without
    foreign keys, string-interpolated SELECTs).

    Modelling conventions.
    - A table is the list of its rows in rowid (insertion) order.
    - TEXT columns hold [string] (byte strings); a nullable TEXT column
      whose value comes from the JSON body is [option string], [None]
      being SQL NULL.
    - A DATETIME column holds the text ['YYYY-MM-DD HH:MM:SS'] produced by
      CURRENT_TIMESTAMP.  It is represented by the pair (day number,
      second of the day); the BINARY text order of the column is the
      lexicographic order of the pair, and DATE(t) is the day number.
    - Everything a handler reads from outside the database (clock, random
      generator, environment variables, engine configuration, and whether
      the engine raises on a statement) is gathered in a [world].
    - A thrown JavaScript exception is the [Throw] result.
    - Request values (path parameters, query parameters, headers, body
      fields) are text, or absent where the source allows for it; [req.ip]
      is taken to be defined.
    - A response is the call the handler makes on [res]: status, the
      headers it sets itself, and the payload, or a redirect.  What
      Express then puts on the wire for it (the entity tag, and 304 with an
      empty body for a conditional GET it judges fresh) is [Express.send]. *)

From stdpp Require Import gmap strings list.
From Stdlib Require Import ZArith Lia Ascii String Sorted.
From Stdlib Require Strings.Byte.

Local Open Scope string_scope.
Local Open Scope Z_scope.

(** ** Values *)

Record timestamp := { ts_day : Z; ts_sec : Z }.

Definition ts_ltb (a b : timestamp) : bool :=
  (ts_day a <? ts_day b) || ((ts_day a =? ts_day b) && (ts_sec a <? ts_sec b)).

Definition ts_leb (a b : timestamp) : bool := negb (ts_ltb b a).

(** SQL [DATE(t)]. *)
Definition DATE (t : timestamp) : Z := ts_day t.

(** JavaScript [a || b] on a possibly undefined string: the empty string is
    falsy as well. *)
Definition js_or (a : option string) (b : string) : string :=
  match a with
  | Some s => if String.eqb s "" then b else s
  | None => b
  end.

(** ** Tables *)

Record email_row := {
  e_id : string;
  e_subject : option string;
  e_recipient : option string;
  e_sent_at : timestamp;
  e_user_email : option string
}.

Record open_row := {
  o_id : Z;
  o_email_id : string;
  o_opened_at : timestamp;
  o_ip_address : string;
  o_user_agent : string
}.

Record link_row := {
  l_id : string;
  l_email_id : option string;
  l_original_url : option string;
  l_created_at : timestamp
}.

Record click_row := {
  c_id : Z;
  c_link_id : string;
  c_clicked_at : timestamp;
  c_ip_address : string;
  c_user_agent : string
}.

Record db := {
  emails : list email_row;
  opens : list open_row;
  links : list link_row;
  clicks : list click_row
}.

Definition empty_db : db :=
  {| emails := []; opens := []; links := []; clicks := [] |}.

(** ** The world of one request *)

Record world := {
  now : timestamp;                      (* CURRENT_TIMESTAMP *)
  entropy : nat -> Byte.byte;              (* the bytes crypto.randomBytes returns *)
  foreign_keys : bool;                  (* PRAGMA foreign_keys of the connection *)
  read_fails : bool;                    (* a SELECT of this request raises *)
  write_fails : bool;                   (* the INSERT of this request raises *)
  BASE_URL : option string;             (* process.env.BASE_URL *)
  RENDER_EXTERNAL_URL : option string   (* process.env.RENDER_EXTERNAL_URL *)
}.

Record request := {
  x_forwarded_for : option string;      (* req.headers['x-forwarded-for'] *)
  user_agent : option string;           (* req.headers['user-agent'] *)
  ip : string;                          (* req.ip *)
  protocol : string;                    (* req.protocol *)
  host : option string;                 (* req.get('host') *)
  if_none_match : option string;        (* req.headers['if-none-match'] *)
  if_modified_since : option string;    (* req.headers['if-modified-since'] *)
  cache_control : option string         (* req.headers['cache-control'] *)
}.

Inductive result (A : Type) : Type :=
  | Ok (a : A)
  | Throw.
Arguments Ok {A} a.
Arguments Throw {A}.

(** ** Storage engine: constraints and statements *)

Definition has_email (d : db) (id : string) : bool :=
  existsb (fun e => String.eqb (e_id e) id) (emails d).

Definition has_link (d : db) (id : string) : bool :=
  existsb (fun l => String.eqb (l_id l) id) (links d).

(** AUTOINCREMENT: one more than the largest rowid in the table. *)
Definition next_rowid (ids : list Z) : Z :=
  1 + fold_right Z.max 0 ids.

(** [INSERT INTO opens (email_id, ip_address, user_agent) VALUES (?, ?, ?)].
    [fk] tells whether the schema declares
    [FOREIGN KEY (email_id) REFERENCES emails(id)]. *)
Definition insert_open (fk : bool) (w : world) (d : db)
    (email_id ip_address user_agent : string) : result db :=
  if write_fails w then Throw
  else if fk && foreign_keys w && negb (has_email d email_id) then Throw
  else Ok {| emails := emails d;
             opens := opens d ++
               [{| o_id := next_rowid (map o_id (opens d));
                   o_email_id := email_id;
                   o_opened_at := now w;
                   o_ip_address := ip_address;
                   o_user_agent := user_agent |}];
             links := links d;
             clicks := clicks d |}.

(** [INSERT INTO clicks (link_id, ip_address, user_agent) VALUES (?, ?, ?)]. *)
Definition insert_click (fk : bool) (w : world) (d : db)
    (link_id ip_address user_agent : string) : result db :=
  if write_fails w then Throw
  else if fk && foreign_keys w && negb (has_link d link_id) then Throw
  else Ok {| emails := emails d;
             opens := opens d;
             links := links d;
             clicks := clicks d ++
               [{| c_id := next_rowid (map c_id (clicks d));
                   c_link_id := link_id;
                   c_clicked_at := now w;
                   c_ip_address := ip_address;
                   c_user_agent := user_agent |}] |}.

(** [INSERT INTO emails (id, subject, recipient, user_email) VALUES (?, ?, ?, ?)];
    [id] is the PRIMARY KEY. *)
Definition insert_email (w : world) (d : db) (id : string)
    (subject recipient user_email : option string) : result db :=
  if write_fails w then Throw
  else if has_email d id then Throw
  else Ok {| emails := emails d ++
               [{| e_id := id;
                   e_subject := subject;
                   e_recipient := recipient;
                   e_sent_at := now w;
                   e_user_email := user_email |}];
             opens := opens d;
             links := links d;
             clicks := clicks d |}.

(** [INSERT INTO links (id, email_id, original_url) VALUES (?, ?, ?)];
    [id] is the PRIMARY KEY; a NULL [email_id] passes the foreign key. *)
Definition insert_link (fk : bool) (w : world) (d : db) (id : string)
    (email_id original_url : option string) : result db :=
  if write_fails w then Throw
  else if has_link d id then Throw
  else if fk && foreign_keys w &&
          match email_id with
          | Some e => negb (has_email d e)
          | None => false
          end then Throw
  else Ok {| emails := emails d;
             opens := opens d;
             links := links d ++
               [{| l_id := id;
                   l_email_id := email_id;
                   l_original_url := original_url;
                   l_created_at := now w |}];
             clicks := clicks d |}.

(** ** Query building blocks *)

(** Inner join as SQLite runs it: a nested loop, one output row per
    matching pair. *)
Definition join {A B : Type} (l : list A) (r : list B) (on : A -> B -> bool)
    : list (A * B) :=
  flat_map (fun a => map (pair a) (List.filter (on a) r)) l.

(** [ORDER BY key DESC] on a DATETIME column; rows with equal keys keep
    their scan order (SQL leaves their order open; no statement below
    depends on it). *)
Fixpoint insert_desc {A : Type} (key : A -> timestamp) (x : A) (l : list A)
    : list A :=
  match l with
  | [] => [x]
  | y :: l' =>
      if ts_leb (key y) (key x) then x :: l
      else y :: insert_desc key x l'
  end.

Definition order_by_desc {A : Type} (key : A -> timestamp) (l : list A)
    : list A :=
  fold_right (insert_desc key) [] l.

(** [LIMIT n]. *)
Definition LIMIT {A : Type} (n : nat) (l : list A) : list A := firstn n l.

(** [MAX(col)] over DATETIME values; NULL on no rows. *)
Definition MAX (l : list timestamp) : option timestamp :=
  fold_right
    (fun t acc =>
       match acc with
       | None => Some t
       | Some m => Some (if ts_ltb m t then t else m)
       end) None l.

(** [GROUP BY day ORDER BY day] with [COUNT( * )]: groups kept in ascending
    order of the day. *)
Fixpoint bump (day : Z) (acc : list (Z * nat)) : list (Z * nat) :=
  match acc with
  | [] => [(day, 1%nat)]
  | (day', n) :: rest =>
      if day <? day' then (day, 1%nat) :: acc
      else if day =? day' then (day', S n) :: rest
      else (day', n) :: bump day rest
  end.

Definition group_count (days : list Z) : list (Z * nat) :=
  fold_left (fun acc day => bump day acc) days [].

(** [new Set(xs).size]. *)
Definition Set_size (xs : list string) : nat :=
  size (list_to_set xs : gset string).

(** ** HTTP replies *)

Record email_summary := {
  s_id : string;
  s_subject : option string;
  s_recipient : option string;
  s_sent_at : timestamp;
  open_count : nat;
  last_opened : option timestamp;
  click_count : nat
}.

Record open_view := {
  ov_opened_at : timestamp;
  ov_ip_address : string;
  ov_user_agent : string
}.

Record link_view := {
  lv_id : string;
  lv_original_url : option string;
  lv_click_count : nat
}.

Record click_view := {
  cv_clicked_at : timestamp;
  cv_ip_address : string;
  cv_user_agent : string;
  cv_original_url : option string
}.

Record stats_block := {
  totalOpens : nat;
  uniqueOpens : nat;
  totalClicks : nat;
  uniqueClicks : nat
}.

Record email_detail := {
  d_email : email_row;
  d_opens : list open_view;
  d_links : list link_view;
  d_clicks : list click_view;
  d_stats : stats_block
}.

Record stats_reply := {
  total_emails : nat;
  total_opens : nat;
  total_clicks : nat;
  opensByDay : list (Z * nat)
}.

Inductive payload : Type :=
  | Text (s : string)                               (* res.send(string) *)
  | Buffer (bytes : list Byte.byte)                 (* res.send(Buffer) *)
  | ErrorJson (error : string)                      (* res.json({ error }) *)
  | EmailCreated (emailId trackingPixel : string)
  | LinkCreated (linkId trackedUrl : string)
  | EmailList (rows : list email_summary)
  | EmailDetail (detail : email_detail)
  | Stats (s : stats_reply).

Inductive response : Type :=
  | Reply (status : Z) (headers : list (string * string)) (body : payload)
  | Redirect (status : Z) (location : option string)   (* res.redirect *).

(** What a handler leaves behind: the database, the response, and the
    lines written with console.error. *)
Record effect := {
  store : db;
  reply : response;
  console : list string
}.

(** ** The tracking pixel *)

Definition b64_value (c : ascii) : option N :=
  let n := N_of_ascii c in
  if ((65 <=? n) && (n <=? 90))%N then Some (n - 65)%N
  else if ((97 <=? n) && (n <=? 122))%N then Some (n - 71)%N
  else if ((48 <=? n) && (n <=? 57))%N then Some (n + 4)%N
  else if (n =? 43)%N then Some 62%N
  else if (n =? 47)%N then Some 63%N
  else None.

(** The 6-bit groups of a base64 text, up to the padding. *)
Fixpoint sextets (s : string) : list N :=
  match s with
  | EmptyString => []
  | String c s' =>
      match b64_value c with
      | Some v => v :: sextets s'
      | None => []
      end
  end.

Definition byte_of_N (n : N) : Byte.byte :=
  match Byte.of_N (n mod 256) with
  | Some b => b
  | None => Byte.x00
  end.

Fixpoint pack (l : list N) : list Byte.byte :=
  match l with
  | a :: b :: c :: d :: rest =>
      let n := (N.shiftl a 18 + N.shiftl b 12 + N.shiftl c 6 + d)%N in
      byte_of_N (N.shiftr n 16) :: byte_of_N (N.shiftr n 8) :: byte_of_N n
        :: pack rest
  | [a; b; c] =>
      let n := (N.shiftl a 10 + N.shiftl b 4 + N.shiftr c 2)%N in
      [byte_of_N (N.shiftr n 8); byte_of_N n]
  | [a; b] => [byte_of_N (N.shiftl a 2 + N.shiftr b 4)%N]
  | _ => []
  end.

(** [Buffer.from(text, 'base64')], for a text over the base64 alphabet
    with its padding at the end. *)
Definition Buffer_from_base64 (text : string) : list Byte.byte :=
  pack (sextets text).

Definition TRACKING_PIXEL : list Byte.byte :=
  Buffer_from_base64
    "iVBORw0KGgoAAAANSUhEUgAAAAEAAAABCAYAAAAfFcSJAAAADUlEQVR42mNk+M9QDwADhgGAWjR9awAAAABJRU5ErkJggg==".

Fixpoint digits (fuel : nat) (n : N) (acc : string) : string :=
  match fuel with
  | O => acc
  | S fuel' =>
      let acc' := String (ascii_of_N (48 + n mod 10)) acc in
      if (n / 10 =? 0)%N then acc' else digits fuel' (n / 10)%N acc'
  end.

(** Decimal rendering of a length used as a header value. *)
Definition decimal (n : nat) : string := digits (S n) (N.of_nat n) "".

(** The headers and body both servers send for the pixel. *)
Definition pixel_headers : list (string * string) :=
  [ ("Content-Type", "image/png");
    ("Content-Length", decimal (List.length TRACKING_PIXEL));
    ("Cache-Control", "no-store, no-cache, must-revalidate, private");
    ("Pragma", "no-cache");
    ("Expires", "0") ].

Definition pixel_reply : response :=
  Reply 200 pixel_headers (Buffer TRACKING_PIXEL).

(** One header of a response, by name. *)
Definition header (name : string) (r : response) : option string :=
  match r with
  | Reply _ hs _ =>
      option_map snd (find (fun h => String.eqb (fst h) name) hs)
  | Redirect _ _ => None
  end.



(** ** Identifiers *)

Definition hex_digit (n : N) : ascii :=
  if (n <? 10)%N then ascii_of_N (48 + n) else ascii_of_N (87 + n).

(** [buf.toString('hex')]. *)
Fixpoint to_hex (bs : list Byte.byte) : string :=
  match bs with
  | [] => ""
  | b :: bs' =>
      String (hex_digit (Byte.to_N b / 16))
        (String (hex_digit (Byte.to_N b mod 16)) (to_hex bs'))
  end.

(** [crypto.randomBytes(n)]. *)
Definition randomBytes (w : world) (n : nat) : list Byte.byte :=
  map (entropy w) (seq 0 n).

(** ** Statements the two servers share

    The two files run the same SELECT texts and differ in how the request
    value reaches the WHERE clause: bound to a [?] in [src/index.js],
    spliced into the text in the sql.js server.  [cond] is the condition
    the engine ends up evaluating on the filtered column. *)

(** [col = ?] with a TEXT value bound: never true on NULL. *)
Definition eq_param (x : string) (v : option string) : bool :=
  match v with
  | Some s => String.eqb s x
  | None => false
  end.

(** [(SELECT COUNT( * ) FROM opens WHERE email_id = e.id)] *)
Definition opens_of (d : db) (id : string) : list open_row :=
  List.filter (fun o => String.eqb (o_email_id o) id) (opens d).

(** [clicks c JOIN links l ON c.link_id = l.id] *)
Definition clicks_links (d : db) : list (click_row * link_row) :=
  join (clicks d) (links d) (fun c l => String.eqb (c_link_id c) (l_id l)).

(** [... WHERE l.email_id = e.id] *)
Definition clicks_of (d : db) (id : string) : list (click_row * link_row) :=
  List.filter (fun cl => eq_param id (l_email_id (snd cl))) (clicks_links d).

Definition summary (d : db) (e : email_row) : email_summary :=
  {| s_id := e_id e;
     s_subject := e_subject e;
     s_recipient := e_recipient e;
     s_sent_at := e_sent_at e;
     open_count := List.length (opens_of d (e_id e));
     last_opened := MAX (map o_opened_at (opens_of d (e_id e)));
     click_count := List.length (clicks_of d (e_id e)) |}.

(** The listing statement of [GET /api/emails], [cond] on [e.user_email]. *)
Definition select_emails (cond : option string -> bool) (d : db)
    : list email_summary :=
  map (summary d)
      (LIMIT 100
         (order_by_desc e_sent_at
            (List.filter (fun e => cond (e_user_email e)) (emails d)))).

(** [SELECT original_url FROM links WHERE id ...] *)
Definition select_links (cond : option string -> bool) (d : db)
    : list link_row :=
  List.filter (fun l => cond (Some (l_id l))) (links d).

(** [SELECT * FROM emails WHERE id ...] *)
Definition select_email (cond : option string -> bool) (d : db)
    : list email_row :=
  List.filter (fun e => cond (Some (e_id e))) (emails d).

Definition view_open (o : open_row) : open_view :=
  {| ov_opened_at := o_opened_at o;
     ov_ip_address := o_ip_address o;
     ov_user_agent := o_user_agent o |}.

Definition view_click (cl : click_row * link_row) : click_view :=
  {| cv_clicked_at := c_clicked_at (fst cl);
     cv_ip_address := c_ip_address (fst cl);
     cv_user_agent := c_user_agent (fst cl);
     cv_original_url := l_original_url (snd cl) |}.

Definition view_link (d : db) (l : link_row) : link_view :=
  {| lv_id := l_id l;
     lv_original_url := l_original_url l;
     lv_click_count :=
       List.length
         (List.filter (fun c => String.eqb (c_link_id c) (l_id l)) (clicks d)) |}.

(** [SELECT opened_at, ip_address, user_agent FROM opens
     WHERE email_id ... ORDER BY opened_at DESC] *)
Definition select_opens (cond : option string -> bool) (d : db)
    : list open_view :=
  map view_open
      (order_by_desc o_opened_at
         (List.filter (fun o => cond (Some (o_email_id o))) (opens d))).

(** [SELECT l.id, l.original_url, (SELECT COUNT( * ) ...) FROM links l
     WHERE l.email_id ...] *)
Definition select_links_of (cond : option string -> bool) (d : db)
    : list link_view :=
  map (view_link d) (List.filter (fun l => cond (l_email_id l)) (links d)).

(** [SELECT c.clicked_at, ..., l.original_url FROM clicks c
     JOIN links l ON c.link_id = l.id WHERE l.email_id ...
     ORDER BY c.clicked_at DESC] *)
Definition select_clicks (cond : option string -> bool) (d : db)
    : list click_view :=
  map view_click
      (order_by_desc (fun cl => c_clicked_at (fst cl))
         (List.filter (fun cl => cond (l_email_id (snd cl))) (clicks_links d))).

(** The [stats] object of the detail reply. *)
Definition stats_of (opens : list open_view) (clicks : list click_view)
    : stats_block :=
  {| totalOpens := List.length opens;
     uniqueOpens := Set_size (map ov_ip_address opens);
     totalClicks := List.length clicks;
     uniqueClicks := Set_size (map cv_ip_address clicks) |}.

Definition detail_of (email : email_row) (opens : list open_view)
    (links : list link_view) (clicks : list click_view) : email_detail :=
  {| d_email := email;
     d_opens := opens;
     d_links := links;
     d_clicks := clicks;
     d_stats := stats_of opens clicks |}.

Definition click_failed (d : db) : effect :=
  {| store := d;
     reply := Reply 500 [] (Text "Error processing request");
     console := ["Error processing click:"] |}.

Definition link_not_found (d : db) : effect :=
  {| store := d;
     reply := Reply 404 [] (Text "Link not found");
     console := [] |}.

Definition emails_failed (d : db) : effect :=
  {| store := d;
     reply := Reply 500 [] (ErrorJson "Failed to fetch emails");
     console := ["Error fetching emails:"] |}.

Definition detail_failed (d : db) : effect :=
  {| store := d;
     reply := Reply 500 [] (ErrorJson "Failed to fetch email details");
     console := ["Error fetching email details:"] |}.

Definition email_not_found (d : db) : effect :=
  {| store := d;
     reply := Reply 404 [] (ErrorJson "Email not found");
     console := [] |}.

(** ** [src/index.js]: better-sqlite3, parameterised statements *)

Module IndexJs.

(** The schema declares FOREIGN KEY clauses on opens, links and clicks;
    whether the engine enforces them is the connection's [foreign_keys]
    setting, which the file leaves to the driver and the world carries. *)
Definition declares_fk : bool := true.

Definition getBaseUrl (w : world) (req : request) : string :=
  js_or (BASE_URL w)
        (protocol req ++ "://" ++
         match host req with Some h => h | None => "undefined" end).

(** [app.get('/t/:emailId.png', ...)] *)
Definition get_t_emailId_png (w : world) (d : db) (req : request)
    (emailId : string) : effect :=
  match insert_open declares_fk w d emailId
          (js_or (x_forwarded_for req) (ip req))
          (js_or (user_agent req) "Unknown") with
  | Ok d' => {| store := d'; reply := pixel_reply; console := [] |}
  | Throw =>
      {| store := d; reply := pixel_reply;
         console := ["Error logging open:"] |}
  end.

(** [db.prepare('SELECT original_url FROM links WHERE id = ?').get(linkId)] *)
Definition select_link (w : world) (d : db) (linkId : string)
    : result (option link_row) :=
  if read_fails w then Throw
  else Ok (head (select_links (eq_param linkId) d)).

(** [app.get('/c/:linkId', ...)] *)
Definition get_c_linkId (w : world) (d : db) (req : request)
    (linkId : string) : effect :=
  match select_link w d linkId with
  | Throw => click_failed d
  | Ok None => link_not_found d
  | Ok (Some link) =>
      match insert_click declares_fk w d linkId
              (js_or (x_forwarded_for req) (ip req))
              (js_or (user_agent req) "Unknown") with
      | Throw => click_failed d
      | Ok d' =>
          {| store := d';
             reply := Redirect 302 (l_original_url link);
             console := [] |}
      end
  end.

(** [app.post('/api/emails', ...)]; the three arguments are the values
    bound to the statement. *)
Definition post_api_emails (w : world) (d : db) (req : request)
    (subject recipient userEmail : option string) : effect :=
  let emailId := to_hex (randomBytes w 8) in
  match insert_email w d emailId subject recipient userEmail with
  | Ok d' =>
      {| store := d';
         reply := Reply 200 []
           (EmailCreated emailId
              (getBaseUrl w req ++ "/t/" ++ emailId ++ ".png"));
         console := [] |}
  | Throw =>
      {| store := d;
         reply := Reply 500 [] (ErrorJson "Failed to create email");
         console := ["Error creating email:"] |}
  end.

(** [app.post('/api/links', ...)] *)
Definition post_api_links (w : world) (d : db) (req : request)
    (emailId originalUrl : option string) : effect :=
  let linkId := to_hex (randomBytes w 6) in
  match insert_link declares_fk w d linkId emailId originalUrl with
  | Ok d' =>
      {| store := d';
         reply := Reply 200 []
           (LinkCreated linkId (getBaseUrl w req ++ "/c/" ++ linkId));
         console := [] |}
  | Throw =>
      {| store := d;
         reply := Reply 500 [] (ErrorJson "Failed to create link");
         console := ["Error creating link:"] |}
  end.

(** [app.get('/api/emails', ...)] *)
Definition get_api_emails (w : world) (d : db) (userEmail : string) : effect :=
  if read_fails w then emails_failed d
  else
    {| store := d;
       reply := Reply 200 [] (EmailList (select_emails (eq_param userEmail) d));
       console := [] |}.

(** [app.get('/api/emails/:emailId', ...)] *)
Definition get_api_emails_emailId (w : world) (d : db) (emailId : string)
    : effect :=
  if read_fails w then detail_failed d
  else
    match head (select_email (eq_param emailId) d) with
    | None => email_not_found d
    | Some email =>
        {| store := d;
           reply := Reply 200 []
             (EmailDetail
                (detail_of email
                   (select_opens (eq_param emailId) d)
                   (select_links_of (eq_param emailId) d)
                   (select_clicks (eq_param emailId) d)));
           console := [] |}
    end.

(** [opens o JOIN emails e ON o.email_id = e.id WHERE e.user_email = ?] *)
Definition opens_of_user (d : db) (userEmail : string)
    : list (open_row * email_row) :=
  List.filter (fun oe => eq_param userEmail (e_user_email (snd oe)))
    (join (opens d) (emails d)
          (fun o e => String.eqb (o_email_id o) (e_id e))).

(** [clicks c JOIN links l ON c.link_id = l.id
     JOIN emails e3 ON l.email_id = e3.id WHERE e3.user_email = ?] *)
Definition clicks_of_user (d : db) (userEmail : string)
    : list (click_row * link_row * email_row) :=
  List.filter (fun cle => eq_param userEmail (e_user_email (snd cle)))
    (join (clicks_links d) (emails d)
          (fun cl e => eq_param (e_id e) (l_email_id (snd cl)))).

(** The opensByDay statement; [DATE('now', '-7 days')] is seven days before
    the day of [now], and [o.opened_at >= DATE(...)] compares the
    timestamp text with a bare date text: it holds from the first second
    of that day on. *)
Definition select_opensByDay (w : world) (d : db) (userEmail : string)
    : list (Z * nat) :=
  group_count
    (map (fun oe => DATE (o_opened_at (fst oe)))
         (List.filter
            (fun oe => DATE (now w) - 7 <=? DATE (o_opened_at (fst oe)))
            (opens_of_user d userEmail))).

Definition select_stats (w : world) (d : db) (userEmail : string)
    : stats_reply :=
  {| total_emails :=
       Set_size
         (map e_id
            (List.filter (fun e => eq_param userEmail (e_user_email e))
               (emails d)));
     total_opens := List.length (opens_of_user d userEmail);
     total_clicks := List.length (clicks_of_user d userEmail);
     opensByDay := select_opensByDay w d userEmail |}.

(** [app.get('/api/stats', ...)] *)
Definition get_api_stats (w : world) (d : db) (userEmail : string) : effect :=
  if read_fails w then
    {| store := d;
       reply := Reply 500 [] (ErrorJson "Failed to fetch stats");
       console := ["Error fetching stats:"] |}
  else
    {| store := d;
       reply := Reply 200 [] (Stats (select_stats w d userEmail));
       console := [] |}.

End IndexJs.

(** ** SQL text with a spliced value

    The sql.js server builds [... WHERE col = '${x}' tail] and hands the
    text to the engine.  What follows is the engine's reading of the text
    from the opening quote on, for the fragment

      'literal' { (OR | AND) 'literal' = 'literal' } tail

    An unterminated string literal is rejected by the tokenizer; any other
    text is outside the fragment and the model says so instead of
    guessing. *)

Module SqlText.

Inductive parse (A : Type) : Type :=
  | Parsed (a : A)
  | Rejected          (* the engine raises a syntax error *)
  | Outside.          (* not covered by this model *)
Arguments Parsed {A} a.
Arguments Rejected {A}.
Arguments Outside {A}.

Inductive connective := AND | OR.

Record where_clause := {
  first : string;                                   (* col = 'first' *)
  more : list (connective * string * string)        (* OR 'a' = 'b' ... *)
}.

Definition nl : string := String "010" "".

(** The statement text ends at the first NUL byte. *)
Fixpoint until_nul (s : string) : string :=
  match s with
  | EmptyString => ""
  | String c s' => if Ascii.eqb c "000" then "" else String c (until_nul s')
  end.

Definition is_space (c : ascii) : bool :=
  let n := N_of_ascii c in
  ((n =? 32) || (n =? 9) || (n =? 10) || (n =? 12) || (n =? 13))%N.

Fixpoint skip_ws (s : string) : string :=
  match s with
  | EmptyString => ""
  | String c s' => if is_space c then skip_ws s' else s
  end.

Definition is_ident (c : ascii) : bool :=
  let n := N_of_ascii c in
  (((48 <=? n) && (n <=? 57)) || ((65 <=? n) && (n <=? 90)) ||
   ((97 <=? n) && (n <=? 122)) || (n =? 95) || (n =? 36) || (128 <=? n))%N.

Definition upper (c : ascii) : ascii :=
  let n := N_of_ascii c in
  if ((97 <=? n) && (n <=? 122))%N then ascii_of_N (n - 32) else c.

Fixpoint prefix_ci (kw s : string) : option string :=
  match kw with
  | EmptyString => Some s
  | String k kw' =>
      match s with
      | EmptyString => None
      | String c s' => if Ascii.eqb (upper c) k then prefix_ci kw' s' else None
      end
  end.

(** [s] starts with the keyword [kw], which ends there. *)
Definition keyword (kw s : string) : option string :=
  match prefix_ci kw s with
  | Some (String c r) => if is_ident c then None else Some (String c r)
  | Some EmptyString => Some ""
  | None => None
  end.

(** The body of a string literal, after its opening quote: two quotes in a
    row stand for one, a single quote closes it. *)
Fixpoint string_literal (s : string) (acc : string) : option (string * string) :=
  match s with
  | EmptyString => None
  | String c s' =>
      if Ascii.eqb c "'" then
        match s' with
        | String c' s'' =>
            if Ascii.eqb c' "'" then string_literal s'' (acc ++ "'")
            else Some (acc, s')
        | EmptyString => Some (acc, s')
        end
      else string_literal s' (acc ++ String c "")
  end.

Definition literal_at (s : string) : parse (string * string) :=
  match s with
  | String c s' =>
      if Ascii.eqb c "'" then
        match string_literal s' "" with
        | Some p => Parsed p
        | None => Rejected
        end
      else Outside
  | EmptyString => Outside
  end.

Definition connective_at (s : string) : option (connective * string) :=
  match keyword "OR" s with
  | Some r => Some (OR, r)
  | None =>
      match keyword "AND" s with
      | Some r => Some (AND, r)
      | None => None
      end
  end.

Fixpoint clauses (fuel : nat) (s : string)
    : parse (list (connective * string * string) * string) :=
  match fuel with
  | O => Outside
  | S fuel' =>
      match connective_at (skip_ws s) with
      | None => Parsed ([], skip_ws s)
      | Some (k, r) =>
          match literal_at (skip_ws r) with
          | Parsed (a, r1) =>
              match skip_ws r1 with
              | String c r2 =>
                  if Ascii.eqb c "=" then
                    match literal_at (skip_ws r2) with
                    | Parsed (b, r3) =>
                        match clauses fuel' r3 with
                        | Parsed (cs, rest) => Parsed ((k, a, b) :: cs, rest)
                        | Rejected => Rejected
                        | Outside => Outside
                        end
                    | Rejected => Rejected
                    | Outside => Outside
                    end
                  else Outside
              | EmptyString => Outside
              end
          | Rejected => Rejected
          | Outside => Outside
          end
      end
  end.

(** The engine's reading of ['x' tail], [x] being the spliced value. *)
Definition read_where (x tail : string) : parse where_clause :=
  let text := until_nul ("'" ++ x ++ "'" ++ tail) in
  match literal_at text with
  | Parsed (v, r) =>
      match clauses (S (String.length r)) r with
      | Parsed (cs, rest) =>
          if String.eqb rest (skip_ws tail)
          then Parsed {| first := v; more := cs |}
          else Outside
      | Rejected => Rejected
      | Outside => Outside
      end
  | Rejected => Rejected
  | Outside => Outside
  end.

(** Three-valued logic; [None] is NULL. *)
Definition and3 (a b : option bool) : option bool :=
  match a, b with
  | Some false, _ | _, Some false => Some false
  | Some true, Some true => Some true
  | _, _ => None
  end.

Definition or3 (a b : option bool) : option bool :=
  match a, b with
  | Some true, _ | _, Some true => Some true
  | Some false, Some false => Some false
  | _, _ => None
  end.

(** AND binds tighter than OR: [disj] is the disjunction of the finished
    conjunctions, [conj] the conjunction being read. *)
Fixpoint eval_more (disj conj : option bool)
    (cs : list (connective * string * string)) : option bool :=
  match cs with
  | [] => or3 disj conj
  | (OR, a, b) :: cs' => eval_more (or3 disj conj) (Some (String.eqb a b)) cs'
  | (AND, a, b) :: cs' => eval_more disj (and3 conj (Some (String.eqb a b))) cs'
  end.

(** The row passes the WHERE clause; [v] is its value of the column. *)
Definition holds (wc : where_clause) (v : option string) : bool :=
  match eval_more (Some false)
          (option_map (fun s => String.eqb s (first wc)) v) (more wc) with
  | Some true => true
  | _ => false
  end.

End SqlText.

(** ** The sql.js server: in-memory database, spliced SELECT texts *)

Module SqlJs.

Import SqlText.

(** The schema declares no FOREIGN KEY clause. *)
Definition declares_fk : bool := false.

Definition getBaseUrl (w : world) (req : request) : string :=
  js_or (RENDER_EXTERNAL_URL w)
    (js_or (BASE_URL w)
       (protocol req ++ "://" ++
        match host req with Some h => h | None => "undefined" end)).

(** [db.exec] of a SELECT whose WHERE clause is [col = '${x}'] followed by
    [tail]. *)
Definition exec_where (w : world) (x tail : string)
    : parse (option string -> bool) :=
  if read_fails w then Rejected
  else
    match read_where x tail with
    | Parsed wc => Parsed (holds wc)
    | Rejected => Rejected
    | Outside => Outside
    end.

(** [app.get('/t/:emailId.png', ...)] *)
Definition get_t_emailId_png (w : world) (d : db) (req : request)
    (emailId : string) : effect :=
  match insert_open declares_fk w d emailId
          (js_or (x_forwarded_for req) (ip req))
          (js_or (user_agent req) "Unknown") with
  | Ok d' => {| store := d'; reply := pixel_reply; console := [] |}
  | Throw =>
      {| store := d; reply := pixel_reply;
         console := ["Error logging open:"] |}
  end.

(** [app.get('/c/:linkId', ...)]; [None] when the spliced text leaves the
    modelled fragment. *)
Definition get_c_linkId (w : world) (d : db) (req : request)
    (linkId : string) : option effect :=
  match exec_where w linkId "" with
  | Outside => None
  | Rejected => Some (click_failed d)
  | Parsed cond =>
      match select_links cond d with
      | [] => Some (link_not_found d)
      | link :: _ =>
          match insert_click declares_fk w d linkId
                  (js_or (x_forwarded_for req) (ip req))
                  (js_or (user_agent req) "Unknown") with
          | Throw => Some (click_failed d)
          | Ok d' =>
              Some {| store := d';
                      reply := Redirect 302 (l_original_url link);
                      console := [] |}
          end
      end
  end.

Definition emails_tail : string :=
  nl ++ "      ORDER BY e.sent_at DESC" ++ nl ++ "      LIMIT 100" ++ nl ++ "    ".

(** [app.get('/api/emails', ...)] *)
Definition get_api_emails (w : world) (d : db) (userEmail : string)
    : option effect :=
  match exec_where w userEmail emails_tail with
  | Outside => None
  | Rejected => Some (emails_failed d)
  | Parsed cond =>
      match select_emails cond d with
      | [] =>
          Some {| store := d; reply := Reply 200 [] (EmailList []);
                  console := [] |}
      | rows =>
          Some {| store := d; reply := Reply 200 [] (EmailList rows);
                  console := [] |}
      end
  end.

Definition opens_tail : string :=
  " " ++ nl ++ "      ORDER BY opened_at DESC" ++ nl ++ "    ".

Definition links_tail : string := nl ++ "    ".

Definition clicks_tail : string :=
  nl ++ "      ORDER BY c.clicked_at DESC" ++ nl ++ "    ".

(** [app.get('/api/emails/:emailId', ...)]: four spliced statements. *)
Definition get_api_emails_emailId (w : world) (d : db) (emailId : string)
    : option effect :=
  match exec_where w emailId "" with
  | Outside => None
  | Rejected => Some (detail_failed d)
  | Parsed c_email =>
      match select_email c_email d with
      | [] => Some (email_not_found d)
      | email :: _ =>
          match exec_where w emailId opens_tail,
                exec_where w emailId links_tail,
                exec_where w emailId clicks_tail with
          | Parsed c_opens, Parsed c_links, Parsed c_clicks =>
              Some {| store := d;
                      reply := Reply 200 []
                        (EmailDetail
                           (detail_of email
                              (select_opens c_opens d)
                              (select_links_of c_links d)
                              (select_clicks c_clicks d)));
                      console := [] |}
          | Outside, _, _ => None
          | Rejected, _, _ => Some (detail_failed d)
          | Parsed _, Outside, _ => None
          | Parsed _, Rejected, _ => Some (detail_failed d)
          | Parsed _, Parsed _, Outside => None
          | Parsed _, Parsed _, Rejected => Some (detail_failed d)
          end
      end
  end.

End SqlJs.

(** ** Runs of several requests *)


(** ** Vocabulary of the statements *)

(** A value with no quote and no NUL byte: spliced between quotes it is read
    back as itself. *)
Fixpoint plain (x : string) : bool :=
  match x with
  | EmptyString => true
  | String c x' =>
      negb (Ascii.eqb c "'") && negb (Ascii.eqb c "000") && plain x'
  end.

(** [tail] does not begin with a quote. *)
Definition no_quote_ahead (tail : string) : Prop :=
  match tail with
  | String c _ => Ascii.eqb c "'" = false
  | EmptyString => True
  end.

(** The engine accepts the INSERT into opens: it does not raise, and the
    foreign key, where declared and enforced, finds the email. *)
Definition accepts_open (fk : bool) (w : world) (d : db) (emailId : string)
    : bool :=
  negb (write_fails w) &&
  negb (fk && foreign_keys w && negb (has_email d emailId)).



(** The effect leaves every table but opens as it was, and opens with at
    most one more row. *)
Definition touches_only_opens (d : db) (e : effect) : Prop :=
  emails (store e) = emails d /\
  links (store e) = links d /\
  clicks (store e) = clicks d /\
  (opens (store e) = opens d \/
   exists row, opens (store e) = (opens d ++ [row])%list).

(** The stats block counts no more unique addresses than events, and as
    many when the addresses of the listed events are pairwise distinct. *)
Definition unique_le_total (detail : email_detail) : Prop :=
  (uniqueOpens (d_stats detail) <= totalOpens (d_stats detail))%nat /\
  (uniqueClicks (d_stats detail) <= totalClicks (d_stats detail))%nat /\
  (NoDup (map ov_ip_address (d_opens detail)) ->
   uniqueOpens (d_stats detail) = totalOpens (d_stats detail)) /\
  (NoDup (map cv_ip_address (d_clicks detail)) ->
   uniqueClicks (d_stats detail) = totalClicks (d_stats detail)).

(** A listing with the newest [sentAt] first. *)
Definition newest_first (rows : list email_summary) : Prop :=
  StronglySorted (fun a b => ts_leb (s_sent_at b) (s_sent_at a) = true) rows.

(** [url] contains [id] verbatim. *)
Definition embeds (url id : string) : Prop :=
  exists pre post : string, url = pre ++ id ++ post.

(** The emails [userEmail] owns. *)
Definition owned (d : db) (userEmail : string) : list email_row :=
  List.filter (fun e => eq_param userEmail (e_user_email e)) (emails d).




(** ** Concrete databases and requests *)

Module Sample.

Definition t0 : timestamp := {| ts_day := 20000; ts_sec := 43200 |}.

Definition w0 : world :=
  {| now := t0;
     entropy := fun i => byte_of_N (N.of_nat (17 * i + 42));
     foreign_keys := true;
     read_fails := false;
     write_fails := false;
     BASE_URL := None;
     RENDER_EXTERNAL_URL := None |}.

(** The same world, except that the INSERT raises. *)
Definition w_write_fails : world :=
  {| now := t0;
     entropy := entropy w0;
     foreign_keys := true;
     read_fails := false;
     write_fails := true;
     BASE_URL := None;
     RENDER_EXTERNAL_URL := None |}.

Definition req0 : request :=
  {| x_forwarded_for := None;
     user_agent := Some "Mozilla/5.0";
     ip := "203.0.113.7";
     protocol := "https";
     host := Some "tracker.example";
     if_none_match := None;
     if_modified_since := None;
     cache_control := None |}.

Definition req1 : request :=
  {| x_forwarded_for := Some "198.51.100.9";
     user_agent := None;
     ip := "10.0.0.1";
     protocol := "https";
     host := Some "tracker.example";
     if_none_match := None;
     if_modified_since := None;
     cache_control := None |}.

Definition email1 : email_row :=
  {| e_id := "0011223344556677";
     e_subject := Some "Hello";
     e_recipient := Some "bob@example.com";
     e_sent_at := {| ts_day := 19999; ts_sec := 100 |};
     e_user_email := Some "alice@example.com" |}.

Definition link1 : link_row :=
  {| l_id := "a1b2c3d4e5f6";
     l_email_id := Some "0011223344556677";
     l_original_url := Some "https://example.com";
     l_created_at := {| ts_day := 19999; ts_sec := 200 |} |}.

(** One email of alice with one link; nothing opened or clicked yet. *)
Definition d1 : db :=
  {| emails := [email1]; opens := []; links := [link1]; clicks := [] |}.

Definition open_at (id : Z) (emailId : string) (day : Z) (addr : string)
    : open_row :=
  {| o_id := id;
     o_email_id := emailId;
     o_opened_at := {| ts_day := day; ts_sec := 0 |};
     o_ip_address := addr;
     o_user_agent := "Mozilla/5.0" |}.

Definition click_from (id : Z) (addr : string) : click_row :=
  {| c_id := id;
     c_link_id := "a1b2c3d4e5f6";
     c_clicked_at := {| ts_day := 20000; ts_sec := 50 |};
     c_ip_address := addr;
     c_user_agent := "Mozilla/5.0" |}.

(** Alice's email with four opens, two of them on the same day and two
    from the same address, and two clicks from two addresses. *)
Definition d2 : db :=
  {| emails := [email1];
     opens := [ open_at 1 "0011223344556677" 19990 "203.0.113.7";
                open_at 2 "0011223344556677" 19995 "203.0.113.7";
                open_at 3 "0011223344556677" 19995 "203.0.113.8";
                open_at 4 "0011223344556677" 20000 "203.0.113.9" ];
     links := [link1];
     clicks := [ click_from 1 "203.0.113.7"; click_from 2 "203.0.113.8" ] |}.

(** The quote that closes the spliced literal early. *)
Definition injection : string := "' OR '1'='1".

Definition numbered_email (i : nat) : email_row :=
  {| e_id := decimal i;
     e_subject := None;
     e_recipient := None;
     e_sent_at := {| ts_day := Z.of_nat i; ts_sec := 0 |};
     e_user_email := Some "alice@example.com" |}.

(** 101 emails of alice, sent on days 0 to 100; only the oldest was opened
    and only its link was clicked. *)
Definition d101 : db :=
  {| emails := map numbered_email (seq 0 101);
     opens := [ open_at 1 "0" 0 "203.0.113.7" ];
     links := [ {| l_id := "a1b2c3d4e5f6";
                   l_email_id := Some "0";
                   l_original_url := Some "https://example.com";
                   l_created_at := {| ts_day := 0; ts_sec := 1 |} |} ];
     clicks := [ click_from 1 "203.0.113.7" ] |}.

End Sample.

(** ** The rest of the sql.js server *)

Module SqlJsApi.

Import SqlText.

(** [app.post('/api/emails', ...)] *)
Definition post_api_emails (w : world) (d : db) (req : request)
    (subject recipient userEmail : option string) : effect :=
  let emailId := to_hex (randomBytes w 8) in
  match insert_email w d emailId subject recipient userEmail with
  | Ok d' =>
      {| store := d';
         reply := Reply 200 []
           (EmailCreated emailId
              (SqlJs.getBaseUrl w req ++ "/t/" ++ emailId ++ ".png"));
         console := [] |}
  | Throw =>
      {| store := d;
         reply := Reply 500 [] (ErrorJson "Failed to create email");
         console := ["Error creating email:"] |}
  end.

(** [app.post('/api/links', ...)] *)
Definition post_api_links (w : world) (d : db) (req : request)
    (emailId originalUrl : option string) : effect :=
  let linkId := to_hex (randomBytes w 6) in
  match insert_link SqlJs.declares_fk w d linkId emailId originalUrl with
  | Ok d' =>
      {| store := d';
         reply := Reply 200 []
           (LinkCreated linkId (SqlJs.getBaseUrl w req ++ "/c/" ++ linkId));
         console := [] |}
  | Throw =>
      {| store := d;
         reply := Reply 500 [] (ErrorJson "Failed to create link");
         console := ["Error creating link:"] |}
  end.

(** The body of the sql.js [/api/stats] reply: three counts, no
    opensByDay. *)
Record totals := {
  t_total_emails : nat;
  t_total_opens : nat;
  t_total_clicks : nat
}.

Inductive stats_answer : Type :=
  | Totals (t : totals)     (* res.json({ total_emails, total_opens, total_clicks }) *)
  | StatsFailed.            (* console.error, then status 500 with { error } *)

(** [COUNT( * )] always yields one row, so [result.length ? ... : 0] takes
    the count. *)
Definition count_emails (cond : option string -> bool) (d : db) : nat :=
  List.length (List.filter (fun e => cond (e_user_email e)) (emails d)).

(** [SELECT COUNT( * ) FROM opens o JOIN emails e ON o.email_id = e.id
     WHERE e.user_email ...] *)
Definition count_opens (cond : option string -> bool) (d : db) : nat :=
  List.length
    (List.filter (fun oe => cond (e_user_email (snd oe)))
       (join (opens d) (emails d)
             (fun o e => String.eqb (o_email_id o) (e_id e)))).

(** [SELECT COUNT( * ) FROM clicks c JOIN links l ON c.link_id = l.id
     JOIN emails e ON l.email_id = e.id WHERE e.user_email ...] *)
Definition count_clicks (cond : option string -> bool) (d : db) : nat :=
  List.length
    (List.filter (fun cle => cond (e_user_email (snd cle)))
       (join (clicks_links d) (emails d)
             (fun cl e => eq_param (e_id e) (l_email_id (snd cl))))).

Definition counts_tail : string := nl ++ "    ".

(** [app.get('/api/stats', ...)]: three spliced statements; the database
    is only read.  [None] when a spliced text leaves the modelled
    fragment. *)
Definition get_api_stats (w : world) (d : db) (userEmail : string)
    : option stats_answer :=
  match SqlJs.exec_where w userEmail "" with
  | Outside => None
  | Rejected => Some StatsFailed
  | Parsed c_emails =>
      match SqlJs.exec_where w userEmail counts_tail with
      | Outside => None
      | Rejected => Some StatsFailed
      | Parsed c_opens =>
          match SqlJs.exec_where w userEmail counts_tail with
          | Outside => None
          | Rejected => Some StatsFailed
          | Parsed c_clicks =>
              Some (Totals {| t_total_emails := count_emails c_emails d;
                              t_total_opens := count_opens c_opens d;
                              t_total_clicks := count_clicks c_clicks d |})
          end
      end
  end.

End SqlJsApi.

(** ** The routes as one server *)

(** A request that reached one of the routes that touch the database,
    with the values the handler takes from it; both files register the
    same seven. *)
Inductive call : Type :=
  | GET_t (emailId : string)
  | GET_c (linkId : string)
  | POST_api_emails (subject recipient userEmail : option string)
  | POST_api_links (emailId originalUrl : option string)
  | GET_api_emails (userEmail : string)
  | GET_api_emails_id (emailId : string)
  | GET_api_stats (userEmail : string).

Module IndexJsApp.

Definition serve (w : world) (d : db) (req : request) (c : call) : effect :=
  match c with
  | GET_t emailId => IndexJs.get_t_emailId_png w d req emailId
  | GET_c linkId => IndexJs.get_c_linkId w d req linkId
  | POST_api_emails subject recipient userEmail =>
      IndexJs.post_api_emails w d req subject recipient userEmail
  | POST_api_links emailId originalUrl =>
      IndexJs.post_api_links w d req emailId originalUrl
  | GET_api_emails userEmail => IndexJs.get_api_emails w d userEmail
  | GET_api_emails_id emailId => IndexJs.get_api_emails_emailId w d emailId
  | GET_api_stats userEmail => IndexJs.get_api_stats w d userEmail
  end.

(** The requests of a run, served one after the other. *)
Fixpoint run (calls : list (world * request * call)) (d : db) : db :=
  match calls with
  | [] => d
  | (w, req, c) :: rest => run rest (store (serve w d req c))
  end.

End IndexJsApp.

Module SqlJsApp.

(** The database a request leaves behind; [None] when a spliced text
    leaves the modelled fragment. *)
Definition step (w : world) (d : db) (req : request) (c : call) : option db :=
  match c with
  | GET_t emailId => Some (store (SqlJs.get_t_emailId_png w d req emailId))
  | GET_c linkId => option_map store (SqlJs.get_c_linkId w d req linkId)
  | POST_api_emails subject recipient userEmail =>
      Some (store (SqlJsApi.post_api_emails w d req subject recipient userEmail))
  | POST_api_links emailId originalUrl =>
      Some (store (SqlJsApi.post_api_links w d req emailId originalUrl))
  | GET_api_emails userEmail =>
      option_map store (SqlJs.get_api_emails w d userEmail)
  | GET_api_emails_id emailId =>
      option_map store (SqlJs.get_api_emails_emailId w d emailId)
  | GET_api_stats userEmail =>
      option_map (fun _ => d) (SqlJsApi.get_api_stats w d userEmail)
  end.

Fixpoint run (calls : list (world * request * call)) (d : db) : option db :=
  match calls with
  | [] => Some d
  | (w, req, c) :: rest =>
      match step w d req c with
      | Some d' => run rest d'
      | None => None
      end
  end.

End SqlJsApp.

(** ** More vocabulary *)

(** The status of a response. *)
Definition status_of (r : response) : Z :=
  match r with
  | Reply status _ _ => status
  | Redirect status _ => status
  end.

(** Primary keys and rowids are pairwise distinct. *)
Definition keys_unique (d : db) : Prop :=
  NoDup (map e_id (emails d)) /\
  NoDup (map l_id (links d)) /\
  NoDup (map o_id (opens d)) /\
  NoDup (map c_id (clicks d)).

(** Every reference finds its row: opens and links name stored emails
    (or NULL), clicks name stored links. *)
Definition references_hold (d : db) : Prop :=
  Forall (fun o => has_email d (o_email_id o) = true) (opens d) /\
  Forall (fun l => match l_email_id l with
                   | Some e => has_email d e = true
                   | None => True
                   end) (links d) /\
  Forall (fun c => has_link d (c_link_id c) = true) (clicks d).

(** Every table of [d] is the beginning of the same table of [d']. *)
Definition grows (d d' : db) : Prop :=
  emails d `prefix_of` emails d' /\
  opens d `prefix_of` opens d' /\
  links d `prefix_of` links d' /\
  clicks d `prefix_of` clicks d'.

Definition rows (d : db) : nat :=
  (List.length (emails d) + List.length (opens d) +
   List.length (links d) + List.length (clicks d))%nat.

Definition is_hex_digit (c : ascii) : bool :=
  let n := N_of_ascii c in
  (((48 <=? n) && (n <=? 57)) || ((97 <=? n) && (n <=? 102)))%N.

(** Lowercase hexadecimal text. *)
Fixpoint hex_string (s : string) : bool :=
  match s with
  | EmptyString => true
  | String c s' => is_hex_digit c && hex_string s'
  end.

(** The value of a hexadecimal digit. *)
Definition hex_value (c : ascii) : N :=
  let n := N_of_ascii c in
  if (n <? 58)%N then (n - 48)%N else (n - 87)%N.

(** The bytes a hexadecimal text stands for, two digits each. *)
Fixpoint from_hex (s : string) : list Byte.byte :=
  match s with
  | String a (String b s') =>
      byte_of_N (16 * hex_value a + hex_value b) :: from_hex s'
  | _ => []
  end.

(** What one request may do to the database: nothing, or one row appended
    to one table, under the constraints of that table.  [fk] tells whether
    the schema declares the foreign keys. *)
Inductive delta (fk : bool) (w : world) (d : db) : db -> Prop :=
  | Same : delta fk w d d
  | NewOpen (row : open_row) :
      o_id row = next_rowid (map o_id (opens d)) ->
      (fk && foreign_keys w = true -> has_email d (o_email_id row) = true) ->
      delta fk w d
        {| emails := emails d; opens := opens d ++ [row];
           links := links d; clicks := clicks d |}
  | NewClick (row : click_row) :
      c_id row = next_rowid (map c_id (clicks d)) ->
      (fk && foreign_keys w = true -> has_link d (c_link_id row) = true) ->
      delta fk w d
        {| emails := emails d; opens := opens d;
           links := links d; clicks := clicks d ++ [row] |}
  | NewEmail (row : email_row) :
      has_email d (e_id row) = false ->
      delta fk w d
        {| emails := emails d ++ [row]; opens := opens d;
           links := links d; clicks := clicks d |}
  | NewLink (row : link_row) :
      has_link d (l_id row) = false ->
      (fk && foreign_keys w = true ->
       match l_email_id row with
       | Some e => has_email d e = true
       | None => True
       end) ->
      delta fk w d
        {| emails := emails d; opens := opens d;
           links := links d ++ [row]; clicks := clicks d |}.

(** [e] appended one open to [d], and the row says where and when the
    request for [emailId] came from. *)
Definition records_open (w : world) (d : db) (req : request)
    (emailId : string) (e : effect) : Prop :=
  exists row : open_row,
    opens (store e) = (opens d ++ [row])%list /\
    o_email_id row = emailId /\
    o_opened_at row = now w /\
    0 < o_id row /\
    List.Forall (fun o => o_id o < o_id row) (opens d) /\
    (forall f, x_forwarded_for req = Some f -> f <> "" -> o_ip_address row = f) /\
    (x_forwarded_for req = None \/ x_forwarded_for req = Some "" ->
     o_ip_address row = ip req) /\
    (forall a, user_agent req = Some a -> a <> "" -> o_user_agent row = a) /\
    (user_agent req = None \/ user_agent req = Some "" ->
     o_user_agent row = "Unknown").

(** ** What Express sends

    A handler's [res.send(body)] or [res.json(obj)] is not yet the response
    on the wire.  [res.send] fills in Content-Type and Content-Length, adds
    the entity tag of the body, and asks [req.fresh]: a GET whose status is
    2xx and whose validators match is answered 304, without Content-Type,
    Content-Length and body.  Neither server file touches the [etag]
    setting, so both run this as Express ships it; the freshness test is
    the one of the [fresh] package.  [res.redirect] does not go through
    [res.send].  Headers that Node and the middleware add on their own
    (Date, Connection, X-Powered-By, Access-Control-Allow-Origin) are not
    part of a [response]. *)

Module Express.

Inductive method := GET | POST.

(** What comes with the installed Express rather than with the server
    files. *)
Record app := {
  etag_fn : payload -> string;     (* the [etag fn] setting, applied to the serialized body *)
  byte_length : payload -> nat;    (* Buffer.byteLength of a serialized JSON body *)
  none_match_first : bool          (* fresh 1.x and later: If-None-Match decides alone *)
}.

(** A header that is present and not the empty string. *)
Definition given (h : option string) : bool :=
  match h with
  | Some s => negb (String.eqb s "")
  | None => false
  end.

(** [\s] of a JavaScript regular expression, on a header's characters. *)
Definition is_js_space (c : ascii) : bool :=
  let n := N_of_ascii c in
  ((n =? 32) || ((9 <=? n) && (n <=? 13)) || (n =? 160))%N.

Definition is_sp (c : ascii) : bool := Ascii.eqb c " ".

Fixpoint trim_left (blank : ascii -> bool) (s : string) : string :=
  match s with
  | EmptyString => ""
  | String c s' => if blank c then trim_left blank s' else s
  end.

Fixpoint trim_right (blank : ascii -> bool) (s : string) : string :=
  match s with
  | EmptyString => ""
  | String c s' =>
      let t := trim_right blank s' in
      if blank c && String.eqb t "" then "" else String c t
  end.

Definition trim (blank : ascii -> bool) (s : string) : string :=
  trim_right blank (trim_left blank s).

Fixpoint split_commas (s : string) (cur : string) : list string :=
  match s with
  | EmptyString => [cur]
  | String c s' =>
      if Ascii.eqb c "," then cur :: split_commas s' ""
      else split_commas s' (cur ++ String c "")
  end.

(** [/(?:^|,)\s*?no-cache\s*?(?:,|$)/.test(cacheControl)] *)
Definition no_cache (cacheControl : string) : bool :=
  existsb (fun part => String.eqb (trim is_js_space part) "no-cache")
    (split_commas cacheControl "").

(** [parseTokenList]: the comma-separated tokens, spaces around each
    dropped. *)
Definition parseTokenList (s : string) : list string :=
  map (trim is_sp) (split_commas s "").

(** [match === etag || match === 'W/' + etag || 'W/' + match === etag] *)
Definition etag_matches (etag token : string) : bool :=
  String.eqb token etag || String.eqb token ("W/" ++ etag) ||
  String.eqb ("W/" ++ token) etag.

(** The If-None-Match header [noneMatch] accepts the response's [etag]. *)
Definition none_match_accepts (noneMatch : string) (etag : option string)
    : bool :=
  String.eqb noneMatch "*" ||
  match etag with
  | Some t => negb (String.eqb t "") && existsb (etag_matches t) (parseTokenList noneMatch)
  | None => false
  end.

(** [fresh(req.headers, { etag, 'last-modified': undefined })]: no route
    sets Last-Modified, so If-Modified-Since on its own never makes a
    request fresh.  Up to fresh 0.5.2 a request carrying both validators
    has to pass both; from 1.0 on If-None-Match decides alone. *)
Definition fresh (a : app) (req : request) (etag : option string) : bool :=
  if negb (given (if_modified_since req)) && negb (given (if_none_match req))
  then false
  else if match cache_control req with
          | Some cc => no_cache cc
          | None => false
          end
  then false
  else
    match if_none_match req with
    | Some noneMatch =>
        if String.eqb noneMatch "" then false
        else
          none_match_accepts noneMatch etag &&
          (none_match_first a || negb (given (if_modified_since req)))
    | None => false
    end.

(** [req.fresh]: GET only, and only for a 2xx or 304 response. *)
Definition req_fresh (a : app) (m : method) (status : Z) (req : request)
    (etag : option string) : bool :=
  match m with
  | GET =>
      (((200 <=? status) && (status <? 300)) || (status =? 304)) &&
      fresh a req etag
  | POST => false
  end.

Definition find_header (name : string) (hs : list (string * string))
    : option string :=
  option_map snd (find (fun h => String.eqb (fst h) name) hs).

Definition has_header (name : string) (hs : list (string * string)) : bool :=
  existsb (fun h => String.eqb (fst h) name) hs.

(** [res.set(name, value)]: a header already set keeps its place. *)
Fixpoint set_header (name value : string) (hs : list (string * string))
    : list (string * string) :=
  match hs with
  | [] => [(name, value)]
  | h :: rest =>
      if String.eqb (fst h) name then (name, value) :: rest
      else h :: set_header name value rest
  end.

Definition remove_header (name : string) (hs : list (string * string))
    : list (string * string) :=
  List.filter (fun h => negb (String.eqb (fst h) name)) hs.

(** The Content-Type [res.send] and [res.json] choose when the handler set
    none. *)
Definition content_type (body : payload) : string :=
  match body with
  | Text _ => "text/html; charset=utf-8"
  | Buffer _ => "application/octet-stream"
  | _ => "application/json; charset=utf-8"
  end.

Definition body_length (a : app) (body : payload) : nat :=
  match body with
  | Text s => String.length s
  | Buffer bytes => List.length bytes
  | _ => byte_length a body
  end.

Definition is_buffer (body : payload) : bool :=
  match body with
  | Buffer _ => true
  | _ => false
  end.

(** The headers a 204 or 304 goes out without. *)
Definition strip (hs : list (string * string)) : list (string * string) :=
  remove_header "Transfer-Encoding"
    (remove_header "Content-Length" (remove_header "Content-Type" hs)).

(** [res.send(body)] after [res.status(status)] and [res.set(hs)].  A text
    or JSON body on which the handler has set a Content-Type would have
    its charset parameter rewritten, and what a 205 goes out with depends
    on the Express release; no route does either, and the model answers
    [None] there. *)
Definition res_send (a : app) (m : method) (req : request) (status : Z)
    (hs : list (string * string)) (body : payload) : option response :=
  if (negb (is_buffer body) && has_header "Content-Type" hs) || (status =? 205)
  then None
  else
    let hs1 :=
      if has_header "Content-Type" hs then hs
      else set_header "Content-Type" (content_type body) hs in
    let hs2 := set_header "Content-Length" (decimal (body_length a body)) hs1 in
    let hs3 :=
      if has_header "ETag" hs2 || String.eqb (etag_fn a body) "" then hs2
      else set_header "ETag" (etag_fn a body) hs2 in
    if req_fresh a m status req (find_header "ETag" hs3)
    then Some (Reply 304 (strip hs3) (Text ""))
    else if (status =? 204) || (status =? 304)
    then Some (Reply status (strip hs3) (Text ""))
    else Some (Reply status hs3 body).

(** What goes out for the call a handler made on [res]. *)
Definition send (a : app) (m : method) (req : request) (r : response)
    : option response :=
  match r with
  | Reply status hs body => res_send a m req status hs body
  | Redirect status location => Some (Redirect status location)
  end.

End Express.

(** The method each route is registered for. *)
Definition method_of (c : call) : Express.method :=
  match c with
  | POST_api_emails _ _ _ | POST_api_links _ _ => Express.POST
  | _ => Express.GET
  end.

(** The ETag header [res.send] adds to [body]: the tag, unless it is
    empty. *)
Definition entity_tag (a : Express.app) (body : payload) : option string :=
  if String.eqb (Express.etag_fn a body) "" then None
  else Some (Express.etag_fn a body).

(** The two server files. *)
Inductive server := index_js | sql_js.

Definition pixel_handler (s : server)
    : world -> db -> request -> string -> effect :=
  match s with
  | index_js => IndexJs.get_t_emailId_png
  | sql_js => SqlJs.get_t_emailId_png
  end.


(** The body of a response; a redirect carries none of ours. *)
Definition body_of (r : response) : option payload :=
  match r with
  | Reply _ _ body => Some body
  | Redirect _ _ => None
  end.

(** The call a handler of [src/index.js] makes on [res]: the pixel, a
    redirect, or a status and a body with no header of its own. *)
Inductive handler_reply (r : response) : Prop :=
  | PixelReply : r = pixel_reply -> handler_reply r
  | RedirectReply (location : option string) :
      r = Redirect 302 location -> handler_reply r
  | BareReply (status : Z) (body : payload) :
      r = Reply status [] body ->
      status = 200 \/ status = 404 \/ status = 500 ->
      handler_reply r.

(** ** Reading a PNG

    The decoder a client applies to the pixel: signature, chunks with their
    CRC, the IHDR fields, the zlib stream of the IDAT chunks and the scanline
    filters.  It covers non-interlaced 8-bit RGBA images whose deflate
    blocks use the fixed Huffman code with literals only, and answers
    [None] on anything else. *)

Module Png.

























End Png.

(** ** Values that stay inside their quotes *)

(** The values the sql.js server splices into SQL text hold no quote and
    no NUL. *)
Definition plain_call (c : call) : bool :=
  match c with
  | GET_c linkId => plain linkId
  | GET_api_emails userEmail => plain userEmail
  | GET_api_emails_id emailId => plain emailId
  | GET_api_stats userEmail => plain userEmail
  | GET_t _ | POST_api_emails _ _ _ | POST_api_links _ _ => true
  end.

(** ** More requests *)

Module Conditional.

(** A browser revalidating whatever it holds. *)
Definition any_match : request :=
  {| x_forwarded_for := None;
     user_agent := Some "Mozilla/5.0";
     ip := "203.0.113.7";
     protocol := "https";
     host := Some "tracker.example";
     if_none_match := Some "*";
     if_modified_since := None;
     cache_control := None |}.

(** The weak tag of the pixel's 70 bytes. *)
Definition pixel_tag : string :=
  "W/" ++ String "034" ("46-Sl63FxtY4IpogXIeO0PVpEQZor4" ++ String "034" "").

(** A browser revalidating the pixel it has cached. *)
Definition same_tag : request :=
  {| x_forwarded_for := None;
     user_agent := Some "Mozilla/5.0";
     ip := "203.0.113.7";
     protocol := "https";
     host := Some "tracker.example";
     if_none_match := Some pixel_tag;
     if_modified_since := None;
     cache_control := None |}.

(** An installed Express for the samples, which send the pixel, texts and
    error objects through it: every body gets the pixel's tag, and an
    error object is as long as its one-field JSON text. *)
Definition express : Express.app :=
  {| Express.etag_fn := fun _ => pixel_tag;
     Express.byte_length :=
       fun body =>
         match body with
         | ErrorJson error => (12 + String.length error)%nat
         | _ => 2%nat
         end;
     Express.none_match_first := false |}.

End Conditional.

(** * Proofs *)

(** ** The pixel *)

Lemma TRACKING_PIXEL_png_header :
  firstn 26 TRACKING_PIXEL =
  [ Byte.x89; Byte.x50; Byte.x4e; Byte.x47; Byte.x0d; Byte.x0a; Byte.x1a; Byte.x0a;
    Byte.x00; Byte.x00; Byte.x00; Byte.x0d; Byte.x49; Byte.x48; Byte.x44; Byte.x52;
    Byte.x00; Byte.x00; Byte.x00; Byte.x01; Byte.x00; Byte.x00; Byte.x00; Byte.x01;
    Byte.x08; Byte.x06 ]%list.
Proof. vm_compute. reflexivity. Qed.


Lemma insert_open_tables fk w d emailId a u d' :
  insert_open fk w d emailId a u = Ok d' ->
  emails d' = emails d /\ links d' = links d /\ clicks d' = clicks d /\
  exists row, opens d' = (opens d ++ [row])%list /\ o_email_id row = emailId.
Proof.
  unfold insert_open. intros H.
  destruct (write_fails w); [discriminate|].
  destruct (fk && foreign_keys w && negb (has_email d emailId)); [discriminate|].
  inversion H; subst; simpl. repeat split; eauto.
Qed.

Lemma insert_open_accepts fk w d emailId a u :
  accepts_open fk w d emailId = true ->
  exists d', insert_open fk w d emailId a u = Ok d'.
Proof.
  unfold accepts_open, insert_open. intros H.
  apply andb_true_iff in H as [H1 H2].
  apply negb_true_iff in H1, H2. rewrite H1, H2. eauto.
Qed.

Lemma insert_open_refuses fk w d emailId a u :
  accepts_open fk w d emailId = false ->
  insert_open fk w d emailId a u = Throw.
Proof.
  unfold accepts_open, insert_open. intros H.
  destruct (write_fails w); [reflexivity|].
  destruct (fk && foreign_keys w && negb (has_email d emailId)); [reflexivity|].
  discriminate.
Qed.

Lemma IndexJs_pixel_reply w d req emailId :
  reply (IndexJs.get_t_emailId_png w d req emailId) = pixel_reply.
Proof. unfold IndexJs.get_t_emailId_png. destruct insert_open; reflexivity. Qed.

Lemma SqlJs_pixel_reply w d req emailId :
  reply (SqlJs.get_t_emailId_png w d req emailId) = pixel_reply.
Proof. unfold SqlJs.get_t_emailId_png. destruct insert_open; reflexivity. Qed.

(** ** The pixel on the wire *)

Lemma TRACKING_PIXEL_length : List.length TRACKING_PIXEL = 70%nat.
Proof. vm_compute. reflexivity. Qed.


Lemma fresh_unconditional (a : Express.app) (req : request) (etag : option string) :
  Express.given (if_none_match req) = false ->
  Express.given (if_modified_since req) = false ->
  Express.fresh a req etag = false.
Proof. intros H1 H2. unfold Express.fresh. rewrite H1, H2. reflexivity. Qed.

Lemma fresh_same_validators (a : Express.app) (req1 req2 : request)
    (etag : option string) :
  if_none_match req1 = if_none_match req2 ->
  if_modified_since req1 = if_modified_since req2 ->
  cache_control req1 = cache_control req2 ->
  Express.fresh a req1 etag = Express.fresh a req2 etag.
Proof. intros H1 H2 H3. unfold Express.fresh. rewrite H1, H2, H3. reflexivity. Qed.

Lemma pixel_handler_reply (s : server) w d req emailId :
  reply (pixel_handler s w d req emailId) = pixel_reply.
Proof. destruct s; [apply IndexJs_pixel_reply|apply SqlJs_pixel_reply]. Qed.

(** What [res.send] makes of the pixel handler's call. *)
Lemma send_image (a : Express.app) (req : request) (bytes : list Byte.byte) :
  List.length bytes = 70%nat ->
  let tag := match entity_tag a (Buffer bytes) with
             | Some t => [("ETag", t)]
             | None => []
             end in
  Express.send a Express.GET req
    (Reply 200
       [ ("Content-Type", "image/png");
         ("Content-Length", "70");
         ("Cache-Control", "no-store, no-cache, must-revalidate, private");
         ("Pragma", "no-cache");
         ("Expires", "0") ] (Buffer bytes)) =
  Some (if Express.fresh a req (entity_tag a (Buffer bytes))
        then Reply 304
               ([ ("Cache-Control", "no-store, no-cache, must-revalidate, private");
                  ("Pragma", "no-cache");
                  ("Expires", "0") ] ++ tag) (Text "")
        else Reply 200
               ([ ("Content-Type", "image/png");
                  ("Content-Length", "70");
                  ("Cache-Control", "no-store, no-cache, must-revalidate, private");
                  ("Pragma", "no-cache");
                  ("Expires", "0") ] ++ tag) (Buffer bytes)).
Proof.
  intros Hlen tag. subst tag.
  unfold Express.send, Express.res_send, entity_tag.
  cbn [Express.is_buffer negb andb orb Express.body_length].
  rewrite Hlen. change (decimal 70) with "70".
  simpl.
  destruct (String.eqb (Express.etag_fn a (Buffer bytes)) ""); simpl;
    destruct (Express.fresh a req _); reflexivity.
Qed.




(** ** Repeated pixel fetches *)

Section PixelRuns.

Variable fk : bool.
Variable handler : world -> db -> request -> string -> effect.
Hypothesis handler_eq :
  forall w d req emailId,
    handler w d req emailId =
    match insert_open fk w d emailId
            (js_or (x_forwarded_for req) (ip req))
            (js_or (user_agent req) "Unknown") with
    | Ok d' => {| store := d'; reply := pixel_reply; console := [] |}
    | Throw =>
        {| store := d; reply := pixel_reply;
           console := ["Error logging open:"] |}
    end.

Lemma handler_step w d req emailId :
  reply (handler w d req emailId) = pixel_reply /\
  emails (store (handler w d req emailId)) = emails d /\
  links (store (handler w d req emailId)) = links d /\
  clicks (store (handler w d req emailId)) = clicks d /\
  (if accepts_open fk w d emailId
   then exists row, opens (store (handler w d req emailId)) = (opens d ++ [row])%list
                    /\ o_email_id row = emailId
   else store (handler w d req emailId) = d).
Proof.
  rewrite handler_eq.
  destruct (accepts_open fk w d emailId) eqn:Hacc.
  - destruct (insert_open_accepts fk w d emailId
                (js_or (x_forwarded_for req) (ip req))
                (js_or (user_agent req) "Unknown") Hacc) as [d' Hd'].
    rewrite Hd'. simpl.
    apply insert_open_tables in Hd' as (He & Hl & Hc & row & Ho & Hid).
    repeat split; eauto.
  - rewrite (insert_open_refuses _ _ _ _ _ _ Hacc). simpl. auto.
Qed.



End PixelRuns.





Lemma pixel_touches_only_opens (fk : bool)
    (handler : world -> db -> request -> string -> effect) :
  (forall w d req emailId,
     handler w d req emailId =
     match insert_open fk w d emailId
             (js_or (x_forwarded_for req) (ip req))
             (js_or (user_agent req) "Unknown") with
     | Ok d' => {| store := d'; reply := pixel_reply; console := [] |}
     | Throw =>
         {| store := d; reply := pixel_reply;
            console := ["Error logging open:"] |}
     end) ->
  forall w d req emailId, touches_only_opens d (handler w d req emailId).
Proof.
  intros Heq w d req emailId.
  destruct (handler_step fk handler Heq w d req emailId)
    as (_ & He & Hl & Hc & Ho).
  unfold touches_only_opens. repeat split; auto.
  destruct accepts_open.
  - destruct Ho as (row & Ho & _). right. eauto.
  - left. now rewrite Ho.
Qed.

Lemma send_pixel_reply (a : Express.app) (req : request) :
  let tag := match entity_tag a (Buffer TRACKING_PIXEL) with
             | Some t => [("ETag", t)]
             | None => []
             end in
  Express.send a Express.GET req pixel_reply =
  Some (if Express.fresh a req (entity_tag a (Buffer TRACKING_PIXEL))
        then Reply 304
               ([ ("Cache-Control", "no-store, no-cache, must-revalidate, private");
                  ("Pragma", "no-cache");
                  ("Expires", "0") ] ++ tag) (Text "")
        else Reply 200
               ([ ("Content-Type", "image/png");
                  ("Content-Length", "70");
                  ("Cache-Control", "no-store, no-cache, must-revalidate, private");
                  ("Pragma", "no-cache");
                  ("Expires", "0") ] ++ tag) (Buffer TRACKING_PIXEL)).
Proof.
  unfold pixel_reply, pixel_headers. rewrite TRACKING_PIXEL_length.
  change (decimal 70) with "70". apply send_image. exact TRACKING_PIXEL_length.
Qed.

(** C10 (amended): what a pixel fetch is answered with does not depend on
    the server file, the emailId, the world, the database, or any request
    header other than the validators Express reads (If-None-Match,
    If-Modified-Since, Cache-Control): the responses of two runs are the
    same exactly when Express judges both requests fresh or both stale.
    Two requests with the same validators, and any two requests without
    If-None-Match and If-Modified-Since, get the same response, the latter
    status 200 with the pixel's bytes.  A run changes nothing in the
    database except, at most, one row appended to opens. *)
Theorem pixel_reply_independent_of_inputs :
  forall (a : Express.app) (s1 s2 : server) (w1 w2 : world) (d1 d2 : db)
         (req1 req2 : request) (emailId1 emailId2 : string),
    let e1 := pixel_handler s1 w1 d1 req1 emailId1 in
    let e2 := pixel_handler s2 w2 d2 req2 emailId2 in
    let tag := entity_tag a (Buffer TRACKING_PIXEL) in
    exists sent1 sent2 : response,
      Express.send a Express.GET req1 (reply e1) = Some sent1 /\
      Express.send a Express.GET req2 (reply e2) = Some sent2 /\
      (sent1 = sent2 <-> Express.fresh a req1 tag = Express.fresh a req2 tag) /\
      (if_none_match req1 = if_none_match req2 ->
       if_modified_since req1 = if_modified_since req2 ->
       cache_control req1 = cache_control req2 ->
       sent1 = sent2) /\
      (Express.given (if_none_match req1) = false ->
       Express.given (if_modified_since req1) = false ->
       Express.given (if_none_match req2) = false ->
       Express.given (if_modified_since req2) = false ->
       sent1 = sent2 /\
       status_of sent1 = 200 /\
       body_of sent1 = Some (Buffer TRACKING_PIXEL)) /\
      touches_only_opens d1 e1.
Proof.
  intros a s1 s2 w1 w2 d1 d2 req1 req2 emailId1 emailId2 e1 e2 tag.
  subst e1 e2. rewrite !pixel_handler_reply.
  pose proof (send_pixel_reply a req1) as H1.
  pose proof (send_pixel_reply a req2) as H2.
  cbv zeta in H1, H2. fold tag in H1, H2.
  eexists. eexists. split; [exact H1|]. split; [exact H2|].
  assert (Hiff :
    forall b1 b2 : bool,
      (if b1 then
         Reply 304
           ([ ("Cache-Control", "no-store, no-cache, must-revalidate, private");
              ("Pragma", "no-cache"); ("Expires", "0") ] ++
            match tag with Some t => [("ETag", t)] | None => [] end) (Text "")
       else
         Reply 200
           ([ ("Content-Type", "image/png"); ("Content-Length", "70");
              ("Cache-Control", "no-store, no-cache, must-revalidate, private");
              ("Pragma", "no-cache"); ("Expires", "0") ] ++
            match tag with Some t => [("ETag", t)] | None => [] end)
           (Buffer TRACKING_PIXEL)) =
      (if b2 then
         Reply 304
           ([ ("Cache-Control", "no-store, no-cache, must-revalidate, private");
              ("Pragma", "no-cache"); ("Expires", "0") ] ++
            match tag with Some t => [("ETag", t)] | None => [] end) (Text "")
       else
         Reply 200
           ([ ("Content-Type", "image/png"); ("Content-Length", "70");
              ("Cache-Control", "no-store, no-cache, must-revalidate, private");
              ("Pragma", "no-cache"); ("Expires", "0") ] ++
            match tag with Some t => [("ETag", t)] | None => [] end)
           (Buffer TRACKING_PIXEL)) <-> b1 = b2).
  { intros [|] [|]; split; intros H; try reflexivity; discriminate H. }
  split; [apply Hiff|].
  split.
  { intros Hn Hm Hc. apply Hiff. apply fresh_same_validators; assumption. }
  split.
  { intros Hn1 Hm1 Hn2 Hm2.
    rewrite (fresh_unconditional a req1 tag Hn1 Hm1).
    rewrite (fresh_unconditional a req2 tag Hn2 Hm2).
    split; [reflexivity|]. split; reflexivity. }
  destruct s1; cbn [pixel_handler].
  - apply (pixel_touches_only_opens IndexJs.declares_fk). reflexivity.
  - apply (pixel_touches_only_opens SqlJs.declares_fk). reflexivity.
Qed.

(** Two plain requests, from two addresses, for two emailIds, against two
    databases and on the two servers. *)
Lemma pixel_reply_independent_of_inputs_witness :
  Express.send Conditional.express Express.GET Sample.req0
    (reply (IndexJs.get_t_emailId_png Sample.w0 Sample.d1 Sample.req0
              "0011223344556677")) =
  Express.send Conditional.express Express.GET Sample.req1
    (reply (SqlJs.get_t_emailId_png Sample.w_write_fails Sample.d2 Sample.req1
              "ffffffffffffffff")).
Proof.
  destruct (pixel_reply_independent_of_inputs Conditional.express
              index_js sql_js Sample.w0 Sample.w_write_fails Sample.d1 Sample.d2
              Sample.req0 Sample.req1 "0011223344556677" "ffffffffffffffff")
    as (sent1 & sent2 & H1 & H2 & _ & Hsame & _).
  cbn [pixel_handler] in H1, H2. rewrite H1, H2. f_equal.
  apply Hsame; reflexivity.
Defined.

(** C10 fails on the code as it is worded: the same fetch, once plain and
    once with the If-None-Match header a browser sends for the pixel it
    has cached, gets two different responses. *)
Lemma revalidation_changes_pixel_reply :
  exists sent1 sent2 : response,
    Express.send Conditional.express Express.GET Sample.req0
      (reply (IndexJs.get_t_emailId_png Sample.w0 Sample.d1 Sample.req0
                "0011223344556677")) = Some sent1 /\
    Express.send Conditional.express Express.GET Conditional.same_tag
      (reply (IndexJs.get_t_emailId_png Sample.w0 Sample.d1
                Conditional.same_tag "0011223344556677")) = Some sent2 /\
    status_of sent1 = 200 /\
    body_of sent1 = Some (Buffer TRACKING_PIXEL) /\
    header "Content-Type" sent1 = Some "image/png" /\
    status_of sent2 = 304 /\
    body_of sent2 = Some (Text "") /\
    header "Content-Type" sent2 = None /\
    sent1 <> sent2.
Proof.
  eexists. eexists.
  split; [vm_compute; reflexivity|].
  split; [vm_compute; reflexivity|].
  repeat (split; [reflexivity|]).
  discriminate.
Qed.

(** ** Spliced values that stay inside their quotes *)

Lemma append_cons (c : ascii) (a b : string) :
  (String c a ++ b = String c (a ++ b))%string.
Proof. reflexivity. Qed.

Lemma append_nil_l (a : string) : ("" ++ a = a)%string.
Proof. reflexivity. Qed.

Lemma append_assoc (a b c : string) : ((a ++ b) ++ c = a ++ (b ++ c))%string.
Proof.
  induction a as [|x a IH]; [reflexivity|].
  rewrite !append_cons. now rewrite IH.
Qed.

Lemma append_nil_r (a : string) : (a ++ "" = a)%string.
Proof.
  induction a as [|x a IH]; [reflexivity|].
  rewrite append_cons. now rewrite IH.
Qed.

Lemma until_nul_plain (x rest : string) :
  plain x = true ->
  SqlText.until_nul (x ++ rest) = (x ++ SqlText.until_nul rest)%string.
Proof.
  induction x as [|c x IH]; [reflexivity|].
  intros H. simpl in H. apply andb_true_iff in H as [H Hx].
  apply andb_true_iff in H as [_ Hn]. apply negb_true_iff in Hn.
  rewrite !append_cons. simpl. rewrite Hn, IH by assumption. reflexivity.
Qed.

Lemma string_literal_plain (x tail : string) :
  plain x = true -> no_quote_ahead tail ->
  forall acc,
    SqlText.string_literal (x ++ "'" ++ tail) acc = Some ((acc ++ x)%string, tail).
Proof.
  intros Hx Ht. induction x as [|c x IH]; intros acc.
  - rewrite append_nil_r, append_nil_l, append_cons, append_nil_l.
    destruct tail as [|c' t]; [reflexivity|].
    simpl in Ht. simpl. rewrite Ht. reflexivity.
  - simpl in Hx. apply andb_true_iff in Hx as [Hc Hx].
    apply andb_true_iff in Hc as [Hq _]. apply negb_true_iff in Hq.
    rewrite append_cons. simpl. rewrite Hq. rewrite IH by assumption.
    rewrite append_assoc. reflexivity.
Qed.

Lemma read_where_plain (x tail : string) :
  plain x = true ->
  SqlText.until_nul tail = tail ->
  no_quote_ahead tail ->
  SqlText.clauses (S (String.length tail)) tail = SqlText.Parsed ([], SqlText.skip_ws tail) ->
  SqlText.read_where x tail = SqlText.Parsed {| SqlText.first := x; SqlText.more := [] |}.
Proof.
  intros Hx Hnul Hq Hcl. unfold SqlText.read_where.
  rewrite append_cons, append_nil_l.
  assert (Htext : SqlText.until_nul (String "'" (x ++ "'" ++ tail)) =
                  String "'" (x ++ "'" ++ tail)).
  { simpl. f_equal. rewrite until_nul_plain by assumption.
    rewrite append_cons, append_nil_l. simpl. now rewrite Hnul. }
  rewrite Htext. unfold SqlText.literal_at. simpl Ascii.eqb. cbv iota.
  rewrite (string_literal_plain x tail Hx Hq ""). rewrite append_nil_l.
  rewrite Hcl. rewrite String.eqb_refl. reflexivity.
Qed.

Lemma holds_single (x : string) (v : option string) :
  SqlText.holds {| SqlText.first := x; SqlText.more := [] |} v = eq_param x v.
Proof.
  unfold SqlText.holds, eq_param. simpl.
  destruct v as [s|]; simpl; [|reflexivity].
  destruct (String.eqb s x); reflexivity.
Qed.

Lemma select_links_plain (x : string) (d : db) :
  select_links (SqlText.holds {| SqlText.first := x; SqlText.more := [] |}) d =
  select_links (eq_param x) d.
Proof. apply filter_ext. intros l. apply holds_single. Qed.

(** On a plain linkId the sql.js click handler is the index.js one. *)
Lemma SqlJs_click_plain (w : world) (d : db) (req : request) (linkId : string) :
  plain linkId = true ->
  SqlJs.get_c_linkId w d req linkId = Some (IndexJs.get_c_linkId w d req linkId).
Proof.
  intros Hx. unfold SqlJs.get_c_linkId, IndexJs.get_c_linkId, IndexJs.select_link.
  unfold SqlJs.exec_where.
  destruct (read_fails w) eqn:Hr; [reflexivity|].
  rewrite (read_where_plain linkId "" Hx eq_refl I eq_refl).
  rewrite select_links_plain.
  destruct (select_links (eq_param linkId) d) as [|link rest] eqn:Hsel; simpl;
    [reflexivity|].
  assert (Hin : has_link d linkId = true).
  { unfold has_link. apply existsb_exists. exists link.
    assert (Hl : In link (select_links (eq_param linkId) d))
      by (rewrite Hsel; left; reflexivity).
    apply filter_In in Hl as [Hl Hc]. split; [exact Hl|exact Hc]. }
  unfold insert_click. rewrite Hin.
  destruct (write_fails w); [reflexivity|].
  simpl. rewrite andb_false_r. reflexivity.
Qed.

(** ** The click redirect *)

Lemma head_filter_unique (ls : list link_row) (link : link_row) :
  NoDup (map l_id ls) -> In link ls ->
  head (List.filter (fun l => eq_param (l_id link) (Some (l_id l))) ls) = Some link.
Proof.
  induction ls as [|x ls IH]; intros Hnd Hin; [destruct Hin|].
  simpl in Hnd. apply NoDup_cons in Hnd as [Hx Hnd].
  rewrite list_elem_of_In in Hx.
  cbn [List.filter eq_param].
  destruct Hin as [->|Hin].
  - rewrite String.eqb_refl. reflexivity.
  - destruct (String.eqb (l_id x) (l_id link)) eqn:Heq.
    + apply String.eqb_eq in Heq. exfalso. apply Hx. rewrite Heq.
      apply in_map. exact Hin.
    + apply IH; assumption.
Qed.

Lemma head_filter_none (ls : list link_row) (linkId : string) :
  (forall link, In link ls -> l_id link <> linkId) ->
  List.filter (fun l => eq_param linkId (Some (l_id l))) ls = [].
Proof.
  induction ls as [|x ls IH]; intros H; [reflexivity|].
  cbn [List.filter eq_param].
  destruct (String.eqb (l_id x) linkId) eqn:Heq.
  - apply String.eqb_eq in Heq. exfalso. apply (H x); [left; reflexivity|exact Heq].
  - apply IH. intros l Hl. apply H. right. exact Hl.
Qed.

Lemma has_link_In (d : db) (link : link_row) :
  In link (links d) -> has_link d (l_id link) = true.
Proof.
  intros H. unfold has_link. apply existsb_exists. exists link.
  split; [exact H | apply String.eqb_refl].
Qed.

Lemma insert_click_ok (fk : bool) (w : world) (d : db) (linkId a u : string) :
  write_fails w = false ->
  fk && foreign_keys w && negb (has_link d linkId) = false ->
  insert_click fk w d linkId a u =
  Ok {| emails := emails d;
        opens := opens d;
        links := links d;
        clicks := clicks d ++
          [{| c_id := next_rowid (map c_id (clicks d));
              c_link_id := linkId;
              c_clicked_at := now w;
              c_ip_address := a;
              c_user_agent := u |}] |}.
Proof. intros Hw Hfk. unfold insert_click. rewrite Hw, Hfk. reflexivity. Qed.

Lemma insert_click_fails (fk : bool) (w : world) (d : db) (linkId a u : string) :
  write_fails w = true -> insert_click fk w d linkId a u = Throw.
Proof. intros Hw. unfold insert_click. rewrite Hw. reflexivity. Qed.

Lemma IndexJs_select_link_found (w : world) (d : db) (linkId : string) link :
  IndexJs.select_link w d linkId = Ok (Some link) ->
  read_fails w = false /\ In link (links d) /\ l_id link = linkId /\
  exists rest, select_links (eq_param linkId) d = link :: rest.
Proof.
  unfold IndexJs.select_link. destruct (read_fails w); [discriminate|].
  intros H. inversion H as [Hh]. clear H.
  destruct (select_links (eq_param linkId) d) as [|l rest] eqn:Hsel; [discriminate|].
  simpl in Hh. inversion Hh; subst l.
  assert (Hl : In link (select_links (eq_param linkId) d))
    by (rewrite Hsel; left; reflexivity).
  apply filter_In in Hl as [Hl Hc]. simpl in Hc. apply String.eqb_eq in Hc.
  repeat split; eauto.
Qed.

(** C1 (amended): on GET /c/{linkId}, in both servers, once the lookup has
    found the link: when the INSERT of the Click row goes through, the
    response is the 302 redirect to the stored originalUrl; when the INSERT
    raises, the failure is written to the console, no row is written, and
    the response is 500 with the text "Error processing request". *)
Theorem click_reply_after_lookup :
  forall (w : world) (d : db) (req : request) (linkId : string)
         (link : link_row),
    let failed :=
      {| store := d;
         reply := Reply 500 [] (Text "Error processing request");
         console := ["Error processing click:"] |} in
    (IndexJs.select_link w d linkId = Ok (Some link) ->
     (write_fails w = false ->
      reply (IndexJs.get_c_linkId w d req linkId) =
        Redirect 302 (l_original_url link)) /\
     (write_fails w = true ->
      IndexJs.get_c_linkId w d req linkId = failed)) /\
    (forall cond rest,
       SqlJs.exec_where w linkId "" = SqlText.Parsed cond ->
       select_links cond d = link :: rest ->
       (write_fails w = false ->
        exists e, SqlJs.get_c_linkId w d req linkId = Some e /\
                  reply e = Redirect 302 (l_original_url link)) /\
       (write_fails w = true ->
        SqlJs.get_c_linkId w d req linkId = Some failed)).
Proof.
  intros w d req linkId link failed. split.
  - intros Hsel. pose proof (IndexJs_select_link_found _ _ _ _ Hsel)
      as (Hr & Hin & Hid & _).
    unfold IndexJs.get_c_linkId. rewrite Hsel. split; intros Hw.
    + rewrite insert_click_ok; [reflexivity|exact Hw|].
      subst linkId. rewrite (has_link_In d link Hin). simpl.
      apply andb_false_r.
    + rewrite insert_click_fails by exact Hw. reflexivity.
  - intros cond rest Hex Hsel. unfold SqlJs.get_c_linkId.
    rewrite Hex, Hsel. split; intros Hw.
    + rewrite insert_click_ok; [eexists; split; reflexivity|exact Hw|reflexivity].
    + rewrite insert_click_fails by exact Hw. reflexivity.
Qed.

(** The sample link, clicked once with the INSERT going through and once
    with the INSERT raising. *)
Lemma click_reply_after_lookup_witness :
  reply (IndexJs.get_c_linkId Sample.w0 Sample.d1 Sample.req0 "a1b2c3d4e5f6") =
    Redirect 302 (Some "https://example.com") /\
  IndexJs.get_c_linkId Sample.w_write_fails Sample.d1 Sample.req0 "a1b2c3d4e5f6" =
    {| store := Sample.d1;
       reply := Reply 500 [] (Text "Error processing request");
       console := ["Error processing click:"] |}.
Proof.
  split.
  - apply (proj1 (click_reply_after_lookup Sample.w0 Sample.d1 Sample.req0
                    "a1b2c3d4e5f6" Sample.link1)); reflexivity.
  - apply (proj1 (click_reply_after_lookup Sample.w_write_fails Sample.d1
                    Sample.req0 "a1b2c3d4e5f6" Sample.link1)); reflexivity.
Defined.

(** C1, as stated, fails: the link a1b2c3d4e5f6 is found, the INSERT of the
    Click row raises, and both servers answer 500 instead of the redirect. *)
Lemma click_insert_failure_blocks_redirect :
  IndexJs.select_link Sample.w_write_fails Sample.d1 "a1b2c3d4e5f6" =
    Ok (Some Sample.link1) /\
  reply (IndexJs.get_c_linkId Sample.w_write_fails Sample.d1 Sample.req0
           "a1b2c3d4e5f6") =
    Reply 500 [] (Text "Error processing request") /\
  reply (IndexJs.get_c_linkId Sample.w_write_fails Sample.d1 Sample.req0
           "a1b2c3d4e5f6") <>
    Redirect 302 (l_original_url Sample.link1) /\
  option_map reply
    (SqlJs.get_c_linkId Sample.w_write_fails Sample.d1 Sample.req0
       "a1b2c3d4e5f6") =
    Some (Reply 500 [] (Text "Error processing request")).
Proof. repeat split; try reflexivity. discriminate. Qed.

Lemma click_count_after (d : db) (link : link_row) (row : click_row) :
  c_link_id row = l_id link ->
  lv_click_count
    (view_link {| emails := emails d; opens := opens d; links := links d;
                  clicks := clicks d ++ [row] |} link) =
  S (lv_click_count (view_link d link)).
Proof.
  intros Hrow. unfold view_link. cbn [lv_click_count clicks].
  rewrite List.filter_app, length_app. cbn [List.filter].
  rewrite Hrow, String.eqb_refl. simpl. lia.
Qed.

(** C2 (amended): on GET /c/{linkId} with no storage statement raising and
    link ids unique (the PRIMARY KEY of links); in [src/index.js] for every
    linkId: if a Link row with that id exists, the response is the 302
    redirect to exactly its stored originalUrl, exactly one Click row, for
    that link, is appended, nothing else changes and the link's click count
    grows by one; if no such row exists, the response is 404 with the text
    "Link not found" and the database is unchanged.  The sql.js server
    behaves the same on every linkId without quote or NUL byte. *)
Theorem click_with_storage_up :
  forall (w : world) (d : db) (req : request) (linkId : string),
    read_fails w = false ->
    write_fails w = false ->
    NoDup (map l_id (links d)) ->
    let e := IndexJs.get_c_linkId w d req linkId in
    (forall link,
       In link (links d) -> l_id link = linkId ->
       reply e = Redirect 302 (l_original_url link) /\
       (exists row,
          clicks (store e) = (clicks d ++ [row])%list /\
          c_link_id row = linkId) /\
       emails (store e) = emails d /\
       opens (store e) = opens d /\
       links (store e) = links d /\
       lv_click_count (view_link (store e) link) =
         S (lv_click_count (view_link d link))) /\
    ((forall link, In link (links d) -> l_id link <> linkId) ->
     reply e = Reply 404 [] (Text "Link not found") /\ store e = d) /\
    (plain linkId = true -> SqlJs.get_c_linkId w d req linkId = Some e).
Proof.
  intros w d req linkId Hr Hw Hnd e. subst e.
  split; [|split].
  - intros link Hin Hid. unfold IndexJs.get_c_linkId, IndexJs.select_link.
    rewrite Hr. unfold select_links. subst linkId.
    rewrite (head_filter_unique (links d) link Hnd Hin).
    rewrite insert_click_ok;
      [|exact Hw|rewrite (has_link_In d link Hin); apply andb_false_r].
    cbn [store reply emails opens links clicks].
    repeat split; try reflexivity.
    + eexists. split; reflexivity.
    + apply click_count_after. reflexivity.
  - intros Hnone. unfold IndexJs.get_c_linkId, IndexJs.select_link.
    rewrite Hr. unfold select_links.
    rewrite (head_filter_none (links d) linkId Hnone). simpl. auto.
  - intros Hp. apply SqlJs_click_plain. exact Hp.
Qed.

(** The sample database with storage up: a known link, an unknown one,
    and the sql.js server on the known one. *)
Lemma click_with_storage_up_witness :
  reply (IndexJs.get_c_linkId Sample.w0 Sample.d1 Sample.req0 "a1b2c3d4e5f6") =
    Redirect 302 (Some "https://example.com") /\
  reply (IndexJs.get_c_linkId Sample.w0 Sample.d1 Sample.req0 "ffffffffffff") =
    Reply 404 [] (Text "Link not found") /\
  SqlJs.get_c_linkId Sample.w0 Sample.d1 Sample.req0 "a1b2c3d4e5f6" =
    Some (IndexJs.get_c_linkId Sample.w0 Sample.d1 Sample.req0 "a1b2c3d4e5f6").
Proof.
  assert (Hnd : NoDup (map l_id (links Sample.d1))).
  { simpl. apply NoDup_singleton. }
  pose proof (click_with_storage_up Sample.w0 Sample.d1 Sample.req0
                "a1b2c3d4e5f6" eq_refl eq_refl Hnd) as (Hfound & _ & Hplain).
  pose proof (click_with_storage_up Sample.w0 Sample.d1 Sample.req0
                "ffffffffffff" eq_refl eq_refl Hnd) as (_ & Hmissing & _).
  split; [|split].
  - apply (Hfound Sample.link1); [left; reflexivity|reflexivity].
  - apply Hmissing. intros link [<-|[]]. discriminate.
  - apply Hplain. reflexivity.
Defined.

(** C2, as stated, fails: the Link row a1b2c3d4e5f6 exists, yet when the
    INSERT raises the response is 500 and no Click row is appended; and for
    an id with no Link row, when the lookup raises the response is 500
    rather than 404. *)
Lemma click_with_storage_down :
  In Sample.link1 (links Sample.d1) /\
  l_id Sample.link1 = "a1b2c3d4e5f6" /\
  IndexJs.get_c_linkId Sample.w_write_fails Sample.d1 Sample.req0
    "a1b2c3d4e5f6" =
    {| store := Sample.d1;
       reply := Reply 500 [] (Text "Error processing request");
       console := ["Error processing click:"] |} /\
  clicks Sample.d1 = [] /\
  has_link Sample.d1 "ffffffffffff" = false /\
  reply (IndexJs.get_c_linkId
           {| now := Sample.t0; entropy := entropy Sample.w0;
              foreign_keys := true; read_fails := true; write_fails := false;
              BASE_URL := None; RENDER_EXTERNAL_URL := None |}
           Sample.d1 Sample.req0 "ffffffffffff") =
    Reply 500 [] (Text "Error processing request").
Proof. repeat split; try reflexivity. left. reflexivity. Qed.

(** ** The quote that leaves the literal *)

Lemma select_emails_plain (x : string) (d : db) :
  select_emails (SqlText.holds {| SqlText.first := x; SqlText.more := [] |}) d =
  select_emails (eq_param x) d.
Proof.
  unfold select_emails. f_equal. f_equal. f_equal.
  apply filter_ext. intros e. apply holds_single.
Qed.

(** On a plain userEmail the sql.js listing is the index.js one. *)
Lemma SqlJs_emails_plain (w : world) (d : db) (userEmail : string) :
  plain userEmail = true ->
  SqlJs.get_api_emails w d userEmail = Some (IndexJs.get_api_emails w d userEmail).
Proof.
  intros Hx. unfold SqlJs.get_api_emails, IndexJs.get_api_emails, SqlJs.exec_where.
  destruct (read_fails w); [reflexivity|].
  rewrite (read_where_plain userEmail SqlJs.emails_tail Hx);
    [|reflexivity|vm_compute; reflexivity|vm_compute; reflexivity].
  rewrite select_emails_plain.
  destruct (select_emails (eq_param userEmail) d); reflexivity.
Qed.

(** C9 fails on the code: with the value [' OR '1'='1] the index.js click
    handler answers 404 and writes nothing, while the sql.js handler
    redirects to the only stored link and appends a Click row; with a lone
    quote the sql.js handler answers 500 where index.js answers 404; and
    the sql.js listing returns alice's email to a caller who named no
    user, where index.js returns the empty list. *)
Theorem spliced_quote_separates_the_servers :
  IndexJs.get_c_linkId Sample.w0 Sample.d1 Sample.req0 Sample.injection =
    {| store := Sample.d1;
       reply := Reply 404 [] (Text "Link not found");
       console := [] |} /\
  option_map reply
    (SqlJs.get_c_linkId Sample.w0 Sample.d1 Sample.req0 Sample.injection) =
    Some (Redirect 302 (Some "https://example.com")) /\
  option_map (fun e => map c_link_id (clicks (store e)))
    (SqlJs.get_c_linkId Sample.w0 Sample.d1 Sample.req0 Sample.injection) =
    Some [Sample.injection] /\
  reply (IndexJs.get_c_linkId Sample.w0 Sample.d1 Sample.req0 "'") =
    Reply 404 [] (Text "Link not found") /\
  option_map reply (SqlJs.get_c_linkId Sample.w0 Sample.d1 Sample.req0 "'") =
    Some (Reply 500 [] (Text "Error processing request")) /\
  reply (IndexJs.get_api_emails Sample.w0 Sample.d1 Sample.injection) =
    Reply 200 [] (EmailList []) /\
  option_map reply (SqlJs.get_api_emails Sample.w0 Sample.d1 Sample.injection) =
    Some (Reply 200 [] (EmailList [summary Sample.d1 Sample.email1])).
Proof. repeat split; vm_compute; reflexivity. Qed.

(** ** Registration *)

Lemma has_email_false (d : db) (id : string) :
  has_email d id = false -> ~ In id (map e_id (emails d)).
Proof.
  unfold has_email. intros H Hin. apply in_map_iff in Hin as (e & He & Hin).
  assert (Ht : existsb (fun e => String.eqb (e_id e) id) (emails d) = true).
  { apply existsb_exists. exists e. split; [exact Hin|]. subst id. apply String.eqb_refl. }
  congruence.
Qed.

Lemma has_link_false (d : db) (id : string) :
  has_link d id = false -> ~ In id (map l_id (links d)).
Proof.
  unfold has_link. intros H Hin. apply in_map_iff in Hin as (l & Hl & Hin).
  assert (Ht : existsb (fun l => String.eqb (l_id l) id) (links d) = true).
  { apply existsb_exists. exists l. split; [exact Hin|]. subst id. apply String.eqb_refl. }
  congruence.
Qed.

Lemma NoDup_snoc (l : list string) (x : string) :
  NoDup l -> ~ In x l -> NoDup (l ++ [x]).
Proof.
  intros Hl Hx. apply NoDup_app. split; [exact Hl|]. split.
  - intros y Hy Hy'. apply list_elem_of_In in Hy.
    apply list_elem_of_singleton in Hy'. subst y. contradiction.
  - apply NoDup_singleton.
Qed.

(** C6: when POST /api/emails succeeds, the emailId it returns is not the
    id of any row already in emails, the ids of the table stay pairwise
    distinct, and the returned pixel URL contains the emailId verbatim;
    likewise, when POST /api/links succeeds, the linkId it returns is not
    the id of any row already in links, the ids stay pairwise distinct, and
    the returned tracked URL contains the linkId verbatim. *)
Theorem registration_ids_are_fresh :
  forall (w : world) (d : db) (req : request),
    (forall (subject recipient userEmail : option string)
            (emailId trackingPixel : string),
       let e := IndexJs.post_api_emails w d req subject recipient userEmail in
       reply e = Reply 200 [] (EmailCreated emailId trackingPixel) ->
       ~ In emailId (map e_id (emails d)) /\
       map e_id (emails (store e)) = (map e_id (emails d) ++ [emailId])%list /\
       (NoDup (map e_id (emails d)) -> NoDup (map e_id (emails (store e)))) /\
       embeds trackingPixel emailId) /\
    (forall (emailId originalUrl : option string) (linkId trackedUrl : string),
       let e := IndexJs.post_api_links w d req emailId originalUrl in
       reply e = Reply 200 [] (LinkCreated linkId trackedUrl) ->
       ~ In linkId (map l_id (links d)) /\
       map l_id (links (store e)) = (map l_id (links d) ++ [linkId])%list /\
       (NoDup (map l_id (links d)) -> NoDup (map l_id (links (store e)))) /\
       embeds trackedUrl linkId).
Proof.
  intros w d req. split.
  - intros subject recipient userEmail emailId url e. subst e.
    unfold IndexJs.post_api_emails, insert_email.
    remember (to_hex (randomBytes w 8)) as id eqn:Hid. clear Hid.
    destruct (write_fails w); [discriminate|].
    destruct (has_email d id) eqn:Hfresh; [discriminate|].
    cbn [reply store emails]. intros H.
    injection H as <- <-.
    apply has_email_false in Hfresh.
    rewrite map_app. cbn [map e_id].
    repeat split; auto.
    + intros Hnd. apply NoDup_snoc; assumption.
    + exists (IndexJs.getBaseUrl w req ++ "/t/")%string, ".png".
      rewrite append_assoc. reflexivity.
  - intros emailId originalUrl linkId url e. subst e.
    unfold IndexJs.post_api_links, insert_link.
    remember (to_hex (randomBytes w 6)) as id eqn:Hid. clear Hid.
    destruct (write_fails w); [discriminate|].
    destruct (has_link d id) eqn:Hfresh; [discriminate|].
    destruct (IndexJs.declares_fk && foreign_keys w && _); [discriminate|].
    cbn [reply store links]. intros H.
    injection H as <- <-.
    apply has_link_false in Hfresh.
    rewrite map_app. cbn [map l_id].
    repeat split; auto.
    + intros Hnd. apply NoDup_snoc; assumption.
    + exists (IndexJs.getBaseUrl w req ++ "/c/")%string, "".
      rewrite append_nil_r, append_assoc. reflexivity.
Qed.

(** Registering an email and a link in the sample database. *)
Lemma registration_ids_are_fresh_witness :
  (~ In "2a3b4c5d6e7f90a1" (map e_id (emails Sample.d1)) /\
   embeds "https://tracker.example/t/2a3b4c5d6e7f90a1.png" "2a3b4c5d6e7f90a1") /\
  (~ In "2a3b4c5d6e7f" (map l_id (links Sample.d1)) /\
   embeds "https://tracker.example/c/2a3b4c5d6e7f" "2a3b4c5d6e7f").
Proof.
  destruct (registration_ids_are_fresh Sample.w0 Sample.d1 Sample.req0)
    as [Hemail Hlink].
  split.
  - destruct (Hemail (Some "Hello again") (Some "bob@example.com")
                (Some "alice@example.com") "2a3b4c5d6e7f90a1"
                "https://tracker.example/t/2a3b4c5d6e7f90a1.png")
      as (Hfresh & _ & _ & Hurl); [vm_compute; reflexivity|].
    split; assumption.
  - destruct (Hlink (Some "0011223344556677") (Some "https://example.org")
                "2a3b4c5d6e7f" "https://tracker.example/c/2a3b4c5d6e7f")
      as (Hfresh & _ & _ & Hurl); [vm_compute; reflexivity|].
    split; assumption.
Defined.

(** ** Unique and total counts *)

Lemma length_remove_dups_le (l : list string) :
  (List.length (remove_dups l) <= List.length l)%nat.
Proof.
  induction l as [|x l IH]; simpl; [lia|].
  destruct (decide_rel elem_of x l); simpl; lia.
Qed.

Lemma Set_size_remove_dups (l : list string) :
  Set_size l = List.length (remove_dups l).
Proof.
  unfold Set_size.
  rewrite <- (size_list_to_set (C := gset string) (remove_dups l))
    by apply NoDup_remove_dups.
  f_equal. apply set_eq. intros x.
  rewrite !elem_of_list_to_set, elem_of_remove_dups. reflexivity.
Qed.

Lemma Set_size_le (l : list string) : (Set_size l <= List.length l)%nat.
Proof. rewrite Set_size_remove_dups. apply length_remove_dups_le. Qed.

Lemma Set_size_distinct (l : list string) :
  NoDup l -> Set_size l = List.length l.
Proof. intros H. unfold Set_size. apply size_list_to_set. exact H. Qed.

Lemma stats_of_bounds (email : email_row) (opens : list open_view)
    (links : list link_view) (clicks : list click_view) :
  unique_le_total (detail_of email opens links clicks).
Proof.
  unfold unique_le_total, detail_of, stats_of.
  cbn [d_stats d_opens d_clicks uniqueOpens totalOpens uniqueClicks totalClicks].
  repeat split.
  - rewrite <- (length_map ov_ip_address opens). apply Set_size_le.
  - rewrite <- (length_map cv_ip_address clicks). apply Set_size_le.
  - intros H. rewrite Set_size_distinct by exact H. apply length_map.
  - intros H. rewrite Set_size_distinct by exact H. apply length_map.
Qed.

(** C7: whenever GET /api/emails/{id} answers with the detail of an
    existing email, in either server, its stats block has
    uniqueOpens <= totalOpens and uniqueClicks <= totalClicks, with
    uniqueOpens = totalOpens when the IP addresses of the listed opens are
    pairwise distinct and uniqueClicks = totalClicks when those of the
    listed clicks are. *)
Theorem detail_stats_unique_le_total :
  forall (w : world) (d : db) (emailId : string) (detail : email_detail),
    (reply (IndexJs.get_api_emails_emailId w d emailId) =
       Reply 200 [] (EmailDetail detail) ->
     unique_le_total detail) /\
    (forall e : effect,
       SqlJs.get_api_emails_emailId w d emailId = Some e ->
       reply e = Reply 200 [] (EmailDetail detail) ->
       unique_le_total detail).
Proof.
  intros w d emailId detail. split.
  - unfold IndexJs.get_api_emails_emailId.
    destruct (read_fails w); [discriminate|].
    destruct (head _); [|discriminate].
    cbn [reply]. intros H. injection H as <-.
    apply stats_of_bounds.
  - intros e. unfold SqlJs.get_api_emails_emailId.
    destruct (SqlJs.exec_where w emailId "");
      [|intros H; injection H as <-; discriminate|discriminate].
    destruct (select_email a d); [intros H; injection H as <-; discriminate|].
    destruct (SqlJs.exec_where w emailId SqlJs.opens_tail);
      [|intros H; injection H as <-; discriminate|discriminate].
    destruct (SqlJs.exec_where w emailId SqlJs.links_tail);
      [|intros H; injection H as <-; discriminate|discriminate].
    destruct (SqlJs.exec_where w emailId SqlJs.clicks_tail);
      [|intros H; injection H as <-; discriminate|discriminate].
    intros H. injection H as <-. cbn [reply]. intros H. injection H as <-.
    apply stats_of_bounds.
Qed.

(** The detail of the sample email with four opens and two clicks. *)
Lemma detail_stats_unique_le_total_witness :
  unique_le_total
    (detail_of Sample.email1
       (select_opens (eq_param "0011223344556677") Sample.d2)
       (select_links_of (eq_param "0011223344556677") Sample.d2)
       (select_clicks (eq_param "0011223344556677") Sample.d2)).
Proof.
  apply (proj1 (detail_stats_unique_le_total Sample.w0 Sample.d2
                  "0011223344556677" _)).
  reflexivity.
Defined.

(** The scenario of the specification, run through the handlers: register
    an email, register a link for it, fetch the pixel once, click twice
    from two addresses, then ask for the detail. *)
Example detail_after_one_open_two_clicks :
  let d1 := store (IndexJs.post_api_emails Sample.w0 empty_db Sample.req0
                     (Some "Hello") (Some "bob@example.com")
                     (Some "alice@example.com")) in
  let d2 := store (IndexJs.post_api_links Sample.w0 d1 Sample.req0
                     (Some "2a3b4c5d6e7f90a1") (Some "https://example.com")) in
  let d3 := store (IndexJs.get_t_emailId_png Sample.w0 d2 Sample.req0
                     "2a3b4c5d6e7f90a1") in
  let d4 := store (IndexJs.get_c_linkId Sample.w0 d3 Sample.req0 "2a3b4c5d6e7f") in
  let d5 := store (IndexJs.get_c_linkId Sample.w0 d4 Sample.req1 "2a3b4c5d6e7f") in
  match reply (IndexJs.get_api_emails_emailId Sample.w0 d5 "2a3b4c5d6e7f90a1") with
  | Reply 200 [] (EmailDetail detail) =>
      d_stats detail =
      {| totalOpens := 1; uniqueOpens := 1; totalClicks := 2; uniqueClicks := 2 |}
  | _ => False
  end.
Proof. vm_compute. reflexivity. Qed.

Example detail_stats_with_a_repeated_address :
  d_stats
    (detail_of Sample.email1
       (select_opens (eq_param "0011223344556677") Sample.d2)
       (select_links_of (eq_param "0011223344556677") Sample.d2)
       (select_clicks (eq_param "0011223344556677") Sample.d2)) =
  {| totalOpens := 4; uniqueOpens := 3; totalClicks := 2; uniqueClicks := 2 |}.
Proof. vm_compute. reflexivity. Qed.

(** ** Totals against the listing *)

Lemma length_filter_filter {A : Type} (p q : A -> bool) (l : list A) :
  List.length (List.filter p (List.filter q l)) =
  list_sum (map (fun b => if p b then 1%nat else 0%nat) (List.filter q l)).
Proof.
  induction (List.filter q l) as [|b m IH]; simpl; [reflexivity|].
  destruct (p b); simpl; rewrite IH; reflexivity.
Qed.

Lemma list_sum_map_add {A : Type} (f g : A -> nat) (l : list A) :
  list_sum (map (fun a => (f a + g a)%nat) l) =
  (list_sum (map f l) + list_sum (map g l))%nat.
Proof. induction l as [|a l IH]; simpl; [reflexivity|]. rewrite IH. lia. Qed.

Lemma filter_snd_pairs {A B : Type} (a : A) (q : B -> bool) (l : list B) :
  List.filter (fun p : A * B => q (snd p)) (map (pair a) l) =
  map (pair a) (List.filter q l).
Proof.
  induction l as [|b l IH]; simpl; [reflexivity|].
  destruct (q b); simpl; rewrite IH; reflexivity.
Qed.

Lemma filter_comm {A : Type} (p q : A -> bool) (l : list A) :
  List.filter p (List.filter q l) = List.filter q (List.filter p l).
Proof.
  induction l as [|a l IH]; simpl; [reflexivity|].
  destruct (p a) eqn:Hp, (q a) eqn:Hq; simpl; rewrite ?Hp, ?Hq, IH; reflexivity.
Qed.

(** Counting the pairs of a join whose right row passes [q], either pair by
    pair or right row by right row. *)
Lemma join_count {A B : Type} (l : list A) (r : list B)
    (on : A -> B -> bool) (q : B -> bool) :
  List.length (List.filter (fun p => q (snd p)) (join l r on)) =
  list_sum
    (map (fun b => List.length (List.filter (fun a => on a b) l))
         (List.filter q r)).
Proof.
  unfold join. induction l as [|a l IH]; simpl.
  - induction (List.filter q r) as [|b m IHm]; simpl; [reflexivity|exact IHm].
  - rewrite List.filter_app, length_app, IH.
    rewrite filter_snd_pairs, length_map, filter_comm, length_filter_filter.
    rewrite <- list_sum_map_add. f_equal. apply map_ext. intros b.
    destruct (on a b); reflexivity.
Qed.

Lemma insert_desc_perm {A : Type} (key : A -> timestamp) (x : A) (l : list A) :
  Permutation (insert_desc key x l) (x :: l).
Proof.
  induction l as [|y l IH]; simpl; [reflexivity|].
  destruct (ts_leb (key y) (key x)); [reflexivity|].
  rewrite IH. apply perm_swap.
Qed.

Lemma order_by_desc_perm {A : Type} (key : A -> timestamp) (l : list A) :
  Permutation (order_by_desc key l) l.
Proof.
  induction l as [|x l IH]; simpl; [reflexivity|].
  unfold order_by_desc in *. simpl. rewrite insert_desc_perm, IH. reflexivity.
Qed.

Lemma list_sum_perm (l l' : list nat) :
  Permutation l l' -> list_sum l = list_sum l'.
Proof. induction 1; simpl; lia. Qed.

Lemma list_sum_firstn_le (n : nat) (l : list nat) :
  (list_sum (firstn n l) <= list_sum l)%nat.
Proof.
  revert n. induction l as [|x l IH]; intros [|n]; simpl; try lia.
  specialize (IH n). lia.
Qed.

Lemma listing_sum (f : email_summary -> nat) (cond : option string -> bool) (d : db) :
  let all := List.filter (fun e => cond (e_user_email e)) (emails d) in
  (list_sum (map f (select_emails cond d)) <=
   list_sum (map (fun e => f (summary d e)) all))%nat /\
  ((List.length all <= 100)%nat ->
   list_sum (map f (select_emails cond d)) =
   list_sum (map (fun e => f (summary d e)) all)).
Proof.
  intros all. unfold select_emails, LIMIT. fold all.
  rewrite map_map.
  assert (Hperm : list_sum (map (fun e => f (summary d e)) (order_by_desc e_sent_at all)) =
                  list_sum (map (fun e => f (summary d e)) all)).
  { apply list_sum_perm. apply Permutation_map. apply order_by_desc_perm. }
  split.
  - rewrite <- Hperm. rewrite <- !firstn_map. apply list_sum_firstn_le.
  - intros Hlen. rewrite firstn_all2; [exact Hperm|].
    rewrite (Permutation_length (order_by_desc_perm e_sent_at all)). exact Hlen.
Qed.

Lemma ts_leb_spec (a b : timestamp) :
  ts_leb a b = true <->
  ts_day a < ts_day b \/ (ts_day a = ts_day b /\ ts_sec a <= ts_sec b).
Proof.
  unfold ts_leb, ts_ltb.
  rewrite negb_true_iff, orb_false_iff, andb_false_iff.
  rewrite !Z.ltb_ge, Z.eqb_neq. lia.
Qed.

Lemma ts_leb_trans (a b c : timestamp) :
  ts_leb a b = true -> ts_leb b c = true -> ts_leb a c = true.
Proof. rewrite !ts_leb_spec. lia. Qed.

Lemma ts_leb_total (a b : timestamp) :
  ts_leb a b = false -> ts_leb b a = true.
Proof.
  intros H. apply ts_leb_spec.
  assert (Hn : ~ (ts_day a < ts_day b \/
                  (ts_day a = ts_day b /\ ts_sec a <= ts_sec b))).
  { rewrite <- ts_leb_spec. congruence. }
  lia.
Qed.

Lemma insert_desc_sorted {A : Type} (key : A -> timestamp) (x : A) (l : list A) :
  StronglySorted (fun a b => ts_leb (key b) (key a) = true) l ->
  StronglySorted (fun a b => ts_leb (key b) (key a) = true) (insert_desc key x l).
Proof.
  induction l as [|y l IH]; simpl; intros Hs.
  - repeat constructor.
  - apply StronglySorted_inv in Hs as [Hl Hy].
    destruct (ts_leb (key y) (key x)) eqn:Hyx.
    + constructor; [constructor; assumption|].
      constructor; [exact Hyx|].
      eapply List.Forall_impl; [|exact Hy].
      intros z Hz. simpl in Hz. eapply ts_leb_trans; eassumption.
    + constructor; [apply IH; exact Hl|].
      apply List.Forall_forall. intros z Hz.
      apply (Permutation_in _ (insert_desc_perm key x l)) in Hz as [<-|Hz].
      * apply ts_leb_total. exact Hyx.
      * rewrite List.Forall_forall in Hy. apply Hy. exact Hz.
Qed.

Lemma order_by_desc_sorted {A : Type} (key : A -> timestamp) (l : list A) :
  StronglySorted (fun a b => ts_leb (key b) (key a) = true) (order_by_desc key l).
Proof.
  induction l as [|x l IH]; [constructor|].
  unfold order_by_desc in *. simpl. apply insert_desc_sorted. exact IH.
Qed.

Lemma firstn_In {A : Type} (n : nat) (l : list A) (x : A) :
  In x (firstn n l) -> In x l.
Proof.
  revert n. induction l as [|y l IH]; intros [|n]; simpl; try tauto.
  intros [->|H]; [left; reflexivity|right; eapply IH; exact H].
Qed.

Lemma StronglySorted_firstn {A : Type} (R : A -> A -> Prop) (n : nat) (l : list A) :
  StronglySorted R l -> StronglySorted R (firstn n l).
Proof.
  revert n. induction l as [|x l IH]; intros [|n] Hs; simpl; try constructor.
  - apply IH. apply StronglySorted_inv in Hs. tauto.
  - apply StronglySorted_inv in Hs as [_ Hx].
    apply List.Forall_forall. intros y Hy.
    rewrite List.Forall_forall in Hx. apply Hx.
    eapply firstn_In. exact Hy.
Qed.

Lemma listing_shape (cond : option string -> bool) (d : db) :
  let all := List.filter (fun e => cond (e_user_email e)) (emails d) in
  (List.length (select_emails cond d) <= 100)%nat /\
  newest_first (select_emails cond d) /\
  Forall (fun r => exists e, In e all /\ r = summary d e) (select_emails cond d).
Proof.
  intros all. unfold select_emails, LIMIT. fold all. split; [|split].
  - rewrite length_map. apply firstn_le_length.
  - unfold newest_first.
    assert (Hs := StronglySorted_firstn _ 100 _ (order_by_desc_sorted e_sent_at all)).
    induction Hs as [|e l Hl IH He]; simpl; constructor; [exact IH|].
    apply List.Forall_forall. intros r Hr.
    apply in_map_iff in Hr as (e' & <- & He').
    rewrite List.Forall_forall in He. apply (He e' He').
  - apply List.Forall_forall. intros r Hr.
    apply in_map_iff in Hr as (e & <- & He).
    exists e. split; [|reflexivity].
    apply firstn_In in He.
    apply (Permutation_in _ (order_by_desc_perm e_sent_at all)). exact He.
Qed.

Lemma total_opens_by_email (d : db) (userEmail : string) :
  List.length (IndexJs.opens_of_user d userEmail) =
  list_sum (map (fun e => open_count (summary d e)) (owned d userEmail)).
Proof.
  unfold IndexJs.opens_of_user, owned.
  rewrite (join_count (opens d) (emails d)
             (fun o e => String.eqb (o_email_id o) (e_id e))
             (fun e => eq_param userEmail (e_user_email e))).
  reflexivity.
Qed.

Lemma total_clicks_by_email (d : db) (userEmail : string) :
  List.length (IndexJs.clicks_of_user d userEmail) =
  list_sum (map (fun e => click_count (summary d e)) (owned d userEmail)).
Proof.
  unfold IndexJs.clicks_of_user, owned.
  rewrite (join_count (clicks_links d) (emails d)
             (fun cl e => eq_param (e_id e) (l_email_id (snd cl)))
             (fun e => eq_param userEmail (e_user_email e))).
  reflexivity.
Qed.

(** C3 (amended): for every user X and database, GET /api/emails?userEmail=X
    lists at most 100 emails, all owned by X, newest sentAt first; the open
    and click counts summed over the listed emails never exceed the total
    open and click counts GET /api/stats?userEmail=X returns, and they are
    equal whenever X owns at most 100 emails, so that the listing shows
    them all. *)
Theorem stats_totals_against_listing :
  forall (w w' : world) (d : db) (userEmail : string)
         (s : stats_reply) (rows : list email_summary),
    reply (IndexJs.get_api_stats w d userEmail) = Reply 200 [] (Stats s) ->
    reply (IndexJs.get_api_emails w' d userEmail) =
      Reply 200 [] (EmailList rows) ->
    (List.length rows <= 100)%nat /\
    newest_first rows /\
    Forall (fun r => exists e, In e (owned d userEmail) /\ r = summary d e) rows /\
    (list_sum (map open_count rows) <= total_opens s)%nat /\
    (list_sum (map click_count rows) <= total_clicks s)%nat /\
    ((List.length (owned d userEmail) <= 100)%nat ->
     total_opens s = list_sum (map open_count rows) /\
     total_clicks s = list_sum (map click_count rows)).
Proof.
  intros w w' d X s rows.
  unfold IndexJs.get_api_stats, IndexJs.get_api_emails.
  destruct (read_fails w); [discriminate|].
  destruct (read_fails w'); [discriminate|].
  cbn [reply]. intros Hs Hrows.
  injection Hs as <-. injection Hrows as <-.
  cbn [IndexJs.select_stats total_opens total_clicks].
  rewrite total_opens_by_email, total_clicks_by_email.
  destruct (listing_shape (eq_param X) d) as (Hlen & Hnew & Hown).
  destruct (listing_sum open_count (eq_param X) d) as [Hole Hoeq].
  destruct (listing_sum click_count (eq_param X) d) as [Hcle Hceq].
  fold (owned d X) in Hown, Hole, Hoeq, Hcle, Hceq.
  repeat split; auto.
  - symmetry. apply Hoeq. assumption.
  - symmetry. apply Hceq. assumption.
Qed.

(** Alice owns one email: totals and listing agree. *)
Lemma stats_totals_against_listing_witness :
  total_opens (IndexJs.select_stats Sample.w0 Sample.d2 "alice@example.com") =
    list_sum (map open_count
                (select_emails (eq_param "alice@example.com") Sample.d2)) /\
  total_clicks (IndexJs.select_stats Sample.w0 Sample.d2 "alice@example.com") =
    list_sum (map click_count
                (select_emails (eq_param "alice@example.com") Sample.d2)).
Proof.
  destruct (stats_totals_against_listing Sample.w0 Sample.w0 Sample.d2
              "alice@example.com" _ _ eq_refl eq_refl)
    as (_ & _ & _ & _ & _ & Heq).
  apply Heq. vm_compute. lia.
Defined.

(** C3, as stated, fails: alice owns 101 emails and only the oldest was
    opened and clicked; the listing shows the 100 newest, whose counts sum
    to 0, while the stats report 1 open and 1 click. *)
Lemma listing_cap_hides_counts :
  List.length (owned Sample.d101 "alice@example.com") = 101%nat /\
  match reply (IndexJs.get_api_stats Sample.w0 Sample.d101 "alice@example.com"),
        reply (IndexJs.get_api_emails Sample.w0 Sample.d101 "alice@example.com")
  with
  | Reply 200 [] (Stats s), Reply 200 [] (EmailList rows) =>
      List.length rows = 100%nat /\
      total_opens s = 1%nat /\ list_sum (map open_count rows) = 0%nat /\
      total_clicks s = 1%nat /\ list_sum (map click_count rows) = 0%nat
  | _, _ => False
  end.
Proof. vm_compute. repeat split. Qed.

(** ** Opens by day *)















(** * Further properties of the two servers *)

(** ** Generated identifiers *)

Lemma small_cases (n : N) :
  (n < 16)%N ->
  n = 0%N \/ n = 1%N \/ n = 2%N \/ n = 3%N \/ n = 4%N \/ n = 5%N \/
  n = 6%N \/ n = 7%N \/ n = 8%N \/ n = 9%N \/ n = 10%N \/ n = 11%N \/
  n = 12%N \/ n = 13%N \/ n = 14%N \/ n = 15%N.
Proof. lia. Qed.

Lemma hex_digit_facts (n : N) :
  (n < 16)%N ->
  is_hex_digit (hex_digit n) = true /\ hex_value (hex_digit n) = n.
Proof.
  intros H. apply small_cases in H.
  repeat (destruct H as [->|H]; [vm_compute; split; reflexivity|]).
  subst. vm_compute. split; reflexivity.
Qed.

Lemma byte_nibbles (b : Byte.byte) :
  (Byte.to_N b / 16 < 16)%N /\ (Byte.to_N b mod 16 < 16)%N /\
  byte_of_N (16 * (Byte.to_N b / 16) + Byte.to_N b mod 16) = b.
Proof.
  pose proof (Byte.to_N_bounded b) as Hb.
  split; [|split].
  - apply N.Div0.div_lt_upper_bound. lia.
  - apply N.mod_lt. lia.
  - rewrite <- N.div_mod by lia. unfold byte_of_N.
    rewrite N.mod_small by lia. rewrite Byte.of_to_N. reflexivity.
Qed.

Lemma to_hex_length (bs : list Byte.byte) :
  String.length (to_hex bs) = (2 * List.length bs)%nat.
Proof. induction bs as [|b bs IH]; simpl; [reflexivity|]. rewrite IH. lia. Qed.

Lemma to_hex_is_hex (bs : list Byte.byte) : hex_string (to_hex bs) = true.
Proof.
  induction bs as [|b bs IH]; simpl; [reflexivity|].
  destruct (byte_nibbles b) as (Hhi & Hlo & _).
  rewrite (proj1 (hex_digit_facts _ Hhi)), (proj1 (hex_digit_facts _ Hlo)), IH.
  reflexivity.
Qed.

Lemma hex_digit_plain (c : ascii) :
  is_hex_digit c = true ->
  Ascii.eqb c "'" = false /\ Ascii.eqb c "000" = false.
Proof.
  destruct c as [[] [] [] [] [] [] [] []]; vm_compute; intros H;
    first [discriminate H | split; reflexivity].
Qed.

Lemma hex_string_plain (s : string) : hex_string s = true -> plain s = true.
Proof.
  induction s as [|c s IH]; simpl; [reflexivity|].
  intros H. apply andb_true_iff in H as [Hc Hs].
  destruct (hex_digit_plain c Hc) as [-> ->]. simpl. apply IH. exact Hs.
Qed.

Lemma randomBytes_length (w : world) (n : nat) :
  List.length (randomBytes w n) = n.
Proof. unfold randomBytes. rewrite length_map. apply length_seq. Qed.

(** X1: decoding the hexadecimal text of a byte sequence gives the
    sequence back, so two different byte sequences never get the same
    identifier. *)
Theorem to_hex_round_trip :
  forall bs : list Byte.byte,
    from_hex (to_hex bs) = bs /\
    (forall bs' : list Byte.byte, to_hex bs = to_hex bs' -> bs = bs').
Proof.
  assert (R : forall bs, from_hex (to_hex bs) = bs).
  { induction bs as [|b bs IH]; [reflexivity|].
    cbn [to_hex from_hex].
    destruct (byte_nibbles b) as (Hhi & Hlo & Hb).
    rewrite (proj2 (hex_digit_facts _ Hhi)), (proj2 (hex_digit_facts _ Hlo)).
    rewrite Hb, IH. reflexivity. }
  intros bs. split; [apply R|].
  intros bs' H. rewrite <- (R bs), <- (R bs'), H. reflexivity.
Qed.

(** X2: whenever a registration succeeds, on either server, the returned
    emailId is 16 lowercase hexadecimal characters and the returned linkId
    is 12; such an id contains neither a quote nor a NUL byte. *)
Theorem registered_ids_are_hex :
  forall (w : world) (d : db) (req : request),
    (forall subject recipient userEmail emailId trackingPixel,
       reply (IndexJs.post_api_emails w d req subject recipient userEmail) =
         Reply 200 [] (EmailCreated emailId trackingPixel) \/
       reply (SqlJsApi.post_api_emails w d req subject recipient userEmail) =
         Reply 200 [] (EmailCreated emailId trackingPixel) ->
       String.length emailId = 16%nat /\
       hex_string emailId = true /\ plain emailId = true) /\
    (forall emailId originalUrl linkId trackedUrl,
       reply (IndexJs.post_api_links w d req emailId originalUrl) =
         Reply 200 [] (LinkCreated linkId trackedUrl) \/
       reply (SqlJsApi.post_api_links w d req emailId originalUrl) =
         Reply 200 [] (LinkCreated linkId trackedUrl) ->
       String.length linkId = 12%nat /\
       hex_string linkId = true /\ plain linkId = true).
Proof.
  intros w d req.
  assert (G : forall n, String.length (to_hex (randomBytes w n)) = (2 * n)%nat /\
                        hex_string (to_hex (randomBytes w n)) = true /\
                        plain (to_hex (randomBytes w n)) = true).
  { intros n. rewrite to_hex_length, randomBytes_length.
    split; [reflexivity|]. split; [apply to_hex_is_hex|].
    apply hex_string_plain, to_hex_is_hex. }
  split.
  - intros subject recipient userEmail emailId url H.
    assert (Hid : emailId = to_hex (randomBytes w 8)).
    { unfold IndexJs.post_api_emails, SqlJsApi.post_api_emails in H.
      destruct (insert_email w d _ subject recipient userEmail);
        cbn [reply] in H; destruct H as [H|H]; congruence. }
    rewrite Hid. apply (G 8%nat).
  - intros emailId originalUrl linkId url H.
    assert (Hid : linkId = to_hex (randomBytes w 6)).
    { unfold IndexJs.post_api_links, SqlJsApi.post_api_links in H.
      destruct H as [H|H];
        destruct (insert_link _ w d _ emailId originalUrl);
        cbn [reply] in H; congruence. }
    rewrite Hid. apply (G 6%nat).
Qed.

(** Registering in the sample database gives the ids the sample bytes
    spell. *)
Lemma registered_ids_are_hex_witness :
  (String.length "2a3b4c5d6e7f90a1" = 16%nat /\
   hex_string "2a3b4c5d6e7f90a1" = true /\ plain "2a3b4c5d6e7f90a1" = true) /\
  (String.length "2a3b4c5d6e7f" = 12%nat /\
   hex_string "2a3b4c5d6e7f" = true /\ plain "2a3b4c5d6e7f" = true).
Proof.
  destruct (registered_ids_are_hex Sample.w0 Sample.d1 Sample.req0) as [He Hl].
  split.
  - apply (He None None (Some "alice@example.com") "2a3b4c5d6e7f90a1"
              "https://tracker.example/t/2a3b4c5d6e7f90a1.png").
    left. vm_compute. reflexivity.
  - apply (Hl None (Some "https://example.org") "2a3b4c5d6e7f"
              "https://tracker.example/c/2a3b4c5d6e7f").
    right. vm_compute. reflexivity.
Defined.

Lemma to_hex_round_trip_witness :
  from_hex "2a3b" = [Byte.x2a; Byte.x3b] /\ [Byte.x2a; Byte.x3b] = from_hex "2a3b".
Proof.
  destruct (to_hex_round_trip [Byte.x2a; Byte.x3b]) as [Hback Hinj].
  split; [exact Hback|].
  apply Hinj. vm_compute. reflexivity.
Defined.

(** ** What a request may do to the database *)

Lemma db_eta (d : db) :
  d = {| emails := emails d; opens := opens d; links := links d; clicks := clicks d |}.
Proof. destruct d; reflexivity. Qed.

Lemma insert_open_delta fk w d emailId a u :
  match insert_open fk w d emailId a u with
  | Ok d' => delta fk w d d'
  | Throw => True
  end.
Proof.
  unfold insert_open. destruct (write_fails w); [exact I|].
  destruct (fk && foreign_keys w && negb (has_email d emailId)) eqn:H; [exact I|].
  apply NewOpen; [reflexivity|]. cbn [o_email_id]. intros Hfk.
  rewrite Hfk in H. simpl in H. apply negb_false_iff in H. exact H.
Qed.

Lemma insert_click_delta fk w d linkId a u :
  match insert_click fk w d linkId a u with
  | Ok d' => delta fk w d d'
  | Throw => True
  end.
Proof.
  unfold insert_click. destruct (write_fails w); [exact I|].
  destruct (fk && foreign_keys w && negb (has_link d linkId)) eqn:H; [exact I|].
  apply NewClick; [reflexivity|]. cbn [c_link_id]. intros Hfk.
  rewrite Hfk in H. simpl in H. apply negb_false_iff in H. exact H.
Qed.

Lemma insert_email_delta fk w d id s r u :
  match insert_email w d id s r u with
  | Ok d' => delta fk w d d'
  | Throw => True
  end.
Proof.
  unfold insert_email. destruct (write_fails w); [exact I|].
  destruct (has_email d id) eqn:H; [exact I|].
  apply NewEmail. exact H.
Qed.

Lemma insert_link_delta fk w d id e u :
  match insert_link fk w d id e u with
  | Ok d' => delta fk w d d'
  | Throw => True
  end.
Proof.
  unfold insert_link. destruct (write_fails w); [exact I|].
  destruct (has_link d id) eqn:H; [exact I|].
  destruct (fk && foreign_keys w && _) eqn:Hfk; [exact I|].
  apply NewLink; [exact H|]. cbn [l_email_id]. intros Hon.
  rewrite Hon in Hfk. simpl in Hfk. destruct e as [e|]; [|exact I].
  apply negb_false_iff in Hfk. exact Hfk.
Qed.

Lemma IndexJs_serve_delta w d req c :
  delta IndexJs.declares_fk w d (store (IndexJsApp.serve w d req c)).
Proof.
  destruct c; cbn [IndexJsApp.serve].
  - unfold IndexJs.get_t_emailId_png.
    match goal with |- context [insert_open ?f ?w ?d ?i ?a ?u] =>
      pose proof (insert_open_delta f w d i a u) as H;
      destruct (insert_open f w d i a u) end; [exact H|apply Same].
  - unfold IndexJs.get_c_linkId.
    destruct (IndexJs.select_link w d linkId) as [[link|]|]; try apply Same.
    match goal with |- context [insert_click ?f ?w ?d ?i ?a ?u] =>
      pose proof (insert_click_delta f w d i a u) as H;
      destruct (insert_click f w d i a u) end; [exact H|apply Same].
  - unfold IndexJs.post_api_emails.
    match goal with |- context [insert_email ?w ?d ?i ?s ?r ?u] =>
      pose proof (insert_email_delta IndexJs.declares_fk w d i s r u) as H;
      destruct (insert_email w d i s r u) end; [exact H|apply Same].
  - unfold IndexJs.post_api_links.
    match goal with |- context [insert_link ?f ?w ?d ?i ?e ?u] =>
      pose proof (insert_link_delta f w d i e u) as H;
      destruct (insert_link f w d i e u) end; [exact H|apply Same].
  - unfold IndexJs.get_api_emails. destruct (read_fails w); apply Same.
  - unfold IndexJs.get_api_emails_emailId. destruct (read_fails w); [apply Same|].
    destruct (head _); apply Same.
  - unfold IndexJs.get_api_stats. destruct (read_fails w); apply Same.
Qed.

Lemma SqlJs_step_delta w d req c d' :
  SqlJsApp.step w d req c = Some d' -> delta SqlJs.declares_fk w d d'.
Proof.
  destruct c; cbn [SqlJsApp.step].
  - intros H. injection H as <-. unfold SqlJs.get_t_emailId_png.
    match goal with |- context [insert_open ?f ?w ?d ?i ?a ?u] =>
      pose proof (insert_open_delta f w d i a u) as H;
      destruct (insert_open f w d i a u) end; [exact H|apply Same].
  - unfold SqlJs.get_c_linkId.
    destruct (SqlJs.exec_where w linkId "") as [cond| |]; cbn [option_map];
      [|intros H; injection H as <-; apply Same|discriminate].
    destruct (select_links cond d) as [|link rest];
      [intros H; injection H as <-; apply Same|].
    match goal with |- context [insert_click ?f ?w ?d ?i ?a ?u] =>
      pose proof (insert_click_delta f w d i a u) as H;
      destruct (insert_click f w d i a u) end;
      cbn [option_map store]; intros H'; injection H' as <-;
      [exact H|apply Same].
  - intros H. injection H as <-. unfold SqlJsApi.post_api_emails.
    match goal with |- context [insert_email ?w ?d ?i ?s ?r ?u] =>
      pose proof (insert_email_delta SqlJs.declares_fk w d i s r u) as H;
      destruct (insert_email w d i s r u) end; [exact H|apply Same].
  - intros H. injection H as <-. unfold SqlJsApi.post_api_links.
    match goal with |- context [insert_link ?f ?w ?d ?i ?e ?u] =>
      pose proof (insert_link_delta f w d i e u) as H;
      destruct (insert_link f w d i e u) end; [exact H|apply Same].
  - unfold SqlJs.get_api_emails.
    destruct (SqlJs.exec_where w userEmail SqlJs.emails_tail) as [cond| |];
      cbn [option_map]; [|intros H; injection H as <-; apply Same|discriminate].
    destruct (select_emails cond d); cbn [option_map store];
      intros H; injection H as <-; apply Same.
  - unfold SqlJs.get_api_emails_emailId.
    destruct (SqlJs.exec_where w emailId "") as [c1| |]; cbn [option_map];
      [|intros H; injection H as <-; apply Same|discriminate].
    destruct (select_email c1 d);
      [cbn [option_map store]; intros H; injection H as <-; apply Same|].
    destruct (SqlJs.exec_where w emailId SqlJs.opens_tail) as [c2| |];
      [|cbn [option_map store]; intros H; injection H as <-; apply Same|discriminate].
    destruct (SqlJs.exec_where w emailId SqlJs.links_tail) as [c3| |];
      [|cbn [option_map store]; intros H; injection H as <-; apply Same|discriminate].
    destruct (SqlJs.exec_where w emailId SqlJs.clicks_tail) as [c4| |];
      [|cbn [option_map store]; intros H; injection H as <-; apply Same|discriminate].
    cbn [option_map store]. intros H; injection H as <-; apply Same.
  - destruct (SqlJsApi.get_api_stats w d userEmail); cbn [option_map];
      [intros H; injection H as <-; apply Same|discriminate].
Qed.

Lemma next_rowid_fresh (ids : list Z) : ~ In (next_rowid ids) ids.
Proof.
  assert (B : forall x, In x ids -> x <= fold_right Z.max 0 ids).
  { induction ids as [|y ids IH]; simpl; [tauto|].
    intros x [->|Hx]; [lia|]. specialize (IH x Hx). lia. }
  intros H. apply B in H. unfold next_rowid in H. lia.
Qed.

Lemma NoDup_snoc_any {A : Type} (l : list A) (x : A) :
  NoDup l -> ~ In x l -> NoDup (l ++ [x]).
Proof.
  intros Hl Hx. apply NoDup_app. split; [exact Hl|]. split.
  - intros y Hy Hy'. apply list_elem_of_In in Hy.
    apply list_elem_of_singleton in Hy'. subst y. contradiction.
  - apply NoDup_singleton.
Qed.

Lemma delta_grows fk w d d' :
  delta fk w d d' -> grows d d' /\ (rows d' <= rows d + 1)%nat.
Proof.
  intros H. unfold grows, rows.
  destruct H; cbn [emails opens links clicks]; rewrite ?length_app; simpl;
    (split; [repeat split; first [reflexivity | apply prefix_app_r; reflexivity]|lia]).
Qed.

Lemma delta_keys fk w d d' :
  delta fk w d d' -> keys_unique d -> keys_unique d'.
Proof.
  intros H (He & Hl & Ho & Hc). unfold keys_unique.
  destruct H as [|row Hid _|row Hid _|row Hfresh|row Hfresh _];
    cbn [emails opens links clicks]; rewrite ?map_app; cbn [map];
    repeat split; try assumption.
  - apply NoDup_snoc_any; [exact Ho|]. rewrite Hid. apply next_rowid_fresh.
  - apply NoDup_snoc_any; [exact Hc|]. rewrite Hid. apply next_rowid_fresh.
  - apply NoDup_snoc_any; [exact He|]. apply has_email_false. exact Hfresh.
  - apply NoDup_snoc_any; [exact Hl|]. apply has_link_false. exact Hfresh.
Qed.

Lemma has_email_more (d d' : db) (id : string) :
  emails d `prefix_of` emails d' ->
  has_email d id = true -> has_email d' id = true.
Proof.
  intros [k Hk]. unfold has_email. rewrite Hk, existsb_app. intros ->. reflexivity.
Qed.

Lemma has_link_more (d d' : db) (id : string) :
  links d `prefix_of` links d' ->
  has_link d id = true -> has_link d' id = true.
Proof.
  intros [k Hk]. unfold has_link. rewrite Hk, existsb_app. intros ->. reflexivity.
Qed.

Lemma references_carry (d d' : db) :
  grows d d' -> references_hold d ->
  Forall (fun o => has_email d' (o_email_id o) = true) (opens d) /\
  Forall (fun l => match l_email_id l with
                   | Some e => has_email d' e = true
                   | None => True
                   end) (links d) /\
  Forall (fun c => has_link d' (c_link_id c) = true) (clicks d).
Proof.
  intros (He & _ & Hl & _) (Ro & Rl & Rc). repeat split.
  - eapply List.Forall_impl; [|exact Ro]. intros o. apply has_email_more. exact He.
  - eapply List.Forall_impl; [|exact Rl]. intros l. cbv beta.
    destruct (l_email_id l); [apply has_email_more; exact He|auto].
  - eapply List.Forall_impl; [|exact Rc]. intros c. apply has_link_more. exact Hl.
Qed.

Lemma delta_references fk w d d' :
  delta fk w d d' -> fk && foreign_keys w = true ->
  references_hold d -> references_hold d'.
Proof.
  intros H Hfk R.
  destruct (references_carry d d' (proj1 (delta_grows fk w d d' H)) R)
    as (Co & Cl & Cc).
  assert (Hg := proj1 (delta_grows fk w d d' H)).
  destruct Hg as (Ge & _ & Gl & _).
  unfold references_hold.
  destruct H as [|row _ Hrow|row _ Hrow|row _|row _ Hrow];
    cbn [emails opens links clicks] in *;
    repeat split; try assumption.
  - apply Forall_app. split; [exact Co|]. constructor; [|constructor].
    apply Hrow. exact Hfk.
  - apply Forall_app. split; [exact Cc|]. constructor; [|constructor].
    apply Hrow. exact Hfk.
  - apply Forall_app. split; [exact Cl|]. constructor; [|constructor].
    specialize (Hrow Hfk). destruct (l_email_id row); [|exact I].
    unfold has_email in *. exact Hrow.
Qed.

Lemma grows_refl (d : db) : grows d d.
Proof. unfold grows. repeat split; reflexivity. Qed.

Lemma grows_trans (a b c : db) : grows a b -> grows b c -> grows a c.
Proof.
  intros (E1 & O1 & L1 & C1) (E2 & O2 & L2 & C2). unfold grows.
  repeat split; etransitivity; eassumption.
Qed.

Lemma keys_unique_empty : keys_unique empty_db.
Proof. unfold keys_unique, empty_db. simpl. repeat split; apply NoDup_nil_2. Qed.

(** X5: with the connection enforcing foreign keys during every request of
    a run, [src/index.js] keeps every reference valid: if at the start
    every open and link names a stored email (or NULL) and every click a
    stored link, the same holds at the end. *)
Theorem references_stay_valid :
  forall (calls : list (world * request * call)) (d : db),
    Forall (fun x => foreign_keys (fst (fst x)) = true) calls ->
    references_hold d ->
    references_hold (IndexJsApp.run calls d).
Proof.
  induction calls as [|[[w req] c] rest IH]; intros d F R; simpl; [exact R|].
  inversion F as [|x l Hw Hrest]; subst. simpl in Hw.
  apply IH; [exact Hrest|].
  eapply delta_references; [apply IndexJs_serve_delta| |exact R].
  rewrite Hw. reflexivity.
Qed.

Lemma references_stay_valid_witness :
  references_hold
    (IndexJsApp.run
       [ (Sample.w0, Sample.req0, GET_t "ffffffffffffffff");
         (Sample.w0, Sample.req0, GET_t "0011223344556677");
         (Sample.w0, Sample.req0, POST_api_links (Some "0000000000000000") None);
         (Sample.w0, Sample.req0, GET_c "a1b2c3d4e5f6") ] Sample.d1).
Proof.
  apply references_stay_valid.
  - repeat constructor.
  - unfold references_hold. simpl. repeat constructor.
Defined.

(** X6: the sql.js server stores what it is given: a pixel fetch for an
    emailId that no email has, when the INSERT does not raise, appends the
    open and leaves the database with a dangling reference; so does the
    registration of a link for such an emailId. *)
Theorem sql_js_stores_dangling_rows :
  forall (w : world) (d : db) (req : request) (emailId : string),
    write_fails w = false ->
    has_email d emailId = false ->
    let after_fetch := store (SqlJs.get_t_emailId_png w d req emailId) in
    (exists row, opens after_fetch = (opens d ++ [row])%list /\
                 o_email_id row = emailId) /\
    ~ references_hold after_fetch /\
    forall originalUrl,
      has_link d (to_hex (randomBytes w 6)) = false ->
      let posted := SqlJsApi.post_api_links w d req (Some emailId) originalUrl in
      status_of (reply posted) = 200 /\
      ~ references_hold (store posted).
Proof.
  intros w d req emailId Hw Hno after_fetch.
  subst after_fetch. unfold SqlJs.get_t_emailId_png, insert_open.
  rewrite Hw. cbn [SqlJs.declares_fk andb store opens]. split; [|split].
  - eexists. split; reflexivity.
  - intros (Ro & _ & _). cbn [opens] in Ro.
    apply Forall_app in Ro as [_ Ro]. inversion Ro as [|? ? Hrow _]; subst.
    cbn [o_email_id] in Hrow. unfold has_email in Hrow, Hno.
    cbn [emails] in Hrow. congruence.
  - intros originalUrl Hfresh.
    unfold SqlJsApi.post_api_links, insert_link.
    rewrite Hw, Hfresh. cbn [SqlJs.declares_fk andb store reply status_of links].
    split; [reflexivity|].
    intros (_ & Rl & _). cbn [links] in Rl.
    apply Forall_app in Rl as [_ Rl]. inversion Rl as [|? ? Hrow _]; subst.
    cbn [l_email_id] in Hrow. unfold has_email in Hrow, Hno.
    cbn [emails] in Hrow. congruence.
Qed.

Lemma sql_js_stores_dangling_rows_witness :
  ~ references_hold
      (store (SqlJs.get_t_emailId_png Sample.w0 Sample.d1 Sample.req0
                "ffffffffffffffff")).
Proof.
  apply (sql_js_stores_dangling_rows Sample.w0 Sample.d1 Sample.req0
           "ffffffffffffffff" eq_refl eq_refl).
Defined.

(** ** Refusals and failures *)

(** What [res.send] and [res.json] make of a reply on which the handler
    set no header: only a 2xx can turn into 304. *)
Lemma send_bare_reply (a : Express.app) (m : Express.method) (req : request)
    (status : Z) (body : payload) :
  status = 200 \/ status = 404 \/ status = 500 ->
  exists sent : response,
    Express.send a m req (Reply status [] body) = Some sent /\
    (status_of sent = status /\ body_of sent = Some body \/
     status = 200 /\ m = Express.GET /\ status_of sent = 304).
Proof.
  intros Hst. unfold Express.send, Express.res_send.
  cbn [Express.has_header existsb]. rewrite andb_false_r.
  assert (H205 : (status =? 205) = false) by (destruct Hst as [->|[->| ->]]; reflexivity).
  rewrite H205. cbn [orb].
  match goal with |- context [Express.req_fresh a m status req ?t] =>
    destruct (Express.req_fresh a m status req t) eqn:Hfresh end.
  - eexists. split; [reflexivity|]. right.
    unfold Express.req_fresh in Hfresh. destruct m; [|discriminate].
    destruct Hst as [->|[->| ->]]; [auto|discriminate|discriminate].
  - assert (H2 : (status =? 204) || (status =? 304) = false)
      by (destruct Hst as [->|[->| ->]]; reflexivity).
    rewrite H2. eexists. split; [reflexivity|]. left. split; reflexivity.
Qed.

Lemma IndexJs_serve_reply (w : world) (d : db) (req : request) (c : call) :
  let e := IndexJsApp.serve w d req c in
  handler_reply (reply e) /\
  (400 <= status_of (reply e) -> store e = d) /\
  (status_of (reply e) = 500 -> exists line, console e = [line]) /\
  match c with
  | GET_api_emails _ | GET_api_emails_id _ | GET_api_stats _ => store e = d
  | _ => True
  end.
Proof.
  intros e. subst e. destruct c; cbn [IndexJsApp.serve].
  - unfold IndexJs.get_t_emailId_png.
    destruct insert_open; cbn [reply store console];
      (split; [apply PixelReply; reflexivity|]);
      unfold pixel_reply; cbn; intuition lia.
  - unfold IndexJs.get_c_linkId, click_failed, link_not_found.
    destruct (IndexJs.select_link w d linkId) as [[link|]|];
      try match goal with |- context [insert_click ?f ?w ?d ?i ?a ?u] =>
            destruct (insert_click f w d i a u) end;
      cbn [reply store console];
      (split; [first [eapply RedirectReply; reflexivity
                     |eapply BareReply; [reflexivity|auto]]|]);
      cbn; intuition (try lia; eauto).
  - unfold IndexJs.post_api_emails. destruct insert_email; cbn [reply store console];
      (split; [eapply BareReply; [reflexivity|auto]|]);
      cbn; intuition (try lia; eauto).
  - unfold IndexJs.post_api_links. destruct insert_link; cbn [reply store console];
      (split; [eapply BareReply; [reflexivity|auto]|]);
      cbn; intuition (try lia; eauto).
  - unfold IndexJs.get_api_emails, emails_failed. destruct (read_fails w);
      cbn [reply store console];
      (split; [eapply BareReply; [reflexivity|auto]|]);
      cbn; intuition (try lia; eauto).
  - unfold IndexJs.get_api_emails_emailId, detail_failed, email_not_found.
    destruct (read_fails w); [|destruct (head _)]; cbn [reply store console];
      (split; [eapply BareReply; [reflexivity|auto]|]);
      cbn; intuition (try lia; eauto).
  - unfold IndexJs.get_api_stats. destruct (read_fails w); cbn [reply store console];
      (split; [eapply BareReply; [reflexivity|auto]|]);
      cbn; intuition (try lia; eauto).
Qed.

(** X7: in [src/index.js] a request that is answered, on the wire, with an
    error status (404 or 500) leaves the database exactly as it was, every
    500 comes with one line on the console, the three GET /api routes never
    change the database whatever they answer, and an error reply of a
    handler goes out with the handler's status and body whatever
    validators the request carries: Express turns only a 200 into 304. *)
Theorem refused_requests_change_nothing :
  forall (a : Express.app) (w : world) (d : db) (req : request) (c : call),
    let e := IndexJsApp.serve w d req c in
    exists sent : response,
      Express.send a (method_of c) req (reply e) = Some sent /\
      (400 <= status_of sent -> store e = d) /\
      (status_of sent = 500 -> exists line, console e = [line]) /\
      match c with
      | GET_api_emails _ | GET_api_emails_id _ | GET_api_stats _ => store e = d
      | _ => True
      end /\
      (400 <= status_of (reply e) ->
       status_of sent = status_of (reply e) /\
       body_of sent = body_of (reply e)) /\
      (status_of sent = 304 -> status_of (reply e) = 200).
Proof.
  intros a w d req c e.
  destruct (IndexJs_serve_reply w d req c) as (Hshape & Herr & Hlog & Hget).
  fold e in Hshape, Herr, Hlog, Hget.
  destruct Hshape as [Hr|location Hr|status body Hr Hst].
  - assert (Hm : method_of c = Express.GET).
    { destruct c; try reflexivity; exfalso; subst e; cbn [IndexJsApp.serve] in Hr.
      - unfold IndexJs.post_api_emails in Hr. destruct insert_email; discriminate Hr.
      - unfold IndexJs.post_api_links in Hr. destruct insert_link; discriminate Hr. }
    rewrite Hr, Hm in *. pose proof (send_pixel_reply a req) as Hs. cbv zeta in Hs.
    eexists. split; [exact Hs|].
    destruct (Express.fresh a req _); cbn [status_of body_of pixel_reply] in *;
      repeat split; try exact Hget; intros; try lia; try reflexivity.
  - rewrite Hr in *. cbn [Express.send status_of body_of] in *.
    eexists. split; [reflexivity|]. cbn [status_of body_of].
    repeat split; try exact Hget; intros; try lia; try reflexivity.
  - rewrite Hr in *.
    destruct (send_bare_reply a (method_of c) req status body Hst)
      as (sent & Hs & Hcase).
    exists sent. split; [exact Hs|]. cbn [status_of body_of] in *.
    destruct Hcase as [[Hs1 Hs2]|(H200 & _ & H304)].
    + rewrite Hs1, Hs2. repeat split; try exact Hget; auto.
      intros H. rewrite H in Hst. destruct Hst as [Hst|[Hst|Hst]]; discriminate Hst.
    + rewrite H304, H200. repeat split; try exact Hget; intros; try lia; reflexivity.
Qed.

(** A click on an unknown link, revalidated or not, and a registration
    whose INSERT raises. *)
Lemma refused_requests_change_nothing_witness :
  store (IndexJsApp.serve Sample.w0 Sample.d1 Conditional.any_match
           (GET_c "ffffffffffff")) = Sample.d1 /\
  exists line,
    console (IndexJsApp.serve Sample.w_write_fails Sample.d1 Sample.req0
               (POST_api_emails None None None)) = [line].
Proof.
  split.
  - destruct (refused_requests_change_nothing Conditional.express Sample.w0
                Sample.d1 Conditional.any_match (GET_c "ffffffffffff"))
      as (sent & Hs & Herr & _).
    apply Herr. vm_compute in Hs. injection Hs as <-. vm_compute. discriminate.
  - destruct (refused_requests_change_nothing Conditional.express
                Sample.w_write_fails Sample.d1 Sample.req0
                (POST_api_emails None None None))
      as (sent & Hs & _ & Hlog & _).
    apply Hlog. vm_compute in Hs. injection Hs as <-. reflexivity.
Defined.

Lemma no_email_no_rows (d : db) (id : string) :
  has_email d id = false ->
  List.filter (fun e => eq_param id (Some (e_id e))) (emails d) = [].
Proof.
  unfold has_email. induction (emails d) as [|e l IH]; [reflexivity|].
  cbn [existsb List.filter eq_param]. intros H.
  apply orb_false_iff in H as [He Hl]. rewrite He. apply IH. exact Hl.
Qed.

Lemma no_link_no_rows (d : db) (id : string) :
  has_link d id = false ->
  List.filter (fun l => eq_param id (Some (l_id l))) (links d) = [].
Proof.
  unfold has_link. induction (links d) as [|e l IH]; [reflexivity|].
  cbn [existsb List.filter eq_param]. intros H.
  apply orb_false_iff in H as [He Hl]. rewrite He. apply IH. exact Hl.
Qed.

Lemma some_email_some_row (d : db) (id : string) :
  has_email d id = true ->
  exists e, head (List.filter (fun e => eq_param id (Some (e_id e))) (emails d)) = Some e.
Proof.
  unfold has_email. induction (emails d) as [|e l IH]; [discriminate|].
  cbn [existsb List.filter eq_param]. destruct (String.eqb (e_id e) id); simpl.
  - eauto.
  - exact IH.
Qed.

Lemma some_link_some_row (d : db) (id : string) :
  has_link d id = true ->
  exists l, head (List.filter (fun l => eq_param id (Some (l_id l))) (links d)) = Some l.
Proof.
  unfold has_link. induction (links d) as [|e l IH]; [discriminate|].
  cbn [existsb List.filter eq_param]. destruct (String.eqb (l_id e) id); simpl.
  - eauto.
  - exact IH.
Qed.

(** X8: with the lookup not raising, [src/index.js] answers
    GET /api/emails/{id} with 404 "Email not found" exactly when no email
    has that id, and GET /c/{id} with 404 "Link not found" exactly when no
    link has that id; an id that is found is never answered with 404. *)
Theorem not_found_means_no_row :
  forall (w : world) (d : db) (req : request) (id : string),
    read_fails w = false ->
    (has_email d id = false <->
     IndexJs.get_api_emails_emailId w d id =
       {| store := d;
          reply := Reply 404 [] (ErrorJson "Email not found");
          console := [] |}) /\
    (has_link d id = false <->
     IndexJs.get_c_linkId w d req id =
       {| store := d;
          reply := Reply 404 [] (Text "Link not found");
          console := [] |}).
Proof.
  intros w d req id Hr. split; split.
  - intros H. unfold IndexJs.get_api_emails_emailId, select_email.
    rewrite Hr, (no_email_no_rows d id H). reflexivity.
  - destruct (has_email d id) eqn:H; [|reflexivity].
    destruct (some_email_some_row d id H) as [e He].
    unfold IndexJs.get_api_emails_emailId, select_email. rewrite Hr, He.
    discriminate.
  - intros H. unfold IndexJs.get_c_linkId, IndexJs.select_link, select_links.
    rewrite Hr, (no_link_no_rows d id H). reflexivity.
  - destruct (has_link d id) eqn:H; [|reflexivity].
    destruct (some_link_some_row d id H) as [l Hl].
    unfold IndexJs.get_c_linkId, IndexJs.select_link, select_links.
    rewrite Hr, Hl. destruct insert_click; discriminate.
Qed.

Lemma not_found_means_no_row_witness :
  IndexJs.get_api_emails_emailId Sample.w0 Sample.d1 "ffffffffffffffff" =
    {| store := Sample.d1;
       reply := Reply 404 [] (ErrorJson "Email not found");
       console := [] |} /\
  has_link Sample.d1 "ffffffffffff" = false.
Proof.
  destruct (not_found_means_no_row Sample.w0 Sample.d1 Sample.req0
              "ffffffffffffffff" eq_refl) as [He _].
  destruct (not_found_means_no_row Sample.w0 Sample.d1 Sample.req0
              "ffffffffffff" eq_refl) as [_ Hl].
  split; [apply He; reflexivity|apply Hl; reflexivity].
Defined.

Lemma post_email_taken (w : world) (d : db) (req : request)
    (subject recipient userEmail : option string) :
  has_email d (to_hex (randomBytes w 8)) = true ->
  IndexJs.post_api_emails w d req subject recipient userEmail =
    {| store := d;
       reply := Reply 500 [] (ErrorJson "Failed to create email");
       console := ["Error creating email:"] |} /\
  SqlJsApi.post_api_emails w d req subject recipient userEmail =
    {| store := d;
       reply := Reply 500 [] (ErrorJson "Failed to create email");
       console := ["Error creating email:"] |}.
Proof.
  intros H. unfold IndexJs.post_api_emails, SqlJsApi.post_api_emails, insert_email.
  rewrite H. destruct (write_fails w); split; reflexivity.
Qed.

Lemma post_email_registers (w : world) (d : db) (req : request)
    (subject recipient userEmail : option string) :
  status_of (reply (IndexJs.post_api_emails w d req subject recipient userEmail)) = 200 ->
  emails (store (IndexJs.post_api_emails w d req subject recipient userEmail)) =
    (emails d ++
     [{| e_id := to_hex (randomBytes w 8); e_subject := subject;
         e_recipient := recipient; e_sent_at := now w;
         e_user_email := userEmail |}])%list /\
  has_email d (to_hex (randomBytes w 8)) = false /\
  has_email (store (IndexJs.post_api_emails w d req subject recipient userEmail))
    (to_hex (randomBytes w 8)) = true.
Proof.
  unfold IndexJs.post_api_emails, insert_email.
  destruct (write_fails w); [cbn; discriminate|].
  destruct (has_email d (to_hex (randomBytes w 8))) eqn:Hfresh; [cbn; discriminate|].
  cbn [reply status_of store emails]. intros _. repeat split.
  unfold has_email. cbn [emails]. rewrite existsb_app. cbn [existsb e_id].
  rewrite String.eqb_refl. apply orb_true_iff. right. reflexivity.
Qed.

(** X9: a registration whose generated id is already taken stores nothing
    and answers 500, on either server; in particular, registering again
    with the same random bytes after a successful registration fails,
    whatever the other fields. *)
Theorem registration_collision_answers_500 :
  forall (w : world) (d : db) (req : request)
         (subject recipient userEmail : option string),
    let taken (d0 : db) :=
      {| store := d0;
         reply := Reply 500 [] (ErrorJson "Failed to create email");
         console := ["Error creating email:"] |} in
    (has_email d (to_hex (randomBytes w 8)) = true ->
     IndexJs.post_api_emails w d req subject recipient userEmail = taken d /\
     SqlJsApi.post_api_emails w d req subject recipient userEmail = taken d) /\
    (forall (w' : world) (req' : request) (s' r' u' : option string),
       (forall i, entropy w' i = entropy w i) ->
       status_of (reply (IndexJs.post_api_emails w d req subject recipient
                           userEmail)) = 200 ->
       IndexJs.post_api_emails w'
         (store (IndexJs.post_api_emails w d req subject recipient userEmail))
         req' s' r' u' =
       taken (store (IndexJs.post_api_emails w d req subject recipient
                       userEmail))).
Proof.
  intros w d req subject recipient userEmail taken. split.
  - apply post_email_taken.
  - intros w' req' s' r' u' Hent Hok.
    assert (Hbytes : randomBytes w' 8 = randomBytes w 8).
    { unfold randomBytes. apply map_ext. exact Hent. }
    apply post_email_taken. rewrite Hbytes.
    apply (post_email_registers w d req subject recipient userEmail Hok).
Qed.

Lemma registration_collision_answers_500_witness :
  status_of
    (reply (IndexJs.post_api_emails Sample.w0
              (store (IndexJs.post_api_emails Sample.w0 Sample.d1 Sample.req0
                        None None (Some "alice@example.com")))
              Sample.req1 (Some "Again") None (Some "bob@example.com"))) = 500.
Proof.
  rewrite (proj2 (registration_collision_answers_500 Sample.w0 Sample.d1
                    Sample.req0 None None (Some "alice@example.com"))
             Sample.w0 Sample.req1 (Some "Again") None (Some "bob@example.com")
             (fun _ => eq_refl) eq_refl).
  reflexivity.
Defined.

(** X10: with foreign keys enforced, [src/index.js] refuses what names an
    unknown email: registering a link for an emailId that no email has
    answers 500 and stores nothing, and a pixel fetch for it sends the
    pixel, logs the failure and stores nothing; a link registered with no
    emailId at all (NULL) is accepted when its id is free and the INSERT
    does not raise. *)
Theorem index_js_refuses_unknown_email :
  forall (w : world) (d : db) (req : request) (emailId : string)
         (originalUrl : option string),
    foreign_keys w = true ->
    (has_email d emailId = false ->
     IndexJs.post_api_links w d req (Some emailId) originalUrl =
       {| store := d;
          reply := Reply 500 [] (ErrorJson "Failed to create link");
          console := ["Error creating link:"] |} /\
     IndexJs.get_t_emailId_png w d req emailId =
       {| store := d; reply := pixel_reply;
          console := ["Error logging open:"] |}) /\
    (write_fails w = false ->
     has_link d (to_hex (randomBytes w 6)) = false ->
     status_of (reply (IndexJs.post_api_links w d req None originalUrl)) = 200 /\
     exists row,
       links (store (IndexJs.post_api_links w d req None originalUrl)) =
         (links d ++ [row])%list /\
       l_email_id row = None /\ l_original_url row = originalUrl).
Proof.
  intros w d req emailId originalUrl Hfk. split.
  - intros Hno. split.
    + unfold IndexJs.post_api_links, insert_link.
      destruct (write_fails w); [reflexivity|].
      destruct (has_link d _); [reflexivity|].
      rewrite Hfk, Hno. reflexivity.
    + unfold IndexJs.get_t_emailId_png, insert_open.
      destruct (write_fails w); [reflexivity|].
      rewrite Hfk, Hno. reflexivity.
  - intros Hw Hfresh. unfold IndexJs.post_api_links, insert_link.
    rewrite Hw, Hfresh, Hfk. cbn. split; [reflexivity|].
    eexists. repeat split.
Qed.

Lemma index_js_refuses_unknown_email_witness :
  status_of (reply (IndexJs.post_api_links Sample.w0 Sample.d1 Sample.req0
                      (Some "ffffffffffffffff") (Some "https://example.org"))) = 500 /\
  status_of (reply (IndexJs.post_api_links Sample.w0 Sample.d1 Sample.req0
                      None (Some "https://example.org"))) = 200.
Proof.
  destruct (index_js_refuses_unknown_email Sample.w0 Sample.d1 Sample.req0
              "ffffffffffffffff" (Some "https://example.org") eq_refl)
    as [Hrefused Hnull].
  split.
  - rewrite (proj1 (Hrefused eq_refl)). reflexivity.
  - apply Hnull; reflexivity.
Defined.

(** ** Registration, then tracking *)

Lemma post_link_registers (fk : bool) (w : world) (d : db) (id : string)
    (emailId originalUrl : option string) (d1 : db) :
  insert_link fk w d id emailId originalUrl = Ok d1 ->
  has_link d id = false /\
  emails d1 = emails d /\
  links d1 =
    (links d ++
     [{| l_id := id; l_email_id := emailId; l_original_url := originalUrl;
         l_created_at := now w |}])%list.
Proof.
  unfold insert_link. destruct (write_fails w); [discriminate|].
  destruct (has_link d id) eqn:Hfresh; [discriminate|].
  destruct (fk && foreign_keys w && _); [discriminate|].
  intros H. injection H as <-. repeat split.
Qed.

Lemma click_on_last_link (w : world) (d d1 : db) (req : request) (row : link_row) :
  links d1 = (links d ++ [row])%list ->
  has_link d (l_id row) = false ->
  read_fails w = false -> write_fails w = false ->
  reply (IndexJs.get_c_linkId w d1 req (l_id row)) =
    Redirect 302 (l_original_url row) /\
  exists click,
    clicks (store (IndexJs.get_c_linkId w d1 req (l_id row))) =
      (clicks d1 ++ [click])%list /\
    c_link_id click = l_id row.
Proof.
  intros Hlinks Hfresh Hr Hw.
  unfold IndexJs.get_c_linkId, IndexJs.select_link, select_links.
  rewrite Hr, Hlinks, List.filter_app, (no_link_no_rows d _ Hfresh).
  cbn [List.filter eq_param app]. rewrite String.eqb_refl. cbn [head].
  rewrite insert_click_ok; [cbn; split; [reflexivity|eexists; split; reflexivity]|exact Hw|].
  assert (Hin : has_link d1 (l_id row) = true).
  { unfold has_link. rewrite Hlinks, existsb_app. cbn [existsb].
    rewrite String.eqb_refl. apply orb_true_iff. right. reflexivity. }
  rewrite Hin. apply andb_false_r.
Qed.

(** X11: a link that was registered is the link a click follows: after a
    successful POST /api/links, on either server, the response names the
    id and the tracked URL base + "/c/" + id, and a GET /c/{id} on the
    resulting database, with storage up, redirects (302) to exactly the
    originalUrl that was registered and appends one Click row for that
    id. *)
Theorem registered_link_round_trip :
  forall (w w' : world) (d : db) (req req' : request)
         (emailId originalUrl : option string),
    read_fails w' = false ->
    write_fails w' = false ->
    let id := to_hex (randomBytes w 6) in
    (let e := IndexJs.post_api_links w d req emailId originalUrl in
     status_of (reply e) = 200 ->
     reply e =
       Reply 200 [] (LinkCreated id (IndexJs.getBaseUrl w req ++ "/c/" ++ id)) /\
     reply (IndexJs.get_c_linkId w' (store e) req' id) =
       Redirect 302 originalUrl /\
     exists click,
       clicks (store (IndexJs.get_c_linkId w' (store e) req' id)) =
         (clicks (store e) ++ [click])%list /\
       c_link_id click = id) /\
    (let e := SqlJsApi.post_api_links w d req emailId originalUrl in
     status_of (reply e) = 200 ->
     reply e =
       Reply 200 [] (LinkCreated id (SqlJs.getBaseUrl w req ++ "/c/" ++ id)) /\
     exists e2,
       SqlJs.get_c_linkId w' (store e) req' id = Some e2 /\
       reply e2 = Redirect 302 originalUrl /\
       exists click,
         clicks (store e2) = (clicks (store e) ++ [click])%list /\
         c_link_id click = id).
Proof.
  intros w w' d req req' emailId originalUrl Hr Hw id. split.
  - cbv zeta. unfold IndexJs.post_api_links. fold id.
    destruct (insert_link IndexJs.declares_fk w d id emailId originalUrl)
      as [d1|] eqn:Hins; [|cbn; discriminate].
    cbn [reply store status_of]. intros _. split; [reflexivity|].
    destruct (post_link_registers _ _ _ _ _ _ _ Hins) as (Hfresh & _ & Hlinks).
    apply (click_on_last_link w' d d1 req' _ Hlinks Hfresh Hr Hw).
  - cbv zeta. unfold SqlJsApi.post_api_links. fold id.
    destruct (insert_link SqlJs.declares_fk w d id emailId originalUrl)
      as [d1|] eqn:Hins; [|cbn; discriminate].
    cbn [reply store status_of]. intros _. split; [reflexivity|].
    destruct (post_link_registers _ _ _ _ _ _ _ Hins) as (Hfresh & _ & Hlinks).
    exists (IndexJs.get_c_linkId w' d1 req' id). split.
    + apply SqlJs_click_plain. apply hex_string_plain, to_hex_is_hex.
    + apply (click_on_last_link w' d d1 req' _ Hlinks Hfresh Hr Hw).
Qed.

Lemma registered_link_round_trip_witness :
  reply (IndexJs.get_c_linkId Sample.w0
           (store (IndexJs.post_api_links Sample.w0 Sample.d1 Sample.req0
                     (Some "0011223344556677") (Some "https://example.org")))
           Sample.req1 "2a3b4c5d6e7f") =
  Redirect 302 (Some "https://example.org").
Proof.
  apply (proj1 (registered_link_round_trip Sample.w0 Sample.w0 Sample.d1
                  Sample.req0 Sample.req1 (Some "0011223344556677")
                  (Some "https://example.org") eq_refl eq_refl)).
  reflexivity.
Defined.

Lemma detail_of_last_email (w : world) (d d1 : db) (row : email_row) :
  emails d1 = (emails d ++ [row])%list ->
  has_email d (e_id row) = false ->
  read_fails w = false ->
  exists detail,
    reply (IndexJs.get_api_emails_emailId w d1 (e_id row)) =
      Reply 200 [] (EmailDetail detail) /\
    d_email detail = row.
Proof.
  intros Hemails Hfresh Hr.
  unfold IndexJs.get_api_emails_emailId, select_email.
  rewrite Hr, Hemails, List.filter_app, (no_email_no_rows d _ Hfresh).
  cbn [List.filter eq_param app]. rewrite String.eqb_refl. cbn [head].
  eexists. split; reflexivity.
Qed.

(** X12: an email that was registered is the email the detail route
    returns: after a successful POST /api/emails on [src/index.js], the
    response names the id and the pixel URL base + "/t/" + id + ".png";
    GET /api/emails/{id} on the resulting database, with reads up, answers
    200 with exactly the registered subject, recipient and owner, stamped
    with the time of the registration; and a pixel fetch for that id is
    accepted, foreign keys enforced or not, whenever its INSERT does not
    raise. *)
Theorem registered_email_round_trip :
  forall (w w' : world) (d : db) (req req' : request)
         (subject recipient userEmail : option string),
    let e := IndexJs.post_api_emails w d req subject recipient userEmail in
    let id := to_hex (randomBytes w 8) in
    status_of (reply e) = 200 ->
    reply e =
      Reply 200 []
        (EmailCreated id (IndexJs.getBaseUrl w req ++ "/t/" ++ id ++ ".png")) /\
    (read_fails w' = false ->
     exists detail,
       reply (IndexJs.get_api_emails_emailId w' (store e) id) =
         Reply 200 [] (EmailDetail detail) /\
       d_email detail =
         {| e_id := id; e_subject := subject; e_recipient := recipient;
            e_sent_at := now w; e_user_email := userEmail |}) /\
    (write_fails w' = false ->
     exists row,
       opens (store (IndexJs.get_t_emailId_png w' (store e) req' id)) =
         (opens (store e) ++ [row])%list /\
       o_email_id row = id /\ o_opened_at row = now w').
Proof.
  intros w w' d req req' subject recipient userEmail e id Hok.
  destruct (post_email_registers w d req subject recipient userEmail Hok)
    as (Hemails & Hfresh & Hin).
  fold e in Hemails, Hin. fold id in Hemails, Hfresh, Hin.
  split; [|split].
  - subst e. unfold IndexJs.post_api_emails in *. fold id in Hok |- *.
    destruct (insert_email w d id subject recipient userEmail);
      [reflexivity|cbn in Hok; discriminate].
  - intros Hr.
    apply (detail_of_last_email w' d (store e)
             {| e_id := id; e_subject := subject; e_recipient := recipient;
                e_sent_at := now w; e_user_email := userEmail |}
             Hemails Hfresh Hr).
  - intros Hw. unfold IndexJs.get_t_emailId_png, insert_open.
    rewrite Hw, Hin. rewrite andb_false_r. cbn.
    eexists. repeat split.
Qed.

Lemma registered_email_round_trip_witness :
  exists detail,
    reply (IndexJs.get_api_emails_emailId Sample.w0
             (store (IndexJs.post_api_emails Sample.w0 Sample.d1 Sample.req0
                       (Some "Hi") None (Some "carol@example.com")))
             "2a3b4c5d6e7f90a1") = Reply 200 [] (EmailDetail detail) /\
    d_email detail =
      {| e_id := "2a3b4c5d6e7f90a1"; e_subject := Some "Hi";
         e_recipient := None; e_sent_at := Sample.t0;
         e_user_email := Some "carol@example.com" |}.
Proof.
  destruct (registered_email_round_trip Sample.w0 Sample.w0 Sample.d1
              Sample.req0 Sample.req0 (Some "Hi") None
              (Some "carol@example.com") eq_refl) as (_ & Hdetail & _).
  apply Hdetail. reflexivity.
Defined.

(** ** Tracking, then statistics *)

Lemma filter_absent {A : Type} (key : A -> string) (l : list A) (k : string) :
  ~ In k (map key l) ->
  List.filter (fun y => String.eqb k (key y)) l = [].
Proof.
  induction l as [|z l IH]; intros H; [reflexivity|]. cbn [List.filter].
  destruct (String.eqb k (key z)) eqn:Hz.
  - apply String.eqb_eq in Hz. exfalso. apply H. left. congruence.
  - apply IH. intros Hin. apply H. right. exact Hin.
Qed.

Lemma filter_unique {A : Type} (key : A -> string) (l : list A) (x : A) :
  NoDup (map key l) -> In x l ->
  List.filter (fun y => String.eqb (key x) (key y)) l = [x].
Proof.
  induction l as [|y l IH]; intros Hnd Hin; [destruct Hin|].
  simpl in Hnd. apply NoDup_cons in Hnd as [Hy Hnd].
  rewrite list_elem_of_In in Hy. cbn [List.filter].
  destruct Hin as [->|Hin].
  - rewrite String.eqb_refl. f_equal. apply filter_absent. exact Hy.
  - destruct (String.eqb (key x) (key y)) eqn:Hxy.
    + apply String.eqb_eq in Hxy. exfalso. apply Hy. rewrite <- Hxy.
      apply in_map. exact Hin.
    + apply IH; assumption.
Qed.

Lemma has_email_In_row (d : db) (email : email_row) :
  In email (emails d) -> has_email d (e_id email) = true.
Proof.
  intros H. unfold has_email. apply existsb_exists. exists email.
  split; [exact H|apply String.eqb_refl].
Qed.

Lemma join_snoc {A B : Type} (l : list A) (a : A) (r : list B)
    (on : A -> B -> bool) :
  join (l ++ [a]) r on = (join l r on ++ map (pair a) (List.filter (on a) r))%list.
Proof. unfold join. rewrite flat_map_app. simpl. rewrite app_nil_r. reflexivity. Qed.

Lemma opens_of_snoc (d d1 : db) (row : open_row) (id : string) :
  opens d1 = (opens d ++ [row])%list ->
  opens_of d1 id =
    (opens_of d id ++
     if String.eqb (o_email_id row) id then [row] else [])%list.
Proof.
  intros H. unfold opens_of. rewrite H, List.filter_app. cbn [List.filter].
  destruct (String.eqb (o_email_id row) id); reflexivity.
Qed.

Lemma pixel_store (fk : bool) (w : world) (d : db) (emailId a u : string) :
  write_fails w = false -> has_email d emailId = true ->
  insert_open fk w d emailId a u =
  Ok {| emails := emails d;
        opens := opens d ++
          [{| o_id := next_rowid (map o_id (opens d)); o_email_id := emailId;
              o_opened_at := now w; o_ip_address := a; o_user_agent := u |}];
        links := links d; clicks := clicks d |}.
Proof.
  intros Hw Hin. unfold insert_open. rewrite Hw, Hin, andb_false_r. reflexivity.
Qed.

Lemma ts_ltb_leb (a b : timestamp) : ts_ltb a b = true -> ts_leb a b = true.
Proof.
  intros H. destruct (ts_leb a b) eqn:Hl; [reflexivity|].
  apply ts_leb_total in Hl. unfold ts_leb in Hl. rewrite H in Hl. discriminate.
Qed.

Lemma ts_leb_refl (a : timestamp) : ts_leb a a = true.
Proof. apply ts_leb_spec. lia. Qed.

Lemma MAX_spec (l : list timestamp) :
  match MAX l with
  | None => l = []
  | Some m => In m l /\ List.Forall (fun t => ts_leb t m = true) l
  end.
Proof.
  induction l as [|t l IH]; [reflexivity|].
  unfold MAX in *. cbn [fold_right].
  destruct (fold_right _ None l) as [m|].
  - destruct IH as [Hin Hall]. destruct (ts_ltb m t) eqn:Hlt.
    + split; [left; reflexivity|]. constructor; [apply ts_leb_refl|].
      eapply List.Forall_impl; [|exact Hall]. intros x Hx.
      eapply ts_leb_trans; [exact Hx|]. apply ts_ltb_leb. exact Hlt.
    + split; [right; exact Hin|]. constructor; [|exact Hall].
      unfold ts_leb. rewrite Hlt. reflexivity.
  - subst l. split; [left; reflexivity|].
    constructor; [apply ts_leb_refl|constructor].
Qed.

(** X13: an open is counted once, for its email and its owner only.  With
    email ids unique, after a pixel fetch for the id of a stored email
    whose INSERT does not raise (either server, foreign keys enforced or
    not), that email's open_count in the listing is one more and its
    last_opened is set, every other email's listing row is unchanged, the
    owner's total_opens in the stats is one more and every other user's
    is unchanged, and total_clicks and total_emails are unchanged for
    everybody. *)
Theorem accepted_open_is_counted_once :
  forall (w w' : world) (d : db) (req : request) (email : email_row)
         (userEmail : string),
    NoDup (map e_id (emails d)) ->
    In email (emails d) ->
    write_fails w = false ->
    let d1 := store (IndexJs.get_t_emailId_png w d req (e_id email)) in
    store (SqlJs.get_t_emailId_png w d req (e_id email)) = d1 /\
    open_count (summary d1 email) = S (open_count (summary d email)) /\
    last_opened (summary d1 email) <> None /\
    click_count (summary d1 email) = click_count (summary d email) /\
    (forall other : email_row,
       e_id other <> e_id email -> summary d1 other = summary d other) /\
    total_opens (IndexJs.select_stats w' d1 userEmail) =
      (total_opens (IndexJs.select_stats w' d userEmail) +
       if eq_param userEmail (e_user_email email) then 1 else 0)%nat /\
    total_clicks (IndexJs.select_stats w' d1 userEmail) =
      total_clicks (IndexJs.select_stats w' d userEmail) /\
    total_emails (IndexJs.select_stats w' d1 userEmail) =
      total_emails (IndexJs.select_stats w' d userEmail).
Proof.
  intros w w' d req email X Hnd Hin Hw d1.
  pose proof (has_email_In_row d email Hin) as Hhas.
  set (row := {| o_id := next_rowid (map o_id (opens d));
                 o_email_id := e_id email; o_opened_at := now w;
                 o_ip_address := js_or (x_forwarded_for req) (ip req);
                 o_user_agent := js_or (user_agent req) "Unknown" |}).
  assert (Hd1 : d1 = {| emails := emails d; opens := opens d ++ [row];
                        links := links d; clicks := clicks d |}).
  { subst d1. unfold IndexJs.get_t_emailId_png.
    rewrite (pixel_store _ w d _ _ _ Hw Hhas). reflexivity. }
  split.
  { unfold SqlJs.get_t_emailId_png.
    rewrite (pixel_store _ w d _ _ _ Hw Hhas). rewrite Hd1. reflexivity. }
  clearbody d1. subst d1.
  assert (Hopens : forall id,
    opens_of {| emails := emails d; opens := opens d ++ [row];
                links := links d; clicks := clicks d |} id =
    (opens_of d id ++ if String.eqb (e_id email) id then [row] else [])%list).
  { intros id. apply (opens_of_snoc d _ row id). reflexivity. }
  split; [|split; [|split; [|split; [|split; [|split]]]]].
  - unfold summary. cbn [open_count]. rewrite Hopens, String.eqb_refl.
    rewrite length_app. simpl. lia.
  - unfold summary. cbn [last_opened]. rewrite Hopens, String.eqb_refl.
    intros Hnone.
    pose proof (MAX_spec (map o_opened_at (opens_of d (e_id email) ++ [row]))) as Hm.
    rewrite Hnone, map_app in Hm. apply app_eq_nil in Hm as [_ Hm].
    discriminate Hm.
  - reflexivity.
  - intros other Hne. unfold summary. rewrite Hopens.
    assert (Hf : String.eqb (e_id email) (e_id other) = false).
    { apply String.eqb_neq. congruence. }
    rewrite Hf, app_nil_r. reflexivity.
  - cbn [IndexJs.select_stats total_opens]. unfold IndexJs.opens_of_user.
    cbn [opens emails]. rewrite join_snoc, List.filter_app, length_app.
    f_equal. cbn [o_email_id row].
    rewrite (filter_unique e_id (emails d) email Hnd Hin).
    cbn [map List.filter snd]. destruct (eq_param X (e_user_email email)); reflexivity.
  - reflexivity.
  - reflexivity.
Qed.

Lemma accepted_open_is_counted_once_witness :
  total_opens
    (IndexJs.select_stats Sample.w0
       (store (IndexJs.get_t_emailId_png Sample.w0 Sample.d2 Sample.req0
                 "0011223344556677")) "alice@example.com") = 5%nat.
Proof.
  assert (Hnd : NoDup (map e_id (emails Sample.d2))).
  { simpl. apply NoDup_singleton. }
  destruct (accepted_open_is_counted_once Sample.w0 Sample.w0 Sample.d2
              Sample.req0 Sample.email1 "alice@example.com" Hnd
              (or_introl eq_refl) eq_refl)
    as (_ & _ & _ & _ & _ & Htotal & _).
  etransitivity; [exact Htotal|]. vm_compute. reflexivity.
Defined.

Lemma clicks_of_snoc (d d1 : db) (pair1 : click_row * link_row) (id : string) :
  clicks_links d1 = (clicks_links d ++ [pair1])%list ->
  clicks_of d1 id =
    (clicks_of d id ++
     if eq_param id (l_email_id (snd pair1)) then [pair1] else [])%list.
Proof.
  intros H. unfold clicks_of. rewrite H, List.filter_app. cbn [List.filter].
  destruct (eq_param id (l_email_id (snd pair1))); reflexivity.
Qed.

(** X14: a click is counted once, for its link's email and that email's
    owner only.  With link ids and email ids unique, after a GET /c/{id}
    on [src/index.js] for a stored link of a stored email, with storage
    up, that email's click_count in the listing is one more, every other
    email's listing row is unchanged, the owner's total_clicks in the
    stats is one more and every other user's is unchanged, and
    total_opens is unchanged for everybody. *)
Theorem followed_click_is_counted_once :
  forall (w w' : world) (d : db) (req : request) (link : link_row)
         (email : email_row) (userEmail : string),
    NoDup (map l_id (links d)) ->
    NoDup (map e_id (emails d)) ->
    In link (links d) ->
    In email (emails d) ->
    l_email_id link = Some (e_id email) ->
    read_fails w = false ->
    write_fails w = false ->
    let d1 := store (IndexJs.get_c_linkId w d req (l_id link)) in
    click_count (summary d1 email) = S (click_count (summary d email)) /\
    open_count (summary d1 email) = open_count (summary d email) /\
    (forall other : email_row,
       e_id other <> e_id email -> summary d1 other = summary d other) /\
    total_clicks (IndexJs.select_stats w' d1 userEmail) =
      (total_clicks (IndexJs.select_stats w' d userEmail) +
       if eq_param userEmail (e_user_email email) then 1 else 0)%nat /\
    total_opens (IndexJs.select_stats w' d1 userEmail) =
      total_opens (IndexJs.select_stats w' d userEmail).
Proof.
  intros w w' d req link email X Hnl Hne Hlink Hemail Hof Hr Hw d1.
  set (row := {| c_id := next_rowid (map c_id (clicks d));
                 c_link_id := l_id link; c_clicked_at := now w;
                 c_ip_address := js_or (x_forwarded_for req) (ip req);
                 c_user_agent := js_or (user_agent req) "Unknown" |}).
  assert (Hd1 : d1 = {| emails := emails d; opens := opens d;
                        links := links d; clicks := clicks d ++ [row] |}).
  { subst d1. unfold IndexJs.get_c_linkId, IndexJs.select_link, select_links.
    rewrite Hr, (head_filter_unique (links d) link Hnl Hlink).
    rewrite insert_click_ok; [reflexivity|exact Hw|].
    rewrite (has_link_In d link Hlink). apply andb_false_r. }
  clearbody d1. subst d1.
  set (d1 := {| emails := emails d; opens := opens d;
                links := links d; clicks := clicks d ++ [row] |}).
  assert (Hcl : clicks_links d1 = (clicks_links d ++ [(row, link)])%list).
  { unfold clicks_links, d1. cbn [clicks links]. rewrite join_snoc.
    cbn [c_link_id row].
    rewrite (filter_unique l_id (links d) link Hnl Hlink). reflexivity. }
  assert (Hclicks : forall id,
    clicks_of d1 id =
    (clicks_of d id ++ if eq_param id (Some (e_id email)) then [(row, link)] else [])%list).
  { intros id. rewrite (clicks_of_snoc d d1 (row, link) id Hcl).
    cbn [snd]. rewrite Hof. reflexivity. }
  split; [|split; [|split; [|split]]].
  - unfold summary. cbn [click_count]. rewrite Hclicks. cbn [eq_param].
    rewrite String.eqb_refl, length_app. simpl. lia.
  - reflexivity.
  - intros other Hother. unfold summary. rewrite Hclicks. cbn [eq_param].
    assert (Hf : String.eqb (e_id email) (e_id other) = false).
    { apply String.eqb_neq. congruence. }
    rewrite Hf, app_nil_r. reflexivity.
  - cbn [IndexJs.select_stats total_clicks]. unfold IndexJs.clicks_of_user.
    rewrite Hcl. change (emails d1) with (emails d).
    rewrite join_snoc, List.filter_app, length_app. f_equal.
    cbn [snd]. rewrite Hof.
    assert (Hf : List.filter (fun e => eq_param (e_id e) (Some (e_id email))) (emails d) =
                 [email]).
    { rewrite <- (filter_unique e_id (emails d) email Hne Hemail).
      apply filter_ext. intros e. reflexivity. }
    rewrite Hf. cbn [map List.filter snd].
    destruct (eq_param X (e_user_email email)); reflexivity.
  - reflexivity.
Qed.

Lemma followed_click_is_counted_once_witness :
  total_clicks
    (IndexJs.select_stats Sample.w0
       (store (IndexJs.get_c_linkId Sample.w0 Sample.d2 Sample.req0
                 "a1b2c3d4e5f6")) "alice@example.com") = 3%nat.
Proof.
  assert (Hnl : NoDup (map l_id (links Sample.d2))).
  { simpl. apply NoDup_singleton. }
  assert (Hne : NoDup (map e_id (emails Sample.d2))).
  { simpl. apply NoDup_singleton. }
  destruct (followed_click_is_counted_once Sample.w0 Sample.w0 Sample.d2
              Sample.req0 Sample.link1 Sample.email1 "alice@example.com"
              Hnl Hne (or_introl eq_refl) (or_introl eq_refl) eq_refl
              eq_refl eq_refl)
    as (_ & _ & _ & Htotal & _).
  etransitivity; [exact Htotal|]. vm_compute. reflexivity.
Defined.

(** ** The detail against the listing *)

Lemma ts_leb_antisym (a b : timestamp) :
  ts_leb a b = true -> ts_leb b a = true -> a = b.
Proof.
  rewrite !ts_leb_spec. destruct a as [da sa], b as [db sb]. simpl.
  intros H1 H2. f_equal; lia.
Qed.

Lemma head_of_sorted {A : Type} (key : A -> timestamp) (l : list A) :
  MAX (map key l) = option_map key (head (order_by_desc key l)).
Proof.
  pose proof (MAX_spec (map key l)) as Hmax.
  pose proof (order_by_desc_sorted key l) as Hs.
  pose proof (order_by_desc_perm key l) as Hp.
  destruct (order_by_desc key l) as [|h rest] eqn:Ho.
  - apply Permutation_nil in Hp. subst l. reflexivity.
  - cbn [head option_map].
    destruct (MAX (map key l)) as [m|].
    + destruct Hmax as [Hin Hall]. f_equal.
      apply in_map_iff in Hin as (x & <- & Hx).
      apply ts_leb_antisym.
      * apply StronglySorted_inv in Hs as [_ Hh].
        apply (Permutation_in _ (Permutation_sym Hp)) in Hx as [->|Hx];
          [apply ts_leb_refl|].
        rewrite List.Forall_forall in Hh. apply Hh. exact Hx.
      * rewrite List.Forall_forall in Hall. apply Hall. apply in_map.
        apply (Permutation_in _ Hp). left. reflexivity.
    + destruct l; [|discriminate Hmax].
      apply Permutation_sym, Permutation_nil in Hp. discriminate Hp.
Qed.

Lemma sorted_views {A B : Type} (key : A -> timestamp) (view : A -> B)
    (key' : B -> timestamp) (l : list A) :
  (forall a, key' (view a) = key a) ->
  StronglySorted (fun a b => ts_leb (key' b) (key' a) = true)
    (map view (order_by_desc key l)).
Proof.
  intros Hk. pose proof (order_by_desc_sorted key l) as Hs.
  induction Hs as [|a m Hm IH Ha]; simpl; constructor; [exact IH|].
  apply List.Forall_forall. intros b Hb.
  apply in_map_iff in Hb as (a' & <- & Ha').
  rewrite !Hk. rewrite List.Forall_forall in Ha. apply Ha. exact Ha'.
Qed.

(** X15: the detail of an email agrees with its row in the listing.
    Whenever GET /api/emails/{id} of [src/index.js] answers 200, the
    returned email is a stored one with that id; totalOpens and
    totalClicks are the open_count and click_count the listing shows for
    it; the click counts of its links add up to totalClicks; opens and
    clicks come newest first; and the listing's last_opened is the time of
    the first open shown (none when there is no open). *)
Theorem detail_agrees_with_listing :
  forall (w : world) (d : db) (emailId : string) (detail : email_detail),
    reply (IndexJs.get_api_emails_emailId w d emailId) =
      Reply 200 [] (EmailDetail detail) ->
    let row := summary d (d_email detail) in
    In (d_email detail) (emails d) /\
    e_id (d_email detail) = emailId /\
    totalOpens (d_stats detail) = open_count row /\
    totalClicks (d_stats detail) = click_count row /\
    list_sum (map lv_click_count (d_links detail)) = totalClicks (d_stats detail) /\
    StronglySorted (fun a b => ts_leb (ov_opened_at b) (ov_opened_at a) = true)
      (d_opens detail) /\
    StronglySorted (fun a b => ts_leb (cv_clicked_at b) (cv_clicked_at a) = true)
      (d_clicks detail) /\
    last_opened row = option_map ov_opened_at (head (d_opens detail)).
Proof.
  intros w d emailId detail. unfold IndexJs.get_api_emails_emailId.
  destruct (read_fails w); [discriminate|].
  destruct (head (select_email (eq_param emailId) d)) as [email|] eqn:Hhead;
    [|discriminate].
  cbn [reply]. intros H. injection H as <-.
  assert (Hin : In email (select_email (eq_param emailId) d)).
  { destruct (select_email (eq_param emailId) d); [discriminate|].
    injection Hhead as ->. left. reflexivity. }
  apply filter_In in Hin as [Hin Hid]. cbn [eq_param] in Hid.
  apply String.eqb_eq in Hid.
  cbn [detail_of d_email d_stats d_opens d_clicks d_links stats_of
       totalOpens totalClicks].
  unfold summary. cbn [open_count click_count last_opened]. rewrite Hid.
  repeat split.
  - exact Hin.
  - unfold select_opens. rewrite length_map.
    apply (Permutation_length (order_by_desc_perm _ _)).
  - unfold select_clicks. rewrite length_map.
    apply (Permutation_length (order_by_desc_perm _ _)).
  - unfold select_links_of, select_clicks. rewrite map_map, length_map.
    rewrite (Permutation_length (order_by_desc_perm _ _)).
    unfold clicks_links.
    rewrite (join_count (clicks d) (links d)
               (fun c l => String.eqb (c_link_id c) (l_id l))
               (fun l => eq_param emailId (l_email_id l))).
    reflexivity.
  - unfold select_opens. apply sorted_views. reflexivity.
  - unfold select_clicks. apply sorted_views. reflexivity.
  - unfold select_opens. unfold opens_of.
    rewrite (head_of_sorted o_opened_at).
    destruct (order_by_desc o_opened_at _); reflexivity.
Qed.

Lemma detail_agrees_with_listing_witness :
  exists detail,
    reply (IndexJs.get_api_emails_emailId Sample.w0 Sample.d2
             "0011223344556677") = Reply 200 [] (EmailDetail detail) /\
    totalOpens (d_stats detail) = open_count (summary Sample.d2 (d_email detail)) /\
    list_sum (map lv_click_count (d_links detail)) = 2%nat.
Proof.
  eexists. split; [reflexivity|].
  destruct (detail_agrees_with_listing Sample.w0 Sample.d2 "0011223344556677"
              _ eq_refl) as (_ & _ & Hopens & _ & Hsum & _).
  split; [exact Hopens|]. etransitivity; [exact Hsum|]. reflexivity.
Defined.

(** X16: in every listing row, last_opened is missing exactly when
    open_count is 0; otherwise it is the time of one of that email's opens
    and no open of that email is later. *)
Theorem last_opened_is_the_latest_open :
  forall (w : world) (d : db) (userEmail : string) (rows : list email_summary),
    reply (IndexJs.get_api_emails w d userEmail) = Reply 200 [] (EmailList rows) ->
    Forall
      (fun r =>
         (last_opened r = None <-> open_count r = 0%nat) /\
         forall t, last_opened r = Some t ->
           (exists o, In o (opens d) /\ o_email_id o = s_id r /\
                      o_opened_at o = t) /\
           (forall o, In o (opens d) -> o_email_id o = s_id r ->
                      ts_leb (o_opened_at o) t = true))
      rows.
Proof.
  intros w d X rows. unfold IndexJs.get_api_emails.
  destruct (read_fails w); [discriminate|].
  cbn [reply]. intros H. injection H as <-.
  unfold select_emails. apply List.Forall_forall. intros r Hr.
  apply in_map_iff in Hr as (e & <- & _).
  unfold summary. cbn [last_opened open_count s_id].
  pose proof (MAX_spec (map o_opened_at (opens_of d (e_id e)))) as Hm.
  destruct (MAX (map o_opened_at (opens_of d (e_id e)))) as [m|].
  - destruct Hm as [Hin Hall]. split.
    + split; [discriminate|]. intros H0.
      apply length_zero_iff_nil in H0. rewrite H0 in Hin. destruct Hin.
    + intros t Ht. injection Ht as <-. split.
      * apply in_map_iff in Hin as (o & Ho & Hin).
        apply filter_In in Hin as [Hin Hid]. apply String.eqb_eq in Hid. eauto.
      * intros o Ho Hid. rewrite List.Forall_forall in Hall. apply Hall.
        apply in_map. apply filter_In. split; [exact Ho|].
        apply String.eqb_eq. exact Hid.
  - apply map_eq_nil in Hm. rewrite Hm. split; [tauto|discriminate].
Qed.

Lemma last_opened_is_the_latest_open_witness :
  Forall (fun r => last_opened r = Some {| ts_day := 20000; ts_sec := 0 |})
    (select_emails (eq_param "alice@example.com") Sample.d2) /\
  Forall (fun r => last_opened r = None <-> open_count r = 0%nat)
    (select_emails (eq_param "alice@example.com") Sample.d2).
Proof.
  split; [repeat constructor|].
  eapply List.Forall_impl;
    [|apply (last_opened_is_the_latest_open Sample.w0 Sample.d2
               "alice@example.com" _ eq_refl)].
  intros r [H _]. exact H.
Defined.

(** ** The aggregate statistics *)





Lemma NoDup_map_filter {A : Type} (key : A -> string) (p : A -> bool) (l : list A) :
  NoDup (map key l) -> NoDup (map key (List.filter p l)).
Proof.
  induction l as [|x l IH]; intros H; [exact H|].
  simpl in H. apply NoDup_cons in H as [Hx Hl]. cbn [List.filter].
  destruct (p x); [|apply IH; exact Hl].
  cbn [map]. apply NoDup_cons. split; [|apply IH; exact Hl].
  intros Hin. apply Hx. apply list_elem_of_In in Hin. apply list_elem_of_In.
  apply in_map_iff in Hin as (y & Hy & Hin). apply filter_In in Hin as [Hin _].
  rewrite <- Hy. apply in_map. exact Hin.
Qed.

(** X18: total_emails never exceeds the number of emails the user owns and,
    with email ids unique, is that number; the listing then has
    min(100, total_emails) rows. *)
Theorem total_emails_counts_owned :
  forall (w w' : world) (d : db) (userEmail : string)
         (s : stats_reply) (rows : list email_summary),
    reply (IndexJs.get_api_stats w d userEmail) = Reply 200 [] (Stats s) ->
    reply (IndexJs.get_api_emails w' d userEmail) =
      Reply 200 [] (EmailList rows) ->
    (total_emails s <= List.length (owned d userEmail))%nat /\
    List.length rows = Nat.min 100 (List.length (owned d userEmail)) /\
    (NoDup (map e_id (emails d)) ->
     total_emails s = List.length (owned d userEmail) /\
     List.length rows = Nat.min 100 (total_emails s)).
Proof.
  intros w w' d X s rows.
  unfold IndexJs.get_api_stats, IndexJs.get_api_emails.
  destruct (read_fails w); [discriminate|].
  destruct (read_fails w'); [discriminate|].
  cbn [reply]. intros Hs Hrows. injection Hs as <-. injection Hrows as <-.
  cbn [IndexJs.select_stats total_emails]. fold (owned d X).
  assert (Hlen : List.length (select_emails (eq_param X) d) =
                 Nat.min 100 (List.length (owned d X))).
  { unfold select_emails, LIMIT. fold (owned d X).
    rewrite length_map, length_firstn.
    rewrite (Permutation_length (order_by_desc_perm e_sent_at (owned d X))).
    reflexivity. }
  split; [|split; [exact Hlen|]].
  - rewrite <- (length_map e_id (owned d X)). apply Set_size_le.
  - intros Hnd.
    assert (Hown : Set_size (map e_id (owned d X)) = List.length (owned d X)).
    { rewrite Set_size_distinct; [apply length_map|].
      apply NoDup_map_filter. exact Hnd. }
    rewrite Hown. split; [reflexivity|exact Hlen].
Qed.

Lemma total_emails_counts_owned_witness :
  total_emails (IndexJs.select_stats Sample.w0 Sample.d101 "alice@example.com") =
    101%nat /\
  List.length (select_emails (eq_param "alice@example.com") Sample.d101) = 100%nat.
Proof.
  assert (Hnd : NoDup (map e_id (emails Sample.d101))).
  { apply (bool_decide_unpack _). vm_compute. exact I. }
  destruct (total_emails_counts_owned Sample.w0 Sample.w0 Sample.d101
              "alice@example.com" _ _ eq_refl eq_refl) as (_ & _ & Hu).
  destruct (Hu Hnd) as [Ht Hl]. split.
  - etransitivity; [exact Ht|]. vm_compute. reflexivity.
  - etransitivity; [exact Hl|]. vm_compute. reflexivity.
Defined.

(** ** The sql.js server on well-behaved values *)

Lemma exec_where_plain_value (w : world) (x tail : string) :
  plain x = true ->
  SqlText.until_nul tail = tail ->
  no_quote_ahead tail ->
  SqlText.clauses (S (String.length tail)) tail =
    SqlText.Parsed ([], SqlText.skip_ws tail) ->
  SqlJs.exec_where w x tail =
    if read_fails w then SqlText.Rejected
    else SqlText.Parsed
           (SqlText.holds {| SqlText.first := x; SqlText.more := [] |}).
Proof.
  intros Hx H1 H2 H3. unfold SqlJs.exec_where.
  destruct (read_fails w); [reflexivity|].
  rewrite (read_where_plain x tail Hx H1 H2 H3). reflexivity.
Qed.

Lemma filter_holds {A : Type} (x : string) (col : A -> option string) (l : list A) :
  List.filter
    (fun a => SqlText.holds {| SqlText.first := x; SqlText.more := [] |} (col a)) l =
  List.filter (fun a => eq_param x (col a)) l.
Proof. apply filter_ext. intros a. apply holds_single. Qed.

(** X19: on a value without quote or NUL byte the sql.js server answers
    as [src/index.js] does: the click, listing and detail handlers return
    the same response, database and console lines, and the stats handler
    returns the number of owned emails with the same total_opens and
    total_clicks (the same total_emails too when email ids are unique),
    or fails when index.js fails. *)
Theorem sql_js_agrees_on_plain_values :
  forall (w : world) (d : db) (req : request) (x : string),
    plain x = true ->
    SqlJs.get_c_linkId w d req x = Some (IndexJs.get_c_linkId w d req x) /\
    SqlJs.get_api_emails w d x = Some (IndexJs.get_api_emails w d x) /\
    SqlJs.get_api_emails_emailId w d x =
      Some (IndexJs.get_api_emails_emailId w d x) /\
    SqlJsApi.get_api_stats w d x =
      Some (match reply (IndexJs.get_api_stats w d x) with
            | Reply 200 _ (Stats s) =>
                SqlJsApi.Totals
                  {| SqlJsApi.t_total_emails := List.length (owned d x);
                     SqlJsApi.t_total_opens := total_opens s;
                     SqlJsApi.t_total_clicks := total_clicks s |}
            | _ => SqlJsApi.StatsFailed
            end) /\
    (NoDup (map e_id (emails d)) ->
     List.length (owned d x) =
       total_emails (IndexJs.select_stats w d x)).
Proof.
  intros w d req x Hx.
  split; [apply SqlJs_click_plain; exact Hx|].
  split; [apply SqlJs_emails_plain; exact Hx|].
  split; [|split].
  - unfold SqlJs.get_api_emails_emailId, IndexJs.get_api_emails_emailId.
    rewrite !(exec_where_plain_value w x) by
      first [exact Hx | reflexivity | exact I | vm_compute; reflexivity].
    destruct (read_fails w); [reflexivity|].
    unfold select_email. rewrite (filter_holds x (fun e => Some (e_id e))).
    destruct (List.filter _ (emails d)) as [|email rest]; [reflexivity|].
    cbn [head]. unfold select_opens, select_links_of, select_clicks.
    rewrite (filter_holds x (fun o => Some (o_email_id o))).
    rewrite (filter_holds x l_email_id).
    rewrite (filter_holds x (fun cl : click_row * link_row => l_email_id (snd cl))).
    reflexivity.
  - unfold SqlJsApi.get_api_stats, IndexJs.get_api_stats.
    rewrite !(exec_where_plain_value w x) by
      first [exact Hx | reflexivity | exact I | vm_compute; reflexivity].
    destruct (read_fails w); [reflexivity|].
    cbn [reply]. f_equal. f_equal.
    unfold SqlJsApi.count_emails, SqlJsApi.count_opens, SqlJsApi.count_clicks, owned.
    cbn [IndexJs.select_stats total_opens total_clicks].
    unfold IndexJs.opens_of_user, IndexJs.clicks_of_user.
    rewrite (filter_holds x e_user_email).
    rewrite (filter_holds x (fun oe : open_row * email_row => e_user_email (snd oe))).
    rewrite (filter_holds x
               (fun cle : click_row * link_row * email_row => e_user_email (snd cle))).
    reflexivity.
  - intros Hnd. cbn [IndexJs.select_stats total_emails]. fold (owned d x).
    rewrite Set_size_distinct; [symmetry; apply length_map|].
    apply NoDup_map_filter. exact Hnd.
Qed.

Lemma sql_js_agrees_on_plain_values_witness :
  SqlJs.get_api_emails_emailId Sample.w0 Sample.d2 "0011223344556677" =
    Some (IndexJs.get_api_emails_emailId Sample.w0 Sample.d2 "0011223344556677") /\
  SqlJsApi.get_api_stats Sample.w0 Sample.d2 "alice@example.com" =
    Some (SqlJsApi.Totals
            {| SqlJsApi.t_total_emails := 1;
               SqlJsApi.t_total_opens := 4;
               SqlJsApi.t_total_clicks := 2 |}).
Proof.
  split.
  - apply (sql_js_agrees_on_plain_values Sample.w0 Sample.d2 Sample.req0
             "0011223344556677" eq_refl).
  - destruct (sql_js_agrees_on_plain_values Sample.w0 Sample.d2 Sample.req0
                "alice@example.com" eq_refl) as (_ & _ & _ & Hstats & _).
    etransitivity; [exact Hstats|]. vm_compute. reflexivity.
Defined.

(** ** What a recorded event says *)

Lemma js_or_cases (a : option string) (b : string) :
  (forall s, a = Some s -> s <> "" -> js_or a b = s) /\
  (a = None \/ a = Some "" -> js_or a b = b).
Proof.
  unfold js_or. split.
  - intros s -> Hs. destruct (String.eqb s "") eqn:H; [|reflexivity].
    apply String.eqb_eq in H. contradiction.
  - intros [->| ->]; reflexivity.
Qed.

Lemma next_rowid_above (ids : list Z) :
  0 < next_rowid ids /\ List.Forall (fun x => x < next_rowid ids) ids.
Proof.
  unfold next_rowid. split.
  - induction ids as [|y ids IH]; simpl; lia.
  - apply List.Forall_forall. intros x Hx.
    induction ids as [|y ids IH]; [destruct Hx|]. simpl.
    destruct Hx as [->|Hx]; [lia|]. specialize (IH Hx). lia.
Qed.

Lemma accepted_open_is_recorded (fk : bool) (w : world) (d : db)
    (req : request) (emailId : string) :
  accepts_open fk w d emailId = true ->
  match insert_open fk w d emailId
          (js_or (x_forwarded_for req) (ip req))
          (js_or (user_agent req) "Unknown") with
  | Ok d' =>
      records_open w d req emailId
        {| store := d'; reply := pixel_reply; console := [] |}
  | Throw => False
  end.
Proof.
  intros Hacc. unfold accepts_open in Hacc.
  apply andb_true_iff in Hacc as [H1 H2]. apply negb_true_iff in H1, H2.
  unfold insert_open. rewrite H1, H2. unfold records_open. cbn [store opens].
  eexists. split; [reflexivity|].
  cbn [o_email_id o_opened_at o_id o_ip_address o_user_agent].
  destruct (next_rowid_above (map o_id (opens d))) as [Hpos Habove].
  destruct (js_or_cases (x_forwarded_for req) (ip req)) as [Hf Hi].
  destruct (js_or_cases (user_agent req) "Unknown") as [Ha Hu].
  repeat split; auto.
  apply List.Forall_forall. intros o Ho.
  rewrite List.Forall_forall in Habove. apply Habove. apply in_map. exact Ho.
Qed.

(** X20: the row an accepted pixel fetch appends, on either server,
    carries the emailId of the path and the time of the request, a rowid
    that is positive and above every rowid already in opens, as address
    the x-forwarded-for header when it is present and not empty and
    [req.ip] otherwise, and as user agent the user-agent header when it is
    present and not empty and the text "Unknown" otherwise. *)
Theorem recorded_open_describes_the_request :
  forall (w : world) (d : db) (req : request) (emailId : string),
    (accepts_open IndexJs.declares_fk w d emailId = true ->
     records_open w d req emailId (IndexJs.get_t_emailId_png w d req emailId)) /\
    (accepts_open SqlJs.declares_fk w d emailId = true ->
     records_open w d req emailId (SqlJs.get_t_emailId_png w d req emailId)).
Proof.
  intros w d req emailId. split; intros Hacc.
  - pose proof (accepted_open_is_recorded _ w d req emailId Hacc) as H.
    unfold IndexJs.get_t_emailId_png.
    destruct (insert_open IndexJs.declares_fk w d emailId _ _);
      [exact H|destruct H].
  - pose proof (accepted_open_is_recorded _ w d req emailId Hacc) as H.
    unfold SqlJs.get_t_emailId_png.
    destruct (insert_open SqlJs.declares_fk w d emailId _ _);
      [exact H|destruct H].
Qed.

Lemma recorded_open_describes_the_request_witness :
  exists row : open_row,
    opens (store (IndexJs.get_t_emailId_png Sample.w0 Sample.d2 Sample.req1
                    "0011223344556677")) = (opens Sample.d2 ++ [row])%list /\
    o_ip_address row = "198.51.100.9" /\
    o_user_agent row = "Unknown" /\
    o_id row = 5.
Proof.
  destruct (proj1 (recorded_open_describes_the_request Sample.w0 Sample.d2
                     Sample.req1 "0011223344556677") eq_refl)
    as (row & Hrow & _ & _ & _ & _ & Hf & _ & _ & Hu).
  exists row. split; [exact Hrow|]. split; [|split].
  - apply Hf; [reflexivity|discriminate].
  - apply Hu. left. reflexivity.
  - cbn in Hrow. injection Hrow as <-. reflexivity.
Defined.

(** ** Runs of requests *)

Lemma SqlJs_step_plain (w : world) (d : db) (req : request) (c : call) :
  plain_call c = true ->
  exists d' : db, SqlJsApp.step w d req c = Some d'.
Proof.
  destruct c; cbn [plain_call SqlJsApp.step]; intros Hx; try (eexists; reflexivity).
  - rewrite (SqlJs_click_plain w d req linkId Hx). eexists. reflexivity.
  - rewrite (SqlJs_emails_plain w d userEmail Hx). eexists. reflexivity.
  - unfold SqlJs.get_api_emails_emailId.
    rewrite !(exec_where_plain_value w emailId) by
      first [exact Hx | reflexivity | exact I | vm_compute; reflexivity].
    destruct (read_fails w); [eexists; reflexivity|].
    destruct (select_email _ d); eexists; reflexivity.
  - unfold SqlJsApi.get_api_stats.
    rewrite !(exec_where_plain_value w userEmail) by
      first [exact Hx | reflexivity | exact I | vm_compute; reflexivity].
    destruct (read_fails w); eexists; reflexivity.
Qed.

(** X3: no request removes or rewrites a stored row.  Through any run of
    requests on [src/index.js], every table of the starting database is
    the beginning of the same table at the end, and the run adds at most
    one row per request.  On the sql.js server the same holds for every
    run in which the values spliced into SQL text hold no quote and no NUL
    byte, and such a run goes through. *)
Theorem tables_only_grow :
  forall (calls : list (world * request * call)) (d : db),
    (grows d (IndexJsApp.run calls d) /\
     (rows (IndexJsApp.run calls d) <= rows d + List.length calls)%nat) /\
    (Forall (fun x => plain_call (snd x) = true) calls ->
     exists d' : db,
       SqlJsApp.run calls d = Some d' /\
       grows d d' /\ (rows d' <= rows d + List.length calls)%nat).
Proof.
  induction calls as [|[[w req] c] rest IH]; intros d; simpl.
  - split; [split; [apply grows_refl|lia]|].
    intros _. exists d. split; [reflexivity|]. split; [apply grows_refl|lia].
  - split.
    + destruct (delta_grows _ _ _ _ (IndexJs_serve_delta w d req c)) as [G R].
      destruct (proj1 (IH (store (IndexJsApp.serve w d req c)))) as [G' R'].
      split; [eapply grows_trans; eassumption|lia].
    + intros F. inversion F as [|x l Hc Hrest]; subst. cbn [snd] in Hc.
      destruct (SqlJs_step_plain w d req c Hc) as [d1 Hstep]. rewrite Hstep.
      destruct (delta_grows _ _ _ _ (SqlJs_step_delta w d req c d1 Hstep)) as [G R].
      destruct (proj2 (IH d1) Hrest) as (d' & Hrun & G' & R').
      exists d'. split; [exact Hrun|].
      split; [eapply grows_trans; eassumption|lia].
Qed.

(** A registration and a pixel fetch on [src/index.js]; a pixel fetch and a
    click on the sql.js server. *)
Lemma tables_only_grow_witness :
  grows empty_db
    (IndexJsApp.run
       [ (Sample.w0, Sample.req0,
          POST_api_emails None None (Some "alice@example.com"));
         (Sample.w0, Sample.req0, GET_t "2a3b4c5d6e7f90a1") ] empty_db) /\
  exists d', SqlJsApp.run
               [ (Sample.w0, Sample.req0, GET_t "2a3b4c5d6e7f90a1");
                 (Sample.w0, Sample.req0, GET_c "a1b2c3d4e5f6") ] Sample.d1 = Some d' /\
             grows Sample.d1 d'.
Proof.
  split.
  - apply tables_only_grow.
  - destruct (proj2 (tables_only_grow
                       [ (Sample.w0, Sample.req0, GET_t "2a3b4c5d6e7f90a1");
                         (Sample.w0, Sample.req0, GET_c "a1b2c3d4e5f6") ] Sample.d1))
      as (d' & Hrun & G & _).
    + repeat constructor.
    + exists d'. split; [exact Hrun|exact G].
Defined.

(** X4: primary keys and rowids stay pairwise distinct.  A run of requests
    on [src/index.js] that starts from a database with distinct email
    ids, link ids, open rowids and click rowids ends in one; so does, on
    the sql.js server, every run in which the values spliced into SQL text
    hold no quote and no NUL byte. *)
Theorem keys_stay_unique :
  forall (calls : list (world * request * call)) (d : db),
    keys_unique d ->
    keys_unique (IndexJsApp.run calls d) /\
    (Forall (fun x => plain_call (snd x) = true) calls ->
     exists d' : db, SqlJsApp.run calls d = Some d' /\ keys_unique d').
Proof.
  induction calls as [|[[w req] c] rest IH]; intros d K; simpl.
  - split; [exact K|]. intros _. exists d. split; [reflexivity|exact K].
  - split.
    + apply IH. eapply delta_keys; [apply IndexJs_serve_delta|exact K].
    + intros F. inversion F as [|x l Hc Hrest]; subst. cbn [snd] in Hc.
      destruct (SqlJs_step_plain w d req c Hc) as [d1 Hstep]. rewrite Hstep.
      apply IH; [|exact Hrest].
      eapply delta_keys; [eapply SqlJs_step_delta; exact Hstep|exact K].
Qed.

(** Two registrations with the same random bytes and two pixel fetches,
    from the empty database, on each server. *)
Lemma keys_stay_unique_witness :
  keys_unique
    (IndexJsApp.run
       [ (Sample.w0, Sample.req0,
          POST_api_emails None None (Some "alice@example.com"));
         (Sample.w0, Sample.req0,
          POST_api_emails None None (Some "bob@example.com"));
         (Sample.w0, Sample.req0, GET_t "2a3b4c5d6e7f90a1");
         (Sample.w0, Sample.req1, GET_t "2a3b4c5d6e7f90a1") ] empty_db) /\
  exists d', SqlJsApp.run
               [ (Sample.w0, Sample.req0,
                  POST_api_emails None None (Some "alice@example.com"));
                 (Sample.w0, Sample.req0,
                  POST_api_emails None None (Some "bob@example.com"));
                 (Sample.w0, Sample.req0, GET_t "2a3b4c5d6e7f90a1");
                 (Sample.w0, Sample.req0, GET_api_emails "alice@example.com") ]
               empty_db = Some d' /\
             keys_unique d'.
Proof.
  split.
  - apply keys_stay_unique. apply keys_unique_empty.
  - apply keys_stay_unique; [apply keys_unique_empty|]. repeat constructor.
Defined.
